(** * things-bridge: the read-side query engine of [src/db/queries.ts]

    A shallow embedding of the recurrence-aware revision of the query
    module (the code that reads the Things 3 SQLite store and decodes
    rows into [Todo] and [Project] values), followed by the properties of
    the specification that are stated about it.

    Modelling conventions.
    - JavaScript numbers that hold SQLite INTEGER columns, [Date.now()],
      the calibration offset and frequency-unit codes are integers; the
      model agrees with the code on the safe-integer range.
    - A column that may be NULL is an [option]; a WHERE clause keeps a row
      exactly when its condition evaluates to true (NULL is not true).
      ORDER BY is a stable sort of the rows in scan order, NULL keys
      sorting lowest.
    - The module-level variable [startDateEpochOffset] is threaded as
      explicit state; an uncaught JavaScript exception is the [Throw]
      outcome of a computation. [Date.prototype.toISOString] on an
      invalid date is the one source of exceptions.
    - [getDb()] and [Date.now()] are the section variables [db] and
      [nowMs]: one public call sees one database snapshot and one clock
      reading.

    The file has two parts: the definitions (platform functions, store,
    domain types, the functions of the module, sample stores, and the
    vocabulary the properties are stated in), then the properties. *)

From Stdlib Require Import ZArith NArith List String Ascii Strings.Byte Lia Bool.
From Stdlib Require Import Sorted Permutation DecimalString DecimalPos DecimalN.
From stdpp Require Import gmap strings list.

Import ListNotations.
Local Open Scope string_scope.
Local Open Scope Z_scope.

(** ** Stable sorting

    Both [Array.prototype.sort] and the ORDER BY of the store are modelled
    by one stable insertion sort over a "not after" test [le]. The element
    being inserted preceded every element of the sorted tail in the input,
    so it stays in front of the ones it ties with. *)

Section StableSort.
Context {A : Type} (le : A -> A -> bool).

Fixpoint sortInsert (x : A) (l : list A) : list A :=
  match l with
  | [] => [x]
  | y :: l' => if le x y then x :: y :: l' else y :: sortInsert x l'
  end.

Definition stableSort (l : list A) : list A := fold_right sortInsert [] l.
End StableSort.

(** ** JavaScript values and effects *)

Module Js.

(** Outcome of a call: a value, or an uncaught exception. The only
    exception the module can raise is the [RangeError] of
    [Date.prototype.toISOString] on an invalid date. *)
Inductive Error := RangeError.

Inductive Exc (A : Type) : Type :=
| Ok (a : A)
| Throw (e : Error).
Arguments Ok {A} a.
Arguments Throw {A} e.

Definition exc_bind {A B} (m : Exc A) (f : A -> Exc B) : Exc B :=
  match m with
  | Ok a => f a
  | Throw e => Throw e
  end.

(** [rows.map(f)] for an [f] that may throw: left to right, the first
    exception aborts the whole map. *)
Fixpoint traverse {A B} (f : A -> Exc B) (l : list A) : Exc (list B) :=
  match l with
  | [] => Ok []
  | x :: l' =>
      exc_bind (f x) (fun y =>
      exc_bind (traverse f l') (fun ys => Ok (y :: ys)))
  end.

(** Numbers as far as the sort comparator of the upcoming view needs
    them: integers, the two infinities and NaN. *)
Inductive Num :=
| Fin (z : Z)
| PosInf
| NegInf
| NaN.

(** [a - b] on numbers. *)
Definition sub (a b : Num) : Num :=
  match a, b with
  | Fin x, Fin y => Fin (x - y)
  | NaN, _ | _, NaN => NaN
  | PosInf, PosInf | NegInf, NegInf => NaN
  | PosInf, _ => PosInf
  | NegInf, _ => NegInf
  | Fin _, PosInf => NegInf
  | Fin _, NegInf => PosInf
  end.

(** [x ?? Infinity] for a nullable integer. *)
Definition orInfinity (x : option Z) : Num :=
  match x with
  | Some z => Fin z
  | None => PosInf
  end.

(** A comparator result [v] makes [Array.prototype.sort] put [b] before
    [a] exactly when [v > 0]; NaN counts as 0. *)
Definition positive (v : Num) : bool :=
  match v with
  | Fin z => 0 <? z
  | PosInf => true
  | NegInf | NaN => false
  end.

(** [Array.prototype.sort(cmp)] is a stable sort; [b] goes before [a]
    only when [cmp a b] is positive. *)
Definition sort {A} (cmp : A -> A -> Num) (l : list A) : list A :=
  stableSort (fun a b => negb (positive (cmp a b))) l.

(** A value as [bun:sqlite] hands it over for a column typed [unknown]:
    NULL, INTEGER, TEXT, BLOB ([Uint8Array] or [Buffer]), or the
    byte-indexed plain object mentioned in [parseRecurrenceRule], given
    by its [Object.values]. A string is its sequence of code points. *)
Inductive Raw :=
| RNull
| RNumber (z : Z)
| RString (s : list N)
| RBytes (b : list byte)
| RObject (values : list Z).

(** [raw != null] *)
Definition notNull (raw : Raw) : bool :=
  match raw with
  | RNull => false
  | _ => true
  end.

(** Truthiness, as in [raw ? a : b]. *)
Definition truthy (raw : Raw) : bool :=
  match raw with
  | RNull => false
  | RNumber z => negb (z =? 0)
  | RString s => match s with [] => false | _ => true end
  | RBytes _ | RObject _ => true
  end.

End Js.

Export Js.

(** ** Constants *)

(** Task status values in TMTask *)
Module STATUS.
Definition INCOMPLETE : Z := 0.
Definition CANCELED : Z := 2.
Definition COMPLETED : Z := 3.
End STATUS.

(** Task type values in TMTask *)
Module TYPE.
Definition TODO : Z := 0.
Definition PROJECT : Z := 1.
Definition HEADING : Z := 2.
End TYPE.

(** Start bucket values in TMTask *)
Module START_BUCKET.
Definition ANYTIME : Z := 0.
Definition SOMEDAY : Z := 1.
End START_BUCKET.

(** ** Helpers *)

Inductive Status := incomplete | completed | canceled.
Inductive Kind := kind_to_do | kind_project | kind_heading.
Inductive Start := Inbox | Anytime | Someday.

Definition statusToString (status : Z) : Status :=
  if status =? STATUS.COMPLETED then completed
  else if status =? STATUS.CANCELED then canceled
  else incomplete.

Definition typeToString (type : Z) : Kind :=
  if type =? TYPE.PROJECT then kind_project
  else if type =? TYPE.HEADING then kind_heading
  else kind_to_do.

(** [x === n] for a nullable integer [x]. *)
Definition strictEq (x : option Z) (n : Z) : bool :=
  match x with
  | Some z => z =? n
  | None => false
  end.

Definition isNull {A} (x : option A) : bool :=
  match x with
  | Some _ => false
  | None => true
  end.

Definition startToString (start startBucket startDate : option Z) : option Start :=
  if strictEq start 2 then Some Someday
  else if strictEq start 1 && negb (isNull startDate) then Some Anytime
  else if strictEq startBucket START_BUCKET.SOMEDAY then Some Someday
  else if strictEq start 0 && isNull startDate then Some Inbox
  else Some Anytime.

(** ** The platform functions the module calls *)

(** [Date]: a time value is a number of milliseconds since 1970-01-01 UTC;
    [toISOString] renders it in the proleptic Gregorian calendar. *)
Module JsDate.

Definition msPerDay : Z := 86400000.

(** Largest magnitude of a valid time value (ECMAScript TimeClip). *)
Definition maxTime : Z := 8640000000000000.

(** [new Date(v)]: [None] is an Invalid Date. *)
Definition newDate (v : Z) : option Z :=
  if Z.abs v <=? maxTime then Some v else None.

(** Day number since the epoch to (year, month, day). *)
Definition civilFromDays (days : Z) : Z * Z * Z :=
  let z := days + 719468 in
  let era := z / 146097 in
  let doe := z - era * 146097 in
  let yoe := (doe - doe / 1460 + doe / 36524 - doe / 146096) / 365 in
  let doy := doe - (365 * yoe + yoe / 4 - yoe / 100) in
  let mp := (5 * doy + 2) / 153 in
  let d := doy - (153 * mp + 2) / 5 + 1 in
  let m := if mp <? 10 then mp + 3 else mp - 9 in
  let y := yoe + era * 400 + (if m <=? 2 then 1 else 0) in
  (y, m, d).

Definition decimal (n : Z) : string :=
  NilZero.string_of_uint (N.to_uint (Z.to_N n)).

Fixpoint zeros (k : nat) : string :=
  match k with
  | O => EmptyString
  | S k' => String "0" (zeros k')
  end.

(** [String(n).padStart(width, "0")] for a non-negative [n]. *)
Definition pad (width : nat) (n : Z) : string :=
  let s := decimal n in
  String.append (zeros (width - String.length s)) s.

(** Years 0..9999 take four digits, any other year a sign and six. *)
Definition yearString (y : Z) : string :=
  if (0 <=? y) && (y <=? 9999) then pad 4 y
  else String.append (if y <? 0 then "-" else "+") (pad 6 (Z.abs y)).

Definition toISOString (date : option Z) : Exc string :=
  match date with
  | None => Throw RangeError
  | Some t =>
      let '(y, m, d) := civilFromDays (t / msPerDay) in
      let ms := t mod msPerDay in
      Ok (String.concat EmptyString
            [yearString y; "-"; pad 2 m; "-"; pad 2 d; "T";
             pad 2 (ms / 3600000); ":"; pad 2 (ms / 60000 mod 60); ":";
             pad 2 (ms / 1000 mod 60); "."; pad 3 (ms mod 1000); "Z"])
  end.

(** [s.split("T")[0]]: the part of [s] before its first ["T"]. *)
Fixpoint beforeT (s : string) : string :=
  match s with
  | EmptyString => EmptyString
  | String c s' => if Ascii.eqb c "T" then EmptyString else String c (beforeT s')
  end.

End JsDate.

(** Numbers that hold natural numbers, as [parseInt] returns them and as
    a template literal prints them. A Number is a double: a natural
    number below 2^53 is held exactly, a larger one is rounded to 53
    significant bits, a tie going to the even significand, and what
    rounds to 2^1024 is [Infinity]. *)
Module JsNumber.

Local Open Scope N_scope.

Inductive Number :=
| Finite (value : N)
| Infinity.

(** The Number nearest to [n]. *)
Definition ofN (n : N) : Number :=
  let size := N.size n in
  if size <=? 53 then Finite n
  else
    let shift := size - 53 in
    let q := N.shiftr n shift in
    let r := n - N.shiftl q shift in
    let half := N.shiftl 1 (shift - 1) in
    let q' := if (half <? r) || ((r =? half) && N.odd q) then q + 1 else q in
    let rounded := N.shiftl q' shift in
    if 1024 <? N.size rounded then Infinity else Finite rounded.

(** The decimal numeral of a natural number. *)
Definition numeral (n : N) : string := NilZero.string_of_uint (N.to_uint n).

(** The number of digits of that numeral. *)
Definition digits (n : N) : N := N.of_nat (String.length (numeral n)).

(** The numerals of [k] significant digits next to [v] that denote the
    Number [v]: a pair [(s, n)] stands for [s * 10^(n - k)], a numeral of
    [n] digits. *)
Definition candidates (v k : N) : list (N * N) :=
  flat_map
    (fun n =>
       let scale := 10 ^ (n - k) in
       let s0 := v / scale in
       List.filter
         (fun c =>
            (10 ^ (k - 1) <=? fst c) && (fst c <? 10 ^ k)
            && match ofN (fst c * scale) with
               | Finite w => w =? v
               | Infinity => false
               end)
         [(s0, n); (s0 + 1, n)])
    [digits v; digits v + 1].

Definition distance (v k : N) (c : N * N) : N :=
  let x := fst c * 10 ^ (snd c - k) in
  if x <? v then v - x else x - v.

(** The candidate nearest to [v], an even [s] winning a tie. *)
Definition nearest (v k : N) (cs : list (N * N)) : option (N * N) :=
  fold_left
    (fun best c =>
       match best with
       | None => Some c
       | Some b =>
           if (distance v k c <? distance v k b)
              || ((distance v k c =? distance v k b) && N.even (fst c))
           then Some c else Some b
       end)
    cs None.

(** The shortest numeral that denotes [v]: the least number of
    significant digits [k] that has a candidate, from [k] on. *)
Fixpoint shortest (v k : N) (fuel : nat) : option (N * N * N) :=
  match fuel with
  | O => None
  | S fuel' =>
      match nearest v k (candidates v k) with
      | Some (s, n) => Some (s, n, k)
      | None => shortest v (k + 1) fuel'
      end
  end.

(** [String(x)]: below 2^53 the numeral of the integer; from there on the
    shortest numeral that denotes the same Number, padded with zeros up
    to 21 digits and in exponent form beyond. Seventeen significant
    digits tell any two Numbers apart, so the search always ends. *)
Definition toString (x : Number) : string :=
  match x with
  | Infinity => "Infinity"
  | Finite v =>
      if v <? 2 ^ 53 then numeral v
      else
        match shortest v 1 17 with
        | None => numeral v
        | Some (s, n, k) =>
            if n <=? 21 then numeral (s * 10 ^ (n - k))
            else
              let exponent := String.append "e+" (numeral (n - 1)) in
              match numeral s with
              | String d EmptyString => String d exponent
              | String d rest => String d (String "." (String.append rest exponent))
              | EmptyString => exponent
              end
        end
  end.

End JsNumber.

(** [TextDecoder], [String.prototype.match] for the one pattern in use,
    and [parseInt]. A decoded string is its list of code points. *)
Module JsText.

Local Open Scope N_scope.

Record Utf8State := {
  codePoint : N;
  bytesNeeded : nat;
  lowerBoundary : N;
  upperBoundary : N
}.

Definition utf8Initial : Utf8State :=
  {| codePoint := 0; bytesNeeded := O; lowerBoundary := 128; upperBoundary := 191 |}.

Definition replacement : N := 65533.

(** A byte met while no sequence is open: the code points it emits and
    the state it leaves. *)
Definition utf8Lead (b : N) : list N * Utf8State :=
  if b <=? 127 then ([b], utf8Initial)
  else if (194 <=? b) && (b <=? 223) then
    ([], {| codePoint := N.land b 31; bytesNeeded := 1;
            lowerBoundary := 128; upperBoundary := 191 |})
  else if (224 <=? b) && (b <=? 239) then
    ([], {| codePoint := N.land b 15; bytesNeeded := 2;
            lowerBoundary := if b =? 224 then 160 else 128;
            upperBoundary := if b =? 237 then 159 else 191 |})
  else if (240 <=? b) && (b <=? 244) then
    ([], {| codePoint := N.land b 7; bytesNeeded := 3;
            lowerBoundary := if b =? 240 then 144 else 128;
            upperBoundary := if b =? 244 then 143 else 191 |})
  else ([replacement], utf8Initial).

(** The UTF-8 decoder of the Encoding Standard, with replacement of
    malformed sequences (the decoder is not in fatal mode). *)
Fixpoint utf8Decode (st : Utf8State) (bytes : list N) : list N :=
  match bytes with
  | [] => match bytesNeeded st with O => [] | S _ => [replacement] end
  | b :: rest =>
      match bytesNeeded st with
      | O => let '(out, st') := utf8Lead b in (out ++ utf8Decode st' rest)%list
      | S k =>
          if (lowerBoundary st <=? b) && (b <=? upperBoundary st) then
            let cp := N.lor (N.shiftl (codePoint st) 6) (N.land b 63) in
            match k with
            | O => cp :: utf8Decode utf8Initial rest
            | S _ =>
                utf8Decode {| codePoint := cp; bytesNeeded := k;
                              lowerBoundary := 128; upperBoundary := 191 |} rest
            end
          else
            let '(out, st') := utf8Lead b in
            (replacement :: out ++ utf8Decode st' rest)%list
      end
  end.

(** [new TextDecoder().decode(bytes)]: a leading byte order mark is
    dropped. *)
Definition decode (bytes : list N) : list N :=
  match utf8Decode utf8Initial bytes with
  | 65279 :: s => s
  | s => s
  end.

(** The code points of an ASCII literal. *)
Definition codes (s : string) : list N :=
  map N_of_ascii (list_ascii_of_string s).

(** [\s] *)
Definition isWhiteSpace (c : N) : bool :=
  ((9 <=? c) && (c <=? 13)) || (c =? 32) || (c =? 160) || (c =? 5760)
  || ((8192 <=? c) && (c <=? 8202)) || (c =? 8232) || (c =? 8233)
  || (c =? 8239) || (c =? 8287) || (c =? 12288) || (c =? 65279).

(** [\d] *)
Definition isDigit (c : N) : bool := (48 <=? c) && (c <=? 57).

Fixpoint stripPrefix (lit s : list N) : option (list N) :=
  match lit with
  | [] => Some s
  | c :: lit' =>
      match s with
      | [] => None
      | d :: s' => if c =? d then stripPrefix lit' s' else None
      end
  end.

Fixpoint dropWhile (p : N -> bool) (s : list N) : list N :=
  match s with
  | [] => []
  | c :: s' => if p c then dropWhile p s' else s
  end.

Fixpoint takeWhile (p : N -> bool) (s : list N) : list N :=
  match s with
  | [] => []
  | c :: s' => if p c then c :: takeWhile p s' else []
  end.

(** The pattern [<key>fu</key>\s*<integer>(\d+)</integer>] anchored at
    the head of [s]; the result is capture group 1. Neither [\s] nor [\d]
    matches ["<"], so the greedy choice is the only one that can succeed. *)
Definition fuMatchAt (s : list N) : option (list N) :=
  match stripPrefix (codes "<key>fu</key>") s with
  | None => None
  | Some s1 =>
      match stripPrefix (codes "<integer>") (dropWhile isWhiteSpace s1) with
      | None => None
      | Some s2 =>
          match takeWhile isDigit s2 with
          | [] => None
          | digits =>
              match stripPrefix (codes "</integer>") (dropWhile isDigit s2) with
              | None => None
              | Some _ => Some digits
              end
          end
      end
  end.

(** [xmlString.match(/<key>fu<\/key>\s*<integer>(\d+)<\/integer>/)]:
    the leftmost match, [None] when there is none. *)
Fixpoint fuMatch (s : list N) : option (list N) :=
  match fuMatchAt s with
  | Some digits => Some digits
  | None =>
      match s with
      | [] => None
      | _ :: s' => fuMatch s'
      end
  end.

(** [parseInt(digits, 10)] on a run of decimal digits: the Number
    nearest to the integer they denote. *)
Definition parseInt (digits : list N) : JsNumber.Number :=
  JsNumber.ofN (fold_left (fun acc c => 10 * acc + (c - 48)) digits 0).

End JsText.

(** ** The store: SQLite as far as the queries use it *)

Module Sql.

(** [column = value] on a nullable INTEGER column. *)
Definition eqInt (column : option Z) (value : Z) : bool :=
  match column with
  | Some z => z =? value
  | None => false
  end.

(** [column = value] on a nullable TEXT column. *)
Definition eqText (column : option string) (value : string) : bool :=
  match column with
  | Some s => String.eqb s value
  | None => false
  end.

Definition isNotNull {A} (column : option A) : bool :=
  match column with
  | Some _ => true
  | None => false
  end.

(** [COALESCE(x, y)] *)
Definition coalesce {A} (x y : option A) : option A :=
  match x with
  | Some _ => x
  | None => y
  end.

(** Order of two INTEGER keys; NULL sorts before every value. *)
Definition intLe (x y : option Z) : bool :=
  match x, y with
  | None, _ => true
  | Some _, None => false
  | Some a, Some b => a <=? b
  end.

(** Order of two TEXT keys under the BINARY collation. *)
Definition textLe (x y : option string) : bool :=
  match x, y with
  | None, _ => true
  | Some _, None => false
  | Some a, Some b => String.leb a b
  end.

(** [ORDER BY key ASC] and [ORDER BY key DESC]; rows with equal keys keep
    the order in which the scan produced them. *)
Definition orderByAsc {A K} (le : K -> K -> bool) (key : A -> K) (rows : list A) : list A :=
  stableSort (fun r1 r2 => le (key r1) (key r2)) rows.

Definition orderByDesc {A K} (le : K -> K -> bool) (key : A -> K) (rows : list A) : list A :=
  stableSort (fun r1 r2 => le (key r2) (key r1)) rows.

(** [LIMIT n] *)
Definition limit {A} (n : nat) (rows : list A) : list A := firstn n rows.

(** [table LEFT JOIN other ON on]: the matching rows of [other], or one
    all-NULL row when there is none. *)
Definition leftJoin {A} (on : A -> bool) (other : list A) : list (option A) :=
  match List.filter on other with
  | [] => [None]
  | matches => map Some matches
  end.

(** ASCII case folding of the LIKE operator. *)
Definition toLower (c : ascii) : ascii :=
  let n := nat_of_ascii c in
  if (65 <=? n)%nat && (n <=? 90)%nat then ascii_of_nat (n + 32) else c.

(** Bytes [11xxxxxx] open a UTF-8 character of several bytes. *)
Definition isLead (c : ascii) : bool := (192 <=? nat_of_ascii c)%nat.

(** Bytes [10xxxxxx] continue a UTF-8 character. *)
Definition isContinuation (c : ascii) : bool :=
  let n := nat_of_ascii c in (128 <=? n)%nat && (n <=? 191)%nat.

Fixpoint skipContinuation (s : string) : string :=
  match s with
  | EmptyString => EmptyString
  | String c s' => if isContinuation c then skipContinuation s' else s
  end.

(** [s LIKE pattern] with no ESCAPE clause: ["%"] matches any run of
    characters, ["_"] one character, anything else itself up to ASCII
    case. *)
Fixpoint like (pattern s : string) : bool :=
  match pattern with
  | EmptyString => match s with EmptyString => true | String _ _ => false end
  | String c pattern' =>
      if Ascii.eqb c "%" then
        (fix anywhere (s : string) : bool :=
           like pattern' s
           || match s with
              | EmptyString => false
              | String _ s' => anywhere s'
              end) s
      else if Ascii.eqb c "_" then
        match s with
        | EmptyString => false
        | String d s' =>
            like pattern' (if isLead d then skipContinuation s' else s')
        end
      else
        match s with
        | EmptyString => false
        | String d s' => Ascii.eqb (toLower c) (toLower d) && like pattern' s'
        end
  end.

(** [column LIKE pattern] on a nullable TEXT column. *)
Definition likeText (column : option string) (pattern : string) : bool :=
  match column with
  | Some s => like pattern s
  | None => false
  end.

End Sql.

(** *** Tables *)

Module TMTaskRow.
Record t := mk {
  uuid : string;
  title : option string;
  type : Z;
  status : Z;
  trashed : Z;
  start : option Z;
  notes : option string;
  startDate : option Z;
  startBucket : option Z;
  deadline : option Z;
  creationDate : option Z;
  userModificationDate : option Z;
  stopDate : option Z;
  project : option string;
  area : option string;
  heading : option string;
  reminderTime : option Z;
  rt1_recurrenceRule : Raw;
  rt1_nextInstanceStartDate : option Z;
  rt1_instanceCreationPaused : option Z;
  todayIndex : option Z;
  index : option Z
}.
End TMTaskRow.

Module TMAreaRow.
Record t := mk { uuid : string; title : string }.
End TMAreaRow.

Module TMTagRow.
Record t := mk { uuid : string; title : string; shortcut : option string }.
End TMTagRow.

Module TMTaskTagRow.
Record t := mk { tasks : string; tags : string }.
End TMTaskTagRow.

Module TMChecklistItemRow.
Record t := mk {
  uuid : string;
  title : string;
  status : Z;
  task : option string;
  index : option Z
}.
End TMChecklistItemRow.

Record Database := {
  TMTask : list TMTaskRow.t;
  TMArea : list TMAreaRow.t;
  TMTag : list TMTagRow.t;
  TMTaskTag : list TMTaskTagRow.t;
  TMChecklistItem : list TMChecklistItemRow.t
}.

(** ** Domain types ([src/types.ts]) *)

Module ChecklistItem.
Record t := mk { uuid : string; title : string; status : Status }.
End ChecklistItem.

Module Todo.
Record t := mk {
  uuid : string;
  title : string;
  type : Kind;
  status : Status;
  notes : string;
  start : option Start;
  startDate : option string;
  deadline : option string;
  createdAt : string;
  modifiedAt : string;
  completedAt : option string;
  project : option string;
  projectTitle : option string;
  area : option string;
  areaTitle : option string;
  tags : list string;
  checklist : list ChecklistItem.t;
  reminderTime : option string;
  repeating : bool;
  recurrenceRule : option string;
  nextInstanceDate : option string
}.
End Todo.

Module Project.
Record t := mk {
  uuid : string;
  title : string;
  status : Status;
  notes : string;
  start : option Start;
  startDate : option string;
  deadline : option string;
  createdAt : string;
  modifiedAt : string;
  completedAt : option string;
  area : option string;
  areaTitle : option string;
  tags : list string;
  todoCount : Z
}.
End Project.

(** ** Raw row type from SQLite *)

Module RawTaskRow.
Record t := mk {
  uuid : string;
  title : option string;
  type : Z;
  status : Z;
  start : option Z;
  notes : option string;
  startDate : option Z;
  startBucket : option Z;
  deadline : option Z;
  creationDate : option Z;
  userModificationDate : option Z;
  stopDate : option Z;
  project : option string;
  projectTitle : option string;
  area : option string;
  areaTitle : option string;
  reminderTime : option Z;
  rt1_recurrenceRule : Raw;
  rt1_nextInstanceStartDate : option Z;
  rt1_instanceCreationPaused : option Z
}.
End RawTaskRow.

(** ** Computations of the module

    [startDateEpochOffset] is the only module-level variable. A
    computation takes its current content ([None] is [null]) and returns
    its outcome with the new content. *)

Definition Cache := option Z.

Definition M (A : Type) : Type := Cache -> Exc A * Cache.

Definition ret {A} (a : A) : M A := fun cache => (Ok a, cache).

Definition bind {A B} (m : M A) (f : A -> M B) : M B :=
  fun cache =>
    match m cache with
    | (Ok a, cache') => f a cache'
    | (Throw e, cache') => (Throw e, cache')
    end.

Definition lift {A} (r : Exc A) : M A := fun cache => (r, cache).

Declare Scope js_scope.
Delimit Scope js_scope with js.
Notation "'let*' x := m 'in' k" := (bind m (fun x => k))
  (at level 10, x name, m at level 100, k at level 200) : js_scope.

(** [rows.map(f)] *)
Fixpoint mapM {A B} (f : A -> M B) (l : list A) : M (list B) :=
  match l with
  | [] => ret []
  | x :: l' => bind (f x) (fun y => bind (mapM f l') (fun ys => ret (y :: ys)))
  end.

(** [x ?? d] *)
Definition orElse {A} (x : option A) (d : A) : A :=
  match x with
  | Some a => a
  | None => d
  end.

(** A nullable integer in arithmetic position: [null] counts as 0. *)
Definition toNumber (x : option Z) : Z := orElse x 0.

(** Convert Unix epoch timestamp (seconds since 1970-01-01) to ISO 8601
    string. *)
Definition unixToISO (timestamp : option Z) : Exc (option string) :=
  match timestamp with
  | None => Ok None
  | Some ts =>
      exc_bind (JsDate.toISOString (JsDate.newDate (ts * 1000)))
               (fun iso => Ok (Some iso))
  end.

(** Map frequency unit integer from recurrenceRule plist to
    human-readable string. The keys of an object are strings: a number
    indexes it by its string. *)
Definition FREQUENCY_UNIT_MAP : gmap string string :=
  {[ "4" := "daily"; "256" := "weekly"; "16" := "monthly"; "2048" := "yearly" ]}.

(** The first half of the [try] block of [parseRecurrenceRule]: the
    text of the blob, or [None] where the code returns [null] at once. *)
Definition xmlString (raw : Raw) : option (list N) :=
  match raw with
  | RNull => None
  | RBytes bytes => Some (JsText.decode (map Byte.to_N bytes))
  | RObject values =>
      Some (JsText.decode (map (fun v => Z.to_N (v mod 256)) values))
  | RString s => Some s
  | RNumber _ => None
  end.

(** Parse the recurrenceRule blob (XML plist) and return a human-readable
    frequency string like "daily", "weekly", "monthly", "yearly", or null.
    Nothing inside the [try] block can throw in the model, so the [catch]
    branch has no counterpart. *)
Definition parseRecurrenceRule (raw : Raw) : option string :=
  match xmlString raw with
  | None => None
  | Some xml =>
      match JsText.fuMatch xml with
      | Some digits =>
          let fu := JsText.parseInt digits in
          Some (orElse (FREQUENCY_UNIT_MAP !! JsNumber.toString fu)
                       (String.append "every-" (JsNumber.toString fu)))
      | None => None
      end
  end.

Section Queries.

(** [getDb()] and [Date.now()] (milliseconds). *)
Variable db : Database.
Variable nowMs : Z.

Local Open Scope js_scope.

(** [Math.floor(Date.now() / 86400000) * 86400]: today midnight UTC in
    seconds. *)
Definition todayMidnightUnix : Z := nowMs / 86400000 * 86400.

(** The WHERE clause of the calibration query. *)
Definition whereCalibration (t : TMTaskRow.t) : bool :=
  Sql.eqInt (TMTaskRow.start t) 1
  && Sql.isNotNull (TMTaskRow.startDate t)
  && (TMTaskRow.status t =? 0)
  && (TMTaskRow.trashed t =? 0).

(** The row of the calibration query:
    [SELECT startDate FROM TMTask WHERE start = 1 AND startDate IS NOT NULL
     AND status = 0 AND trashed = 0 ORDER BY startDate DESC LIMIT 1]. *)
Definition calibrationRow : option (option Z) :=
  hd_error
    (map TMTaskRow.startDate
       (Sql.limit 1
          (Sql.orderByDesc Sql.intLe TMTaskRow.startDate
             (List.filter whereCalibration (TMTask db))))).

(** Calibrate the startDate epoch offset by examining a "today" task. *)
Definition calibrateStartDateEpoch : M Z :=
  fun startDateEpochOffset =>
    match startDateEpochOffset with
    | Some offset => (Ok offset, startDateEpochOffset)
    | None =>
        let offset :=
          match calibrationRow with
          | Some startDate =>
              let taskDay := toNumber startDate / 86400 in
              todayMidnightUnix - taskDay * 86400
          | None => 1637712000
          end in
        (Ok offset, Some offset)
    end.

(** Convert Things startDate/deadline field to YYYY-MM-DD string. *)
Definition thingsScheduleDateToString (dateValue : option Z) : M (option string) :=
  match dateValue with
  | None => ret None
  | Some value =>
      let* offset := calibrateStartDateEpoch in
      let unixTimestamp := value + offset in
      let* iso := lift (JsDate.toISOString (JsDate.newDate (unixTimestamp * 1000))) in
      ret (Some (JsDate.beforeT iso))
  end.

(** Get tags for a given task UUID *)
Definition getTagsForTask (taskUuid : string) : list string :=
  map (fun r => TMTagRow.title (fst r))
    (List.filter
       (fun r => String.eqb (TMTaskTagRow.tasks (snd r)) taskUuid)
       (flat_map
          (fun t =>
             map (fun tt => (t, tt))
               (List.filter
                  (fun tt => String.eqb (TMTaskTagRow.tags tt) (TMTagRow.uuid t))
                  (TMTaskTag db)))
          (TMTag db))).

(** Get checklist items for a given task UUID *)
Definition getChecklistForTask (taskUuid : string) : list ChecklistItem.t :=
  map
    (fun r =>
       {| ChecklistItem.uuid := TMChecklistItemRow.uuid r;
          ChecklistItem.title := TMChecklistItemRow.title r;
          ChecklistItem.status := statusToString (TMChecklistItemRow.status r) |})
    (Sql.orderByAsc Sql.intLe TMChecklistItemRow.index
       (List.filter
          (fun r => Sql.eqText (TMChecklistItemRow.task r) taskUuid)
          (TMChecklistItem db))).

Definition rowToTodo (row : RawTaskRow.t) : M Todo.t :=
  let isRecurring := notNull (RawTaskRow.rt1_recurrenceRule row) in
  let* nextInstanceDate :=
    thingsScheduleDateToString (RawTaskRow.rt1_nextInstanceStartDate row) in
  let* effectiveStartDate :=
    if negb (isNull (RawTaskRow.startDate row))
    then thingsScheduleDateToString (RawTaskRow.startDate row)
    else if isRecurring then ret nextInstanceDate
    else ret None in
  let* deadline := thingsScheduleDateToString (RawTaskRow.deadline row) in
  let* createdAt := lift (unixToISO (RawTaskRow.creationDate row)) in
  let* modifiedAt := lift (unixToISO (RawTaskRow.userModificationDate row)) in
  let* completedAt := lift (unixToISO (RawTaskRow.stopDate row)) in
  let* reminderTime := lift (unixToISO (RawTaskRow.reminderTime row)) in
  ret {| Todo.uuid := RawTaskRow.uuid row;
         Todo.title := orElse (RawTaskRow.title row) EmptyString;
         Todo.type := typeToString (RawTaskRow.type row);
         Todo.status := statusToString (RawTaskRow.status row);
         Todo.notes := orElse (RawTaskRow.notes row) EmptyString;
         Todo.start :=
           startToString (RawTaskRow.start row) (RawTaskRow.startBucket row)
                         (RawTaskRow.startDate row);
         Todo.startDate := effectiveStartDate;
         Todo.deadline := deadline;
         Todo.createdAt := orElse createdAt EmptyString;
         Todo.modifiedAt := orElse modifiedAt EmptyString;
         Todo.completedAt := completedAt;
         Todo.project := RawTaskRow.project row;
         Todo.projectTitle := RawTaskRow.projectTitle row;
         Todo.area := RawTaskRow.area row;
         Todo.areaTitle := RawTaskRow.areaTitle row;
         Todo.tags := getTagsForTask (RawTaskRow.uuid row);
         Todo.checklist := getChecklistForTask (RawTaskRow.uuid row);
         Todo.reminderTime := reminderTime;
         Todo.repeating := isRecurring;
         Todo.recurrenceRule := parseRecurrenceRule (RawTaskRow.rt1_recurrenceRule row);
         Todo.nextInstanceDate := nextInstanceDate |}.

(** *** Base query for tasks *)

(** One row of [FROM TMTask t LEFT JOIN TMTask p ON t.project = p.uuid
    LEFT JOIN TMArea a ON COALESCE(t.area, p.area) = a.uuid]. *)
Record Joined := {
  t : TMTaskRow.t;
  p : option TMTaskRow.t;
  a : option TMAreaRow.t
}.

(** [COALESCE(t.area, p.area)] *)
Definition joinedArea (t : TMTaskRow.t) (p : option TMTaskRow.t) : option string :=
  Sql.coalesce (TMTaskRow.area t)
    (match p with Some p' => TMTaskRow.area p' | None => None end).

Definition BASE_TASK_FROM : list Joined :=
  flat_map
    (fun t =>
       flat_map
         (fun p =>
            map (fun a => {| t := t; p := p; a := a |})
              (Sql.leftJoin
                 (fun a => Sql.eqText (joinedArea t p) (TMAreaRow.uuid a))
                 (TMArea db)))
         (Sql.leftJoin
            (fun p => Sql.eqText (TMTaskRow.project t) (TMTaskRow.uuid p))
            (TMTask db)))
    (TMTask db).

(** The column list of [BASE_TASK_SELECT]. *)
Definition BASE_TASK_SELECT (j : Joined) : RawTaskRow.t :=
  {| RawTaskRow.uuid := TMTaskRow.uuid (t j);
     RawTaskRow.title := TMTaskRow.title (t j);
     RawTaskRow.type := TMTaskRow.type (t j);
     RawTaskRow.status := TMTaskRow.status (t j);
     RawTaskRow.start := TMTaskRow.start (t j);
     RawTaskRow.notes := TMTaskRow.notes (t j);
     RawTaskRow.startDate := TMTaskRow.startDate (t j);
     RawTaskRow.startBucket := TMTaskRow.startBucket (t j);
     RawTaskRow.deadline := TMTaskRow.deadline (t j);
     RawTaskRow.creationDate := TMTaskRow.creationDate (t j);
     RawTaskRow.userModificationDate := TMTaskRow.userModificationDate (t j);
     RawTaskRow.stopDate := TMTaskRow.stopDate (t j);
     RawTaskRow.project := TMTaskRow.project (t j);
     RawTaskRow.projectTitle :=
       match p j with Some p' => TMTaskRow.title p' | None => None end;
     RawTaskRow.area := joinedArea (t j) (p j);
     RawTaskRow.areaTitle :=
       match a j with Some a' => Some (TMAreaRow.title a') | None => None end;
     RawTaskRow.reminderTime := TMTaskRow.reminderTime (t j);
     RawTaskRow.rt1_recurrenceRule := TMTaskRow.rt1_recurrenceRule (t j);
     RawTaskRow.rt1_nextInstanceStartDate := TMTaskRow.rt1_nextInstanceStartDate (t j);
     RawTaskRow.rt1_instanceCreationPaused := TMTaskRow.rt1_instanceCreationPaused (t j) |}.

(** [db.query(BASE_TASK_SELECT + " WHERE ... ORDER BY ... LIMIT ...").all()]:
    the WHERE clause reads columns of [t] only; [tail] is the ORDER BY and
    LIMIT part. *)
Definition taskQuery (where_ : TMTaskRow.t -> bool)
    (tail : list Joined -> list Joined) : list RawTaskRow.t :=
  map BASE_TASK_SELECT (tail (List.filter (fun j => where_ (t j)) BASE_TASK_FROM)).

Definition byTodayIndex : list Joined -> list Joined :=
  Sql.orderByAsc Sql.intLe (fun j => TMTaskRow.todayIndex (t j)).

(** *** Public Query Functions *)

Definition whereInbox (t : TMTaskRow.t) : bool :=
  (TMTaskRow.type t =? TYPE.TODO)
  && (TMTaskRow.status t =? STATUS.INCOMPLETE)
  && (TMTaskRow.trashed t =? 0)
  && Sql.eqInt (TMTaskRow.start t) 0
  && isNull (TMTaskRow.startDate t)
  && Sql.eqInt (TMTaskRow.startBucket t) 0
  && isNull (TMTaskRow.project t)
  && isNull (TMTaskRow.heading t).

(** The first query of the today view. *)
Definition whereToday (t : TMTaskRow.t) : bool :=
  (TMTaskRow.type t =? TYPE.TODO)
  && (TMTaskRow.status t =? STATUS.INCOMPLETE)
  && (TMTaskRow.trashed t =? 0)
  && Sql.eqInt (TMTaskRow.start t) 1
  && Sql.isNotNull (TMTaskRow.startDate t).

Definition todayRows : list RawTaskRow.t := taskQuery whereToday byTodayIndex.

(** Recurring templates whose next instance is today but haven't spawned
    yet. *)
Definition whereRecurringToday (todayStart todayEnd : Z) (t : TMTaskRow.t) : bool :=
  (TMTaskRow.type t =? TYPE.TODO)
  && (TMTaskRow.status t =? STATUS.INCOMPLETE)
  && (TMTaskRow.trashed t =? 0)
  && notNull (TMTaskRow.rt1_recurrenceRule t)
  && Sql.eqInt (TMTaskRow.rt1_instanceCreationPaused t) 0
  && match TMTaskRow.rt1_nextInstanceStartDate t with
     | Some next => (todayStart <=? next) && (next <? todayEnd)
     | None => false
     end.

Definition byNextInstance : list Joined -> list Joined :=
  Sql.orderByAsc Sql.intLe (fun j => TMTaskRow.rt1_nextInstanceStartDate (t j)).

Definition recurringTodayRows (todayStart todayEnd : Z) : list RawTaskRow.t :=
  taskQuery (whereRecurringToday todayStart todayEnd) byNextInstance.

(** Regular future tasks *)
Definition whereUpcoming (t : TMTaskRow.t) : bool :=
  (TMTaskRow.type t =? TYPE.TODO)
  && (TMTaskRow.status t =? STATUS.INCOMPLETE)
  && (TMTaskRow.trashed t =? 0)
  && Sql.eqInt (TMTaskRow.start t) 1
  && Sql.isNotNull (TMTaskRow.startDate t)
  && Sql.eqInt (TMTaskRow.startBucket t) 0.

Definition regularRows : list RawTaskRow.t :=
  taskQuery whereUpcoming (Sql.orderByAsc Sql.intLe (fun j => TMTaskRow.startDate (t j))).

(** Recurring templates that are active (not paused) with a future next
    instance *)
Definition whereRecurringUpcoming (todayThingsValue : Z) (t : TMTaskRow.t) : bool :=
  (TMTaskRow.type t =? TYPE.TODO)
  && (TMTaskRow.status t =? STATUS.INCOMPLETE)
  && (TMTaskRow.trashed t =? 0)
  && notNull (TMTaskRow.rt1_recurrenceRule t)
  && Sql.eqInt (TMTaskRow.rt1_instanceCreationPaused t) 0
  && Sql.isNotNull (TMTaskRow.rt1_nextInstanceStartDate t)
  && match TMTaskRow.rt1_nextInstanceStartDate t with
     | Some next => todayThingsValue <? next
     | None => false
     end.

Definition recurringRows (todayThingsValue : Z) : list RawTaskRow.t :=
  taskQuery (whereRecurringUpcoming todayThingsValue) byNextInstance.

(** The merge loop of the upcoming view: [seenUuids] and [allRows] are
    the two accumulators. *)
Fixpoint mergeByUuid (rows : list RawTaskRow.t) (seenUuids : gset string)
    (allRows : list RawTaskRow.t) : list RawTaskRow.t :=
  match rows with
  | [] => allRows
  | row :: rows' =>
      if bool_decide (RawTaskRow.uuid row ∈ seenUuids)
      then mergeByUuid rows' seenUuids allRows
      else mergeByUuid rows' ({[RawTaskRow.uuid row]} ∪ seenUuids) (allRows ++ [row])%list
  end.

(** The sort key of the upcoming view: [rt1_nextInstanceStartDate] for
    recurring, [startDate] for regular. *)
Definition effectiveDate (row : RawTaskRow.t) : Num :=
  if truthy (RawTaskRow.rt1_recurrenceRule row)
  then orInfinity (RawTaskRow.rt1_nextInstanceStartDate row)
  else orInfinity (RawTaskRow.startDate row).

Definition byEffectiveDate (a b : RawTaskRow.t) : Num :=
  sub (effectiveDate a) (effectiveDate b).

Definition whereAnytime (t : TMTaskRow.t) : bool :=
  (TMTaskRow.type t =? TYPE.TODO)
  && (TMTaskRow.status t =? STATUS.INCOMPLETE)
  && (TMTaskRow.trashed t =? 0)
  && Sql.eqInt (TMTaskRow.start t) 1
  && Sql.eqInt (TMTaskRow.startBucket t) START_BUCKET.ANYTIME.

Definition whereSomeday (t : TMTaskRow.t) : bool :=
  (TMTaskRow.type t =? TYPE.TODO)
  && (TMTaskRow.status t =? STATUS.INCOMPLETE)
  && (TMTaskRow.trashed t =? 0)
  && Sql.eqInt (TMTaskRow.start t) 2.

Definition whereLogbook (t : TMTaskRow.t) : bool :=
  (TMTaskRow.type t =? TYPE.TODO)
  && ((TMTaskRow.status t =? STATUS.COMPLETED) || (TMTaskRow.status t =? STATUS.CANCELED))
  && (TMTaskRow.trashed t =? 0).

Definition logbookRows : list RawTaskRow.t :=
  taskQuery whereLogbook
    (fun rows =>
       Sql.limit 50 (Sql.orderByDesc Sql.intLe (fun j => TMTaskRow.stopDate (t j)) rows)).

(** [todayMidnightUnix - offset]: today in Things encoding. *)
Definition todayThingsValue (offset : Z) : Z := todayMidnightUnix - offset.

(** The rows of the today view: the scheduled rows, then the templates
    whose UUID is not among them. *)
Definition combined (offset : Z) : list RawTaskRow.t :=
  let todayStart := todayThingsValue offset - 86400 in
  let todayEnd := todayThingsValue offset + 86400 in
  let seenUuids : gset string := list_to_set (map RawTaskRow.uuid todayRows) in
  (todayRows
   ++ List.filter (fun r => negb (bool_decide (RawTaskRow.uuid r ∈ seenUuids)))
        (recurringTodayRows todayStart todayEnd))%list.

(** The rows of the upcoming view, merged and sorted. *)
Definition allRows (offset : Z) : list RawTaskRow.t :=
  sort byEffectiveDate
    (mergeByUuid (regularRows ++ recurringRows (todayThingsValue offset))%list ∅ []).

(** Get to-dos from a specific built-in list *)
Definition getTodosByList (list : string) : M (Datatypes.list Todo.t) :=
  if String.eqb list "inbox" then
    mapM rowToTodo (taskQuery whereInbox (fun rows => rows))
  else if String.eqb list "today" then
    let* offset := calibrateStartDateEpoch in
    mapM rowToTodo (combined offset)
  else if String.eqb list "upcoming" then
    let* offset := calibrateStartDateEpoch in
    mapM rowToTodo (allRows offset)
  else if String.eqb list "anytime" then
    mapM rowToTodo (taskQuery whereAnytime byTodayIndex)
  else if String.eqb list "someday" then
    mapM rowToTodo
      (taskQuery whereSomeday
         (Sql.orderByDesc Sql.intLe (fun j => TMTaskRow.creationDate (t j))))
  else if String.eqb list "logbook" then
    mapM rowToTodo logbookRows
  else
    mapM rowToTodo (taskQuery (fun _ => false) (fun rows => rows)).

(** Get a single to-do by UUID *)
Definition getTodoByUuid (uuid : string) : M (option Todo.t) :=
  match taskQuery
          (fun t => String.eqb (TMTaskRow.uuid t) uuid && (TMTaskRow.type t =? TYPE.TODO))
          (fun rows => rows) with
  | row :: _ => let* todo := rowToTodo row in ret (Some todo)
  | [] => ret None
  end.

Definition whereSearch (pattern : string) (t : TMTaskRow.t) : bool :=
  (TMTaskRow.type t =? TYPE.TODO)
  && (TMTaskRow.trashed t =? 0)
  && (Sql.likeText (TMTaskRow.title t) pattern || Sql.likeText (TMTaskRow.notes t) pattern).

Definition searchRows (pattern : string) : list RawTaskRow.t :=
  taskQuery (whereSearch pattern)
    (fun rows =>
       Sql.limit 50
         (Sql.orderByDesc Sql.intLe (fun j => TMTaskRow.userModificationDate (t j)) rows)).

(** Search to-dos by title or notes *)
Definition searchTodos (query : string) : M (list Todo.t) :=
  let pattern := String.append "%" (String.append query "%") in
  mapM rowToTodo (searchRows pattern).

(** One row of the project queries: [t], the joined area, and the
    [todoCount] subquery. *)
Definition projectFrom : list (TMTaskRow.t * option TMAreaRow.t) :=
  flat_map
    (fun t =>
       map (fun a => (t, a))
         (Sql.leftJoin (fun a => Sql.eqText (TMTaskRow.area t) (TMAreaRow.uuid a))
            (TMArea db)))
    (TMTask db).

Definition todoCount (t : TMTaskRow.t) : Z :=
  Z.of_nat
    (length
       (List.filter
          (fun sub =>
             Sql.eqText (TMTaskRow.project sub) (TMTaskRow.uuid t)
             && (TMTaskRow.type sub =? TYPE.TODO)
             && (TMTaskRow.trashed sub =? 0))
          (TMTask db))).

(** The object both project functions build from a row. *)
Definition rowToProject (row : TMTaskRow.t * option TMAreaRow.t) : M Project.t :=
  let t := fst row in
  let* startDate := thingsScheduleDateToString (TMTaskRow.startDate t) in
  let* deadline := thingsScheduleDateToString (TMTaskRow.deadline t) in
  let* createdAt := lift (unixToISO (TMTaskRow.creationDate t)) in
  let* modifiedAt := lift (unixToISO (TMTaskRow.userModificationDate t)) in
  let* completedAt := lift (unixToISO (TMTaskRow.stopDate t)) in
  ret {| Project.uuid := TMTaskRow.uuid t;
         Project.title := orElse (TMTaskRow.title t) EmptyString;
         Project.status := statusToString (TMTaskRow.status t);
         Project.notes := orElse (TMTaskRow.notes t) EmptyString;
         Project.start :=
           startToString (TMTaskRow.start t) (TMTaskRow.startBucket t)
                         (TMTaskRow.startDate t);
         Project.startDate := startDate;
         Project.deadline := deadline;
         Project.createdAt := orElse createdAt EmptyString;
         Project.modifiedAt := orElse modifiedAt EmptyString;
         Project.completedAt := completedAt;
         Project.area := TMTaskRow.area t;
         Project.areaTitle :=
           match snd row with Some a' => Some (TMAreaRow.title a') | None => None end;
         Project.tags := getTagsForTask (TMTaskRow.uuid t);
         Project.todoCount := todoCount t |}.

(** Get all projects *)
Definition getProjects : M (list Project.t) :=
  mapM rowToProject
    (Sql.orderByAsc Sql.textLe (fun r => TMTaskRow.title (fst r))
       (List.filter
          (fun r =>
             (TMTaskRow.type (fst r) =? TYPE.PROJECT)
             && (TMTaskRow.trashed (fst r) =? 0)
             && (TMTaskRow.status (fst r) =? STATUS.INCOMPLETE))
          projectFrom)).

(** The to-dos of a project, for [getProjectByUuid]. *)
Definition projectTodoRows (uuid : string) : list RawTaskRow.t :=
  taskQuery
    (fun t =>
       Sql.eqText (TMTaskRow.project t) uuid
       && (TMTaskRow.type t =? TYPE.TODO)
       && (TMTaskRow.trashed t =? 0))
    (Sql.orderByAsc Sql.intLe (fun j => TMTaskRow.index (t j))).

(** Get a single project by UUID with its to-dos *)
Definition getProjectByUuid (uuid : string) : M (option (Project.t * list Todo.t)) :=
  match List.filter
          (fun r =>
             String.eqb (TMTaskRow.uuid (fst r)) uuid
             && (TMTaskRow.type (fst r) =? TYPE.PROJECT))
          projectFrom with
  | [] => ret None
  | row :: _ =>
      let* project := rowToProject row in
      let* todos := mapM rowToTodo (projectTodoRows uuid) in
      ret (Some (project, todos))
  end.

(** Get all areas *)
Definition getAreas : list TMAreaRow.t :=
  stableSort (fun x y => String.leb (TMAreaRow.title x) (TMAreaRow.title y)) (TMArea db).

(** Get all tags *)
Definition getTags : list TMTagRow.t :=
  stableSort (fun x y => String.leb (TMTagRow.title x) (TMTagRow.title y)) (TMTag db).

(** The rows of [getTodosByTag]: the base rows joined with
    [TMTaskTag tt ON tt.tasks = t.uuid] and [TMTag tag ON tt.tags = tag.uuid]. *)
Definition tagRows (tagName : string) : list RawTaskRow.t :=
  map (fun r => BASE_TASK_SELECT (fst r))
    (Sql.orderByDesc Sql.intLe
       (fun r => TMTaskRow.userModificationDate (t (fst r)))
       (List.filter
          (fun r =>
             String.eqb (TMTagRow.title (snd r)) tagName
             && (TMTaskRow.type (t (fst r)) =? TYPE.TODO)
             && (TMTaskRow.trashed (t (fst r)) =? 0)
             && (TMTaskRow.status (t (fst r)) =? STATUS.INCOMPLETE))
          (flat_map
             (fun j =>
                flat_map
                  (fun tt =>
                     map (fun tag => (j, tag))
                       (List.filter
                          (fun tag =>
                             String.eqb (TMTaskTagRow.tags tt) (TMTagRow.uuid tag))
                          (TMTag db)))
                  (List.filter
                     (fun tt =>
                        String.eqb (TMTaskTagRow.tasks tt) (TMTaskRow.uuid (t j)))
                     (TMTaskTag db)))
             BASE_TASK_FROM))).

(** Get to-dos with a specific tag *)
Definition getTodosByTag (tagName : string) : M (list Todo.t) :=
  mapM rowToTodo (tagRows tagName).

End Queries.

(** ** Sample stores

    Small databases on which the functions above are run. *)

Module Sample.

(** A to-do row; the columns not listed are NULL. *)
Definition todo (uuid title : string) (status trashed : Z)
    (start startDate startBucket : option Z) (stamp : option Z)
    (rule : Raw) (next paused : option Z) : TMTaskRow.t :=
  {| TMTaskRow.uuid := uuid;
     TMTaskRow.title := Some title;
     TMTaskRow.type := TYPE.TODO;
     TMTaskRow.status := status;
     TMTaskRow.trashed := trashed;
     TMTaskRow.start := start;
     TMTaskRow.notes := None;
     TMTaskRow.startDate := startDate;
     TMTaskRow.startBucket := startBucket;
     TMTaskRow.deadline := None;
     TMTaskRow.creationDate := stamp;
     TMTaskRow.userModificationDate := stamp;
     TMTaskRow.stopDate := if status =? STATUS.INCOMPLETE then None else stamp;
     TMTaskRow.project := None;
     TMTaskRow.area := None;
     TMTaskRow.heading := None;
     TMTaskRow.reminderTime := None;
     TMTaskRow.rt1_recurrenceRule := rule;
     TMTaskRow.rt1_nextInstanceStartDate := next;
     TMTaskRow.rt1_instanceCreationPaused := paused;
     TMTaskRow.todayIndex := Some 0;
     TMTaskRow.index := Some 0 |}.

Definition tasksOnly (tasks : list TMTaskRow.t) : Database :=
  {| TMTask := tasks; TMArea := []; TMTag := []; TMTaskTag := [];
     TMChecklistItem := [] |}.

(** A recurrence rule as the store keeps it: an XML property list. *)
Definition weeklyRule : Raw :=
  RBytes (list_byte_of_string
            "<dict><key>fu</key> <integer>256</integer></dict>").

(** 2024-03-01T12:00:00Z in milliseconds; midnight is 1709251200. *)
Definition noon : Z := 1709294400000.

(** Raw day 100 is the latest scheduled start date, which calibration
    takes for today. [A] is scheduled that day and is also an active
    template due that day; [B] is a template due the day after; [C] is a
    plain to-do scheduled at day 97; [D] is scheduled at day 98 and is an
    active template next due at day 102; [E] is a template due today. *)
Definition taskA : TMTaskRow.t :=
  todo "A" "water plants" 0 0 (Some 1) (Some 8640000) (Some 0)
    (Some 1709000000) weeklyRule (Some 8640000) (Some 0).

Definition taskB : TMTaskRow.t :=
  todo "B" "call home" 0 0 (Some 2) None (Some 0)
    (Some 1709000001) weeklyRule (Some 8726400) (Some 0).

Definition taskC : TMTaskRow.t :=
  todo "C" "file taxes" 0 0 (Some 1) (Some 8380800) (Some 0)
    (Some 1709000002) RNull None None.

Definition taskD : TMTaskRow.t :=
  todo "D" "pay rent" 0 0 (Some 1) (Some 8467200) (Some 0)
    (Some 1709000003) weeklyRule (Some 8812800) (Some 0).

Definition taskE : TMTaskRow.t :=
  todo "E" "stretch" 0 0 (Some 2) None (Some 0)
    (Some 1709000004) weeklyRule (Some 8640000) (Some 0).

Definition agenda : Database := tasksOnly [taskA; taskB; taskC; taskD; taskE].

(** The offset that calibration infers on [agenda] at [noon]. *)
Definition agendaOffset : Z := 1700611200.

(** The base row of a task with no project and no area. *)
Definition row (task : TMTaskRow.t) : RawTaskRow.t :=
  BASE_TASK_SELECT {| t := task; p := None; a := None |}.

(** A trashed to-do and a trashed project. *)
Definition trash : Database :=
  tasksOnly
    [ todo "T1" "old note" 0 1 (Some 0) None (Some 0) (Some 1709000000)
        RNull None None;
      {| TMTaskRow.uuid := "P1";
         TMTaskRow.title := Some "old project";
         TMTaskRow.type := TYPE.PROJECT;
         TMTaskRow.status := 0;
         TMTaskRow.trashed := 1;
         TMTaskRow.start := Some 1;
         TMTaskRow.notes := None;
         TMTaskRow.startDate := None;
         TMTaskRow.startBucket := Some 0;
         TMTaskRow.deadline := None;
         TMTaskRow.creationDate := Some 1709000000;
         TMTaskRow.userModificationDate := Some 1709000000;
         TMTaskRow.stopDate := None;
         TMTaskRow.project := None;
         TMTaskRow.area := None;
         TMTaskRow.heading := None;
         TMTaskRow.reminderTime := None;
         TMTaskRow.rt1_recurrenceRule := RNull;
         TMTaskRow.rt1_nextInstanceStartDate := None;
         TMTaskRow.rt1_instanceCreationPaused := None;
         TMTaskRow.todayIndex := None;
         TMTaskRow.index := Some 0 |} ].

(** Eighty completed to-dos, stopped at 1709000000, 1709000001, ... *)
Definition done (n : nat) : TMTaskRow.t :=
  todo (JsNumber.numeral (N.of_nat n)) "done" STATUS.COMPLETED 0 (Some 1) None (Some 0)
    (Some (1709000000 + Z.of_nat n)) RNull None None.

Definition archive : Database := tasksOnly (map done (seq 0 80)).

End Sample.

(** ** Vocabulary of the specification *)

(** The offset in force during a call that starts with [cache] in
    [startDateEpochOffset]. *)
Definition calibrated (db : Database) (nowMs : Z) (cache : Cache) : Z :=
  match fst (calibrateStartDateEpoch db nowMs cache) with
  | Ok offset => offset
  | Throw _ => 0
  end.

(** The decoded form of a row under a given offset. *)
Definition decoded (db : Database) (nowMs offset : Z) (row : RawTaskRow.t) : Exc Todo.t :=
  fst (rowToTodo db nowMs row (Some offset)).

(** [decodedDate(raw) = toCalendarDate(raw + offset)], truncated to day
    granularity. *)
Definition decodedDate (offset raw : Z) : Exc string :=
  exc_bind (JsDate.toISOString (JsDate.newDate ((raw + offset) * 1000)))
           (fun iso => Ok (JsDate.beforeT iso)).

(** The precedence table of the scheduling bucket, by the values of the
    three raw inputs: the start flag is 0 for inbox, 1 for scheduled and 2
    for someday, the bucket code is 1 for someday. The rows are tried in
    order and the first that applies decides. *)
Definition schedulingBucket (start startBucket startDate : option Z) : Start :=
  match start, startBucket, startDate with
  | Some 2, _, _ => Someday
  | Some 1, _, Some _ => Anytime
  | _, Some 1, _ => Someday
  | Some 0, _, None => Inbox
  | _, _, _ => Anytime
  end.

(** The number that a run of decimal digits denotes. *)
Fixpoint decimalValue (digits : list N) : N :=
  match digits with
  | [] => 0%N
  | d :: rest => ((d - 48) * 10 ^ N.of_nat (length rest) + decimalValue rest)%N
  end.

(** The label of a frequency-unit code: a name for the four known codes;
    for any other code, [every-] and the code as the program holds it,
    which is the code itself up to 2^53 and the nearest Number, as it
    prints, beyond. *)
Definition frequencyLabel (code : N) : string :=
  if (code =? 4)%N then "daily"
  else if (code =? 256)%N then "weekly"
  else if (code =? 16)%N then "monthly"
  else if (code =? 2048)%N then "yearly"
  else String.append "every-"
         (if (code <=? 2 ^ 53)%N then JsNumber.numeral code
          else JsNumber.toString (JsNumber.ofN code)).

(** [s] consists of decimal digits. *)
Fixpoint allDigits (s : string) : bool :=
  match s with
  | EmptyString => true
  | String c s' =>
      (48 <=? nat_of_ascii c)%nat && (nat_of_ascii c <=? 57)%nat && allDigits s'
  end.

(** The start dates the calibration query ranges over: active, not
    trashed, incomplete, scheduled flag set, start date known. *)
Definition calibrationCandidates (db : Database) : list Z :=
  flat_map
    (fun t =>
       match TMTaskRow.startDate t with
       | Some d =>
           if Sql.eqInt (TMTaskRow.start t) 1
              && (TMTaskRow.status t =? 0) && (TMTaskRow.trashed t =? 0)
           then [d] else []
       | None => []
       end)
    (TMTask db).

Definition maximum (l : list Z) : option Z :=
  match l with
  | [] => None
  | d :: l' => Some (fold_right Z.max d l')
  end.

(** [floor(now/86400)*86400 - floor(rawValue/86400)*86400] with [now] in
    seconds, or the fallback constant when there is no candidate. *)
Definition calibrationOffset (db : Database) (nowMs : Z) : Z :=
  match maximum (calibrationCandidates db) with
  | Some rawValue => (nowMs / 1000) / 86400 * 86400 - rawValue / 86400 * 86400
  | None => 1637712000
  end.



(** [s] has [q] as a contiguous part. *)
Definition contains (s q : string) : Prop :=
  exists before after, s = String.append before (String.append q after).

(** [decodedDate] on a nullable raw value. *)
Definition decodedDateOpt (offset : Z) (raw : option Z) : Exc (option string) :=
  match raw with
  | None => Ok None
  | Some v => exc_bind (decodedDate offset v) (fun s => Ok (Some s))
  end.

(** The frequency-unit field occurs in [xml] with the digits [digits]:
    the key element, optional white space, and an integer element. *)
Definition located (xml digits : list N) : Prop :=
  exists before space after,
    xml = (before ++ JsText.codes "<key>fu</key>" ++ space
           ++ JsText.codes "<integer>" ++ digits
           ++ JsText.codes "</integer>" ++ after)%list
    /\ Forall (fun c => JsText.isWhiteSpace c = true) space
    /\ Forall (fun c => JsText.isDigit c = true) digits
    /\ digits <> [].

(** What decoding a text gives: a label when the frequency-unit field
    occurs in it, the label of the number its digits denote; absent when
    the field occurs nowhere. *)
Definition labelled (text : list N) (result : option string) : Prop :=
  match result with
  | Some label =>
      exists digits,
        located text digits /\ label = frequencyLabel (decimalValue digits)
  | None => forall digits, ~ located text digits
  end.

(** The UTF-8 form of a text: one to four bytes for each code point. *)
Definition utf8Bytes (c : N) : list N :=
  (if c <? 128 then [c]
   else if c <? 2048 then [192 + c / 64; 128 + c mod 64]
   else if c <? 65536 then [224 + c / 4096; 128 + c / 64 mod 64; 128 + c mod 64]
   else [240 + c / 262144; 128 + c / 4096 mod 64; 128 + c / 64 mod 64;
         128 + c mod 64])%N.

Definition utf8 (text : list N) : list N := flat_map utf8Bytes text.

(** A code point that UTF-8 can hold: below 17 * 2^16 and no surrogate. *)
Definition scalar (c : N) : bool :=
  ((c <? 55296) || ((57344 <=? c) && (c <? 1114112)))%N.

(** A time value that [Date] accepts. *)
Definition validTime (ms : Z) : Prop := Z.abs ms <= JsDate.maxTime.

(** A raw schedule value, and a raw timestamp, that [Date] accepts. *)
Definition validSchedule (offset : Z) (raw : option Z) : Prop :=
  match raw with
  | Some v => validTime ((v + offset) * 1000)
  | None => True
  end.

Definition validStamp (raw : option Z) : Prop :=
  match raw with
  | Some v => validTime (v * 1000)
  | None => True
  end.

(** Words of the view table, as conditions on a task. *)
Definition incompleteTodo (t : TMTaskRow.t) : Prop :=
  TMTaskRow.type t = TYPE.TODO
  /\ TMTaskRow.status t = STATUS.INCOMPLETE
  /\ TMTaskRow.trashed t = 0.

Definition scheduled (t : TMTaskRow.t) : Prop :=
  TMTaskRow.start t = Some 1 /\ TMTaskRow.startDate t <> None.

Definition activeTemplate (t : TMTaskRow.t) : Prop :=
  TMTaskRow.rt1_recurrenceRule t <> RNull
  /\ TMTaskRow.rt1_instanceCreationPaused t = Some 0.

Definition nextWithin (lo hi : Z) (t : TMTaskRow.t) : Prop :=
  exists next, TMTaskRow.rt1_nextInstanceStartDate t = Some next /\ lo <= next < hi.

Definition nextAfter (today : Z) (t : TMTaskRow.t) : Prop :=
  exists next, TMTaskRow.rt1_nextInstanceStartDate t = Some next /\ today < next.

(** [row] is the base row of a task of the store that satisfies [P]. *)
Definition baseRow (db : Database) (P : TMTaskRow.t -> Prop) (row : RawTaskRow.t) : Prop :=
  exists j, In j (BASE_TASK_FROM db) /\ P (t j) /\ row = BASE_TASK_SELECT j.

Definition hasUuid (uuid : string) (row : RawTaskRow.t) : bool :=
  String.eqb (RawTaskRow.uuid row) uuid.

Definition todoHasUuid (uuid : string) (todo : Todo.t) : bool :=
  String.eqb (Todo.uuid todo) uuid.

(** [s] with its ASCII letters in lower case, as LIKE compares text. *)
Fixpoint foldCase (s : string) : string :=
  match s with
  | EmptyString => EmptyString
  | String c s' => String (Sql.toLower c) (foldCase s')
  end.

(** A query without LIKE wildcards. *)
Definition plain (q : string) : Prop :=
  forall c, In c (list_ascii_of_string q) -> c <> "%"%char /\ c <> "_"%char.

(** A row all of whose time values [Date] accepts under [offset]. *)
Definition rowValid (offset : Z) (row : RawTaskRow.t) : Prop :=
  validSchedule offset (RawTaskRow.rt1_nextInstanceStartDate row)
  /\ validSchedule offset (RawTaskRow.startDate row)
  /\ validSchedule offset (RawTaskRow.deadline row)
  /\ validStamp (RawTaskRow.creationDate row)
  /\ validStamp (RawTaskRow.userModificationDate row)
  /\ validStamp (RawTaskRow.stopDate row)
  /\ validStamp (RawTaskRow.reminderTime row).

(** A computation is [settled] when it reads the cache only through the
    offset in force: it returns what it would return with that offset
    already cached, and leaves the cache as it was or filled with it. *)
Definition settled {A} (db : Database) (nowMs : Z) (m : M A) : Prop :=
  forall cache,
    exists cache',
      m cache = (fst (m (Some (calibrated db nowMs cache))), cache')
      /\ (cache' = cache \/ cache' = Some (calibrated db nowMs cache)).

(** ** A second sample store

    A project in an area, with to-dos, tags and a checklist. *)

Module Office.

Definition work : TMAreaRow.t := {| TMAreaRow.uuid := "W"; TMAreaRow.title := "Work" |}.
Definition home : TMAreaRow.t := {| TMAreaRow.uuid := "H"; TMAreaRow.title := "Home" |}.

(** A task row; the columns not listed are NULL. *)
Definition task (uuid title : string) (type status trashed : Z)
    (start : option Z) (project area : option string) : TMTaskRow.t :=
  {| TMTaskRow.uuid := uuid;
     TMTaskRow.title := Some title;
     TMTaskRow.type := type;
     TMTaskRow.status := status;
     TMTaskRow.trashed := trashed;
     TMTaskRow.start := start;
     TMTaskRow.notes := None;
     TMTaskRow.startDate := None;
     TMTaskRow.startBucket := Some 0;
     TMTaskRow.deadline := None;
     TMTaskRow.creationDate := Some 1709000000;
     TMTaskRow.userModificationDate := Some 1709000000;
     TMTaskRow.stopDate := None;
     TMTaskRow.project := project;
     TMTaskRow.area := area;
     TMTaskRow.heading := None;
     TMTaskRow.reminderTime := None;
     TMTaskRow.rt1_recurrenceRule := RNull;
     TMTaskRow.rt1_nextInstanceStartDate := None;
     TMTaskRow.rt1_instanceCreationPaused := None;
     TMTaskRow.todayIndex := Some 0;
     TMTaskRow.index := Some 0 |}.

Definition launch : TMTaskRow.t := task "P" "Launch" TYPE.PROJECT 0 0 (Some 1) None (Some "W").
Definition draft : TMTaskRow.t := task "T1" "Draft plan" TYPE.TODO 0 0 (Some 1) (Some "P") None.
Definition review : TMTaskRow.t := task "T2" "Review plan" TYPE.TODO 0 0 (Some 1) (Some "P") (Some "H").
Definition scrap : TMTaskRow.t := task "T3" "Old idea" TYPE.TODO 0 1 (Some 1) (Some "P") None.
Definition groceries : TMTaskRow.t := task "T4" "Groceries" TYPE.TODO 0 0 (Some 0) None None.

Definition store : Database :=
  {| TMTask := [launch; draft; review; scrap; groceries];
     TMArea := [work; home];
     TMTag :=
       [ {| TMTagRow.uuid := "g1"; TMTagRow.title := "urgent"; TMTagRow.shortcut := None |};
         {| TMTagRow.uuid := "g2"; TMTagRow.title := "errand"; TMTagRow.shortcut := Some "e" |} ];
     TMTaskTag :=
       [ {| TMTaskTagRow.tasks := "T1"; TMTaskTagRow.tags := "g1" |};
         {| TMTaskTagRow.tasks := "T4"; TMTaskTagRow.tags := "g2" |} ];
     TMChecklistItem :=
       [ {| TMChecklistItemRow.uuid := "c2"; TMChecklistItemRow.title := "milk";
            TMChecklistItemRow.status := 3; TMChecklistItemRow.task := Some "T4";
            TMChecklistItemRow.index := Some 2 |};
         {| TMChecklistItemRow.uuid := "c1"; TMChecklistItemRow.title := "bread";
            TMChecklistItemRow.status := 0; TMChecklistItemRow.task := Some "T4";
            TMChecklistItemRow.index := Some 1 |} ] |}.

End Office.

(** ** Further vocabulary *)

(** Task and area identifiers are unique, as primary keys are. *)
Definition uniqueIds (db : Database) : Prop :=
  List.NoDup (map TMTaskRow.uuid (TMTask db))
  /\ List.NoDup (map TMAreaRow.uuid (TMArea db)).

(** The calendar date of a day number: [YYYY-MM-DD], with the expanded
    year of [toISOString] outside 0..9999. *)
Definition calendarDate (days : Z) : string :=
  let '(y, m, d) := JsDate.civilFromDays days in
  String.append (JsDate.yearString y)
    (String.append "-"
       (String.append (JsDate.pad 2 m) (String.append "-" (JsDate.pad 2 d)))).

(** The tasks the simple views are to list: the incomplete to-dos, not
    trashed, of the inbox (not started, without a date, a project or a
    heading), of anytime (started, bucket 0) and of someday. *)
Definition openTodo (task : TMTaskRow.t) : bool :=
  (TMTaskRow.type task =? 0) && (TMTaskRow.status task =? 0)
  && (TMTaskRow.trashed task =? 0).

Definition inInbox (task : TMTaskRow.t) : bool :=
  openTodo task
  && match TMTaskRow.start task, TMTaskRow.startDate task, TMTaskRow.startBucket task,
           TMTaskRow.project task, TMTaskRow.heading task with
     | Some 0, None, Some 0, None, None => true
     | _, _, _, _, _ => false
     end.

Definition inAnytime (task : TMTaskRow.t) : bool :=
  openTodo task
  && match TMTaskRow.start task, TMTaskRow.startBucket task with
     | Some 1, Some 0 => true
     | _, _ => false
     end.

Definition inSomeday (task : TMTaskRow.t) : bool :=
  openTodo task
  && match TMTaskRow.start task with
     | Some 2 => true
     | _ => false
     end.

(** Ascending order of a nullable integer, [NULL] first. *)
Definition nullsFirst (x y : option Z) : Prop :=
  match x, y with
  | None, _ => True
  | Some _, None => False
  | Some a, Some b => a <= b
  end.

(** The names the view switch of [getTodosByList] knows. *)
Definition listNames : list string :=
  ["inbox"; "today"; "upcoming"; "anytime"; "someday"; "logbook"].

(** [s] has no letter T. *)
Fixpoint noT (s : string) : bool :=
  match s with
  | EmptyString => true
  | String c s' => negb (Ascii.eqb c "T") && noT s'
  end.

(** ** The HTTP layer: [src/index.ts], [src/middleware/auth.ts] and the
       route handlers

    A response is its status and its JSON body, [{ ok: true, data }] or
    [{ ok: false, error }]. The request is given by its method, the
    pathname of its URL, its [Authorization] header and the query
    parameters the handlers read. A string that is compared with the
    configured token is its sequence of code units. *)

Inductive Payload :=
| Todos (todos : list Todo.t)
| Message (message : string).

Inductive Body :=
| Data (data : Payload)
| Failure (error : string).

Record Response := { status : Z; body : Body }.

(** [Response.json({ ok: true, data })] *)
Definition respond (data : Payload) : Response :=
  {| status := 200; body := Data data |}.

(** [Response.json({ ok: false, error }, { status })] *)
Definition refuse (status : Z) (error : string) : Response :=
  {| status := status; body := Failure error |}.

(** *** [requireAuth] *)

(** A letter of a pattern under the [i] flag: the input has it in lower
    or in upper case. *)
Definition sameLetter (lower c : N) : bool := ((c =? lower) || (c =? lower - 32))%N.

Fixpoint stripLetters (lit s : list N) : option (list N) :=
  match lit with
  | [] => Some s
  | l :: lit' =>
      match s with
      | [] => None
      | c :: s' => if sameLetter l c then stripLetters lit' s' else None
      end
  end.

(** [authHeader.replace(/^Bearer\s+/i, "")]: the scheme and the white
    space after it are dropped when the header starts with both. *)
Definition stripBearer (authHeader : list N) : list N :=
  match stripLetters (JsText.codes "bearer") authHeader with
  | Some (c :: rest) =>
      if JsText.isWhiteSpace c then JsText.dropWhile JsText.isWhiteSpace rest
      else authHeader
  | _ => authHeader
  end.

(** Validate the Authorization header against the configured token.
    Returns [None] if valid, or a response if invalid. [configToken] is
    [config.token], [authorization] is
    [request.headers.get("Authorization")]. *)
Definition requireAuth (configToken : list N) (pathname : string)
    (authorization : option (list N)) : option Response :=
  if String.eqb pathname "/health" || String.eqb pathname "/v1/capabilities"
  then None
  else
    match configToken with
    | [] => Some (refuse 500 "Server token not configured")
    | _ :: _ =>
        match authorization with
        | None | Some [] => Some (refuse 401 "Missing Authorization header")
        | Some authHeader =>
            let token := stripBearer authHeader in
            if bool_decide (token = configToken) then None
            else Some (refuse 403 "Invalid token")
        end
    end.

(** *** [matchRoute] *)

Definition consHead (c : ascii) (parts : list string) : list string :=
  match parts with
  | part :: parts' => String c part :: parts'
  | [] => [String c EmptyString]
  end.

(** [s.split("/")] *)
Fixpoint split (s : string) : list string :=
  match s with
  | EmptyString => [EmptyString]
  | String c s' =>
      if Ascii.eqb c "/" then EmptyString :: split s' else consHead c (split s')
  end.

(** [part.slice(1)] when [part.startsWith(":")] *)
Definition paramName (part : string) : option string :=
  match part with
  | String c name => if Ascii.eqb c ":" then Some name else None
  | EmptyString => None
  end.

(** The loop of [matchRoute]; the two lists have the same length.
    [params] holds the own properties of the object. The assignment
    [params[name] = value] adds one, except under the name [__proto__]:
    that is the accessor inherited from [Object.prototype], whose setter
    ignores a string. *)
Fixpoint matchParts (patternParts pathParts : list string)
    (params : gmap string string) : option (gmap string string) :=
  match patternParts, pathParts with
  | [], _ => Some params
  | part :: patternParts', value :: pathParts' =>
      match paramName part with
      | Some name =>
          matchParts patternParts' pathParts'
            (if String.eqb name "__proto__" then params else <[name := value]> params)
      | None =>
          if String.eqb part value then matchParts patternParts' pathParts' params
          else None
      end
  | _ :: _, [] => None
  end.

(** Simple pattern matching: ["/v1/todos/:uuid"] matches
    ["/v1/todos/abc123"]. *)
Definition matchRoute (pathname pattern : string) : option (gmap string string) :=
  let patternParts := split pattern in
  let pathParts := split pathname in
  if negb (length patternParts =? length pathParts)%nat then None
  else matchParts patternParts pathParts ∅.

(** *** The request router *)

(** The handler a request is passed to, with the argument it is given;
    a parameter is [params.uuid] or [params.name], which is [None] when
    the pattern binds no such name. *)
Inductive Call :=
| Health
| Capabilities
| GetTodos
| CreateTodo
| CompleteTodo (uuid : option string)
| CancelTodo (uuid : option string)
| GetTodo (uuid : option string)
| UpdateTodo (uuid : option string)
| DeleteTodo (uuid : option string)
| GetProjects
| CreateProject
| CompleteProject (uuid : option string)
| GetProject (uuid : option string)
| GetTags
| GetAreas
| GetTodosByTag (name : option string).

(** [if (cond) return call] *)
Definition when (cond : bool) (call : Call) : option Call :=
  if cond then Some call else None.

(** [params = matchRoute(pathname, pattern); if (params && ...) return ...] *)
Definition whenRoute (pathname pattern : string)
    (calls : gmap string string -> option Call) : option Call :=
  match matchRoute pathname pattern with
  | Some params => calls params
  | None => None
  end.

(** The first [return] that is reached. *)
Fixpoint firstOf (steps : list (option Call)) : option Call :=
  match steps with
  | [] => None
  | Some call :: _ => Some call
  | None :: steps' => firstOf steps'
  end.

(** The cascade of [handleRequest]: the call it makes, or [None] when it
    falls through to the 404 response. *)
Definition route (method pathname : string) : option Call :=
  firstOf
    [ when (String.eqb pathname "/health" && String.eqb method "GET") Health;
      when (String.eqb pathname "/v1/capabilities" && String.eqb method "GET")
        Capabilities;
      when (String.eqb pathname "/v1/todos/search" && String.eqb method "GET") GetTodos;
      when (String.eqb pathname "/v1/todos" && String.eqb method "GET") GetTodos;
      when (String.eqb pathname "/v1/todos" && String.eqb method "POST") CreateTodo;
      whenRoute pathname "/v1/todos/:uuid/complete"
        (fun params => when (String.eqb method "POST") (CompleteTodo (params !! "uuid")));
      whenRoute pathname "/v1/todos/:uuid/cancel"
        (fun params => when (String.eqb method "POST") (CancelTodo (params !! "uuid")));
      whenRoute pathname "/v1/todos/:uuid"
        (fun params =>
           firstOf
             [ when (String.eqb method "GET") (GetTodo (params !! "uuid"));
               when (String.eqb method "PATCH") (UpdateTodo (params !! "uuid"));
               when (String.eqb method "DELETE") (DeleteTodo (params !! "uuid")) ]);
      when (String.eqb pathname "/v1/projects" && String.eqb method "GET") GetProjects;
      when (String.eqb pathname "/v1/projects" && String.eqb method "POST") CreateProject;
      whenRoute pathname "/v1/projects/:uuid/complete"
        (fun params =>
           when (String.eqb method "POST") (CompleteProject (params !! "uuid")));
      whenRoute pathname "/v1/projects/:uuid"
        (fun params => when (String.eqb method "GET") (GetProject (params !! "uuid")));
      when (String.eqb pathname "/v1/tags" && String.eqb method "GET") GetTags;
      when (String.eqb pathname "/v1/areas" && String.eqb method "GET") GetAreas;
      whenRoute pathname "/v1/tags/:name/todos"
        (fun params => when (String.eqb method "GET") (GetTodosByTag (params !! "name"))) ].

Section Server.

(** The handlers are given: what a call returns or throws, and how it
    changes the state of the process. *)
Variable State : Type.
Variable Thrown : Type.
Variable handle : Call -> State -> (Response + Thrown) * State.

(** [err instanceof Error ? err.message : "Internal server error"] *)
Variable errorMessage : Thrown -> string.

(** [config.token] *)
Variable configToken : list N.

Definition handleRequest (method pathname : string)
    (authorization : option (list N)) (state : State) : Response * State :=
  match requireAuth configToken pathname authorization with
  | Some authError => (authError, state)
  | None =>
      match route method pathname with
      | Some call =>
          match handle call state with
          | (inl response, state') => (response, state')
          | (inr err, state') => (refuse 500 (errorMessage err), state')
          end
      | None =>
          (refuse 404
             (String.append "Not found: "
                (String.append method (String.append " " pathname))),
           state)
      end
  end.

End Server.

(** *** The read handlers *)

Definition VALID_LISTS : list string :=
  ["inbox"; "today"; "upcoming"; "anytime"; "someday"; "logbook"].

(** [s.endsWith(suffix)] *)
Definition endsWith (s suffix : string) : bool :=
  let n := String.length s in
  let m := String.length suffix in
  (m <=? n)%nat && String.eqb (String.substring (n - m) m s) suffix.

Section ReadHandlers.
Variable db : Database.
Variable nowMs : Z.

Local Open Scope js_scope.

(** GET /v1/todos?list=today or GET /v1/todos/search?q=...; [q] and
    [list] are [url.searchParams.get("q")] and
    [url.searchParams.get("list")]. *)
Definition handleGetTodos (pathname : string) (q list : option string) : M Response :=
  let searchQuery := q in
  if endsWith pathname "/search" then
    match searchQuery with
    | None | Some EmptyString => ret (refuse 400 "Missing query parameter: q")
    | Some query =>
        let* results := searchTodos db nowMs query in
        ret (respond (Todos results))
    end
  else
    let list := orElse list "today" in
    if negb (existsb (String.eqb list) VALID_LISTS) then
      ret (refuse 400
             (String.append "Invalid list. Valid options: "
                (String.concat ", " VALID_LISTS)))
    else
      let* todos := getTodosByList db nowMs list in
      ret (respond (Todos todos)).

End ReadHandlers.

(** ** Writing through AppleScript: [src/applescript/executor.ts]

    A script is a string; the three characters that cannot be written
    inside a literal here are named. *)

Definition quote : ascii := ascii_of_nat 34.
Definition backslash : ascii := ascii_of_nat 92.
Definition newline : ascii := ascii_of_nat 10.

(** [s.replace(/c/g, replacement)] for a single character [c] *)
Fixpoint replaceAll (c : ascii) (replacement s : string) : string :=
  match s with
  | EmptyString => EmptyString
  | String d s' =>
      if Ascii.eqb d c then String.append replacement (replaceAll c replacement s')
      else String d (replaceAll c replacement s')
  end.

(** Escape a string for use inside AppleScript double quotes *)
Definition escapeAS (str : string) : string :=
  replaceAll quote (String backslash (String quote EmptyString))
    (replaceAll backslash (String backslash (String backslash EmptyString)) str).

(** The text of a template literal: its pieces in order. *)
Definition template (pieces : list string) : string := String.concat EmptyString pieces.

(** ["..."] around an interpolated value *)
Definition quoted (s : string) : string :=
  String quote (String.append s (String quote EmptyString)).

Definition line : string := String newline EmptyString.

Definition tellThings (commands : string) : string :=
  template ["tell application "; quoted "Things3"; line; "  "; commands; line; "end tell"].

(** The scripts of [completeTodo], [cancelTodo], [deleteTodo] and
    [completeProject]. *)
Definition completeTodoScript (identifier : string) : string :=
  tellThings
    (template ["set status of to do id "; quoted (escapeAS identifier); " to completed"]).

Definition cancelTodoScript (identifier : string) : string :=
  tellThings
    (template ["set status of to do id "; quoted (escapeAS identifier); " to canceled"]).

Definition deleteTodoScript (identifier : string) : string :=
  tellThings
    (template ["move to do id "; quoted (escapeAS identifier); " to list "; quoted "Trash"]).

Definition completeProjectScript (uuid : string) : string :=
  tellThings
    (template ["set status of project id "; quoted (escapeAS uuid); " to completed"]).

(** What [osascript] leaves: its exit code and its two output streams,
    each after [trim()]. *)
Record ProcessResult := { exitCode : N; stdout : string; stderr : string }.

(** The process as the write handlers change it: the calibration cache
    and the scripts run so far, oldest first. *)
Record World := { offsetCache : Cache; scripts : list string }.

(** What is thrown: the exception of a query, or the [Error] of
    [runAppleScript] with its message. *)
Inductive Raised :=
| QueryError (e : Error)
| ScriptError (message : string).

Definition IO (A : Type) : Type := World -> (A + Raised) * World.

Definition io_ret {A} (a : A) : IO A := fun world => (inl a, world).

Definition io_bind {A B} (m : IO A) (f : A -> IO B) : IO B :=
  fun world =>
    match m world with
    | (inl a, world') => f a world'
    | (inr err, world') => (inr err, world')
    end.

(** [try { body } catch (err) { handler(err) }] *)
Definition tryCatch {A} (body : IO A) (handler : Raised -> IO A) : IO A :=
  fun world =>
    match body world with
    | (inl a, world') => (inl a, world')
    | (inr err, world') => handler err world'
    end.

(** A query of the read side, run on the cache of the process. *)
Definition query {A} (m : M A) : IO A :=
  fun world =>
    match m (offsetCache world) with
    | (Ok a, cache) => (inl a, {| offsetCache := cache; scripts := scripts world |})
    | (Throw e, cache) =>
        (inr (QueryError e), {| offsetCache := cache; scripts := scripts world |})
    end.

Section Executor.

(** [osascript -e script]: what the process leaves, given the scripts run
    before it. *)
Variable osascript : list string -> string -> ProcessResult.

(** The message of the [RangeError] of [toISOString], which the engine
    chooses. *)
Variable rangeErrorMessage : string.

Variable db : Database.
Variable nowMs : Z.

(** Execute an AppleScript string via osascript. Returns stdout on
    success, throws on error. *)
Definition runAppleScript (script : string) : IO string :=
  fun world =>
    let proc := osascript (scripts world) script in
    let world' :=
      {| offsetCache := offsetCache world;
         scripts := (scripts world ++ [script])%list |} in
    if negb (exitCode proc =? 0)%N then
      (inr (ScriptError
              (template ["AppleScript failed (exit "; JsNumber.numeral (exitCode proc);
                         "): "; stderr proc])),
       world')
    else (inl (stdout proc), world').

(** Complete a to-do by its UUID *)
Definition completeTodo (identifier : string) : IO unit :=
  io_bind (runAppleScript (completeTodoScript identifier)) (fun _ => io_ret tt).

(** Cancel a to-do *)
Definition cancelTodo (identifier : string) : IO unit :=
  io_bind (runAppleScript (cancelTodoScript identifier)) (fun _ => io_ret tt).

(** Delete (trash) a to-do *)
Definition deleteTodo (identifier : string) : IO unit :=
  io_bind (runAppleScript (deleteTodoScript identifier)) (fun _ => io_ret tt).

(** Complete a project *)
Definition completeProject (uuid : string) : IO unit :=
  io_bind (runAppleScript (completeProjectScript uuid)) (fun _ => io_ret tt).

(** [err instanceof Error ? err.message : String(err)] *)
Definition messageOf (err : Raised) : string :=
  match err with
  | QueryError RangeError => rangeErrorMessage
  | ScriptError message => message
  end.

(** POST /v1/todos/:uuid/complete *)
Definition handleCompleteTodo (uuid : string) : IO Response :=
  io_bind (query (getTodoByUuid db nowMs uuid)) (fun existing =>
  match existing with
  | None => io_ret (refuse 404 "To-do not found")
  | Some existing =>
      tryCatch
        (io_bind (completeTodo uuid) (fun _ =>
         io_ret (respond (Message (String.append "Completed: " (Todo.title existing))))))
        (fun err =>
           io_ret (refuse 500
                     (String.append "Failed to complete to-do: " (messageOf err))))
  end).

(** POST /v1/todos/:uuid/cancel *)
Definition handleCancelTodo (uuid : string) : IO Response :=
  io_bind (query (getTodoByUuid db nowMs uuid)) (fun existing =>
  match existing with
  | None => io_ret (refuse 404 "To-do not found")
  | Some existing =>
      tryCatch
        (io_bind (cancelTodo uuid) (fun _ =>
         io_ret (respond (Message (String.append "Canceled: " (Todo.title existing))))))
        (fun err =>
           io_ret (refuse 500
                     (String.append "Failed to cancel to-do: " (messageOf err))))
  end).

(** DELETE /v1/todos/:uuid *)
Definition handleDeleteTodo (uuid : string) : IO Response :=
  io_bind (query (getTodoByUuid db nowMs uuid)) (fun existing =>
  match existing with
  | None => io_ret (refuse 404 "To-do not found")
  | Some existing =>
      tryCatch
        (io_bind (deleteTodo uuid) (fun _ =>
         io_ret (respond (Message (String.append "Deleted: " (Todo.title existing))))))
        (fun err =>
           io_ret (refuse 500
                     (String.append "Failed to delete to-do: " (messageOf err))))
  end).

(** POST /v1/projects/:uuid/complete *)
Definition handleCompleteProject (uuid : string) : IO Response :=
  io_bind (query (getProjectByUuid db nowMs uuid)) (fun existing =>
  match existing with
  | None => io_ret (refuse 404 "Project not found")
  | Some (existing, _) =>
      tryCatch
        (io_bind (completeProject uuid) (fun _ =>
         io_ret (respond
                   (Message (String.append "Completed project: " (Project.title existing))))))
        (fun err =>
           io_ret (refuse 500
                     (String.append "Failed to complete project: " (messageOf err))))
  end).

End Executor.

(** Reading the body of an AppleScript string literal, from after its
    opening quote: the characters up to the closing quote, a backslash
    standing with the character after it for one character of the string.
    The result is the string and the rest of the script. *)
Definition escaped (c : ascii) : option ascii :=
  if Ascii.eqb c quote then Some quote
  else if Ascii.eqb c backslash then Some backslash
  else if Ascii.eqb c "n" then Some newline
  else if Ascii.eqb c "r" then Some (ascii_of_nat 13)
  else if Ascii.eqb c "t" then Some (ascii_of_nat 9)
  else None.

Fixpoint readLiteral (s : string) : option (string * string) :=
  match s with
  | EmptyString => None
  | String c s' =>
      if Ascii.eqb c quote then Some (EmptyString, s')
      else if Ascii.eqb c backslash then
        match s' with
        | EmptyString => None
        | String d s'' =>
            match escaped d, readLiteral s'' with
            | Some d', Some (text, rest) => Some (String d' text, rest)
            | _, _ => None
            end
        end
      else
        match readLiteral s' with
        | Some (text, rest) => Some (String c text, rest)
        | None => None
        end
  end.

(** [s] has no slash. *)
Fixpoint noSlash (s : string) : bool :=
  match s with
  | EmptyString => true
  | String c s' => negb (Ascii.eqb c "/") && noSlash s'
  end.

(** A segment of a pattern that stands for itself: it has no slash and
    does not start with a colon. *)
Definition literal (part : string) : Prop :=
  noSlash part = true /\ forall name, part <> String ":" name.

(** A segment that the loop of [matchRoute] compares. *)
Definition fixedPart (part : string) : Prop :=
  noSlash part = true /\ paramName part = None.

(** [s] is [lower] with each letter in lower or in upper case. *)
Definition anyCase (lower s : list N) : Prop :=
  Forall2 (fun l c => c = l \/ c = (l - 32)%N) lower s.

(** The path of the search. *)
Definition searchPath (pathname : string) : Prop :=
  exists before, pathname = String.append before "/search".


(** What a write handler does around its script, given what the lookup
    before it found: nothing but a 404 when the lookup finds nothing,
    nothing but the exception when the lookup throws, and otherwise one
    run of [script], answered by 200 when the process exits with 0 and by
    500 when it does not. *)
Definition checkedWrite (osascript : list string -> string -> ProcessResult)
    (found : Exc bool) (missing : string) (script : string)
    (world : World) (result : (Response + Raised) * World) : Prop :=
  let (outcome, world') := result in
  match found with
  | Ok true =>
      scripts world' = (scripts world ++ [script])%list
      /\ exists response,
           outcome = inl response
           /\ status response
              = if (exitCode (osascript (scripts world) script) =? 0)%N
                then 200 else 500
  | Ok false =>
      scripts world' = scripts world /\ outcome = inl (refuse 404 missing)
  | Throw e =>
      scripts world' = scripts world /\ outcome = inr (QueryError e)
  end.

(** Whether a lookup found something. *)
Definition foundBy {A} (lookup : Exc (option A)) : Exc bool :=
  match lookup with
  | Ok (Some _) => Ok true
  | Ok None => Ok false
  | Throw e => Throw e
  end.

(** * Properties *)

(** ** Stable sort *)

Section StableSortFacts.
Context {A : Type} (le : A -> A -> bool).

Lemma sortInsert_perm (x : A) (l : list A) :
  Permutation (sortInsert le x l) (x :: l).
Proof.
  induction l as [|y l IH]; simpl.
  - apply Permutation_refl.
  - destruct (le x y).
    + apply Permutation_refl.
    + eapply Permutation_trans.
      * apply perm_skip. exact IH.
      * apply perm_swap.
Qed.

Lemma stableSort_perm (l : list A) : Permutation (stableSort le l) l.
Proof.
  induction l as [|x l IH]; simpl.
  - apply perm_nil.
  - eapply Permutation_trans.
    + apply sortInsert_perm.
    + apply perm_skip. exact IH.
Qed.

Lemma stableSort_In (x : A) (l : list A) : In x (stableSort le l) <-> In x l.
Proof.
  split; apply Permutation_in.
  - apply stableSort_perm.
  - apply Permutation_sym, stableSort_perm.
Qed.

Lemma stableSort_length (l : list A) : length (stableSort le l) = length l.
Proof. apply Permutation_length, stableSort_perm. Qed.

Hypothesis le_total : forall x y, le x y = true \/ le y x = true.

Lemma sortInsert_sorted (x : A) (l : list A) :
  Sorted (fun a b => le a b = true) l ->
  Sorted (fun a b => le a b = true) (sortInsert le x l).
Proof.
  induction 1 as [|y l Hs IH Hhd]; simpl.
  - repeat constructor.
  - destruct (le x y) eqn:Hxy.
    + constructor; [constructor; assumption | constructor; assumption].
    + constructor; [exact IH |].
      destruct l as [|z l]; simpl.
      * constructor. destruct (le_total x y); congruence.
      * destruct (le x z).
        -- constructor. destruct (le_total x y); congruence.
        -- constructor. inversion Hhd; assumption.
Qed.

Lemma stableSort_sorted (l : list A) :
  Sorted (fun a b => le a b = true) (stableSort le l).
Proof.
  induction l as [|x l IH]; simpl.
  - constructor.
  - apply sortInsert_sorted, IH.
Qed.

Hypothesis le_trans : forall x y z, le x y = true -> le y z = true -> le x z = true.

Lemma stableSort_strongly_sorted (l : list A) :
  StronglySorted (fun a b => le a b = true) (stableSort le l).
Proof.
  apply Sorted_StronglySorted.
  - intros x y z. apply le_trans.
  - apply stableSort_sorted.
Qed.

End StableSortFacts.

(** ** Exceptions and the cache *)

Lemma traverse_Ok_Forall2 {A B} (f : A -> Exc B) (l : list A) (out : list B) :
  traverse f l = Ok out <-> Forall2 (fun x y => f x = Ok y) l out.
Proof.
  revert out. induction l as [|x l IH]; intros out; simpl.
  - split.
    + intros H. injection H as <-. constructor.
    + intros H. inversion H. reflexivity.
  - split.
    + destruct (f x) as [y|e] eqn:Hx; simpl; [|discriminate].
      destruct (traverse f l) as [ys|e] eqn:Hl; simpl; [|discriminate].
      intros H. injection H as <-. constructor; [exact Hx | apply IH; reflexivity].
    + intros H. inversion H as [|x' y l' ys Hx Hl]; subst.
      rewrite Hx. simpl. apply IH in Hl. rewrite Hl. reflexivity.
Qed.

Lemma traverse_Ok_length {A B} (f : A -> Exc B) (l : list A) (out : list B) :
  traverse f l = Ok out -> length out = length l.
Proof.
  intros H. apply traverse_Ok_Forall2 in H.
  symmetry. eapply Forall2_length. exact H.
Qed.

Lemma traverse_Ok_filter {A B} (f : A -> Exc B) (p : A -> bool) (q : B -> bool)
    (l : list A) (out : list B) :
  (forall x y, f x = Ok y -> q y = p x) ->
  traverse f l = Ok out ->
  traverse f (List.filter p l) = Ok (List.filter q out).
Proof.
  intros Hpq. revert out. induction l as [|x l IH]; intros out; simpl.
  - intros H. injection H as <-. reflexivity.
  - destruct (f x) as [y|e] eqn:Hx; simpl; [|discriminate].
    destruct (traverse f l) as [ys|e] eqn:Hl; simpl; [|discriminate].
    intros H. injection H as <-. simpl.
    rewrite (Hpq x y Hx). destruct (p x); simpl.
    + rewrite Hx. simpl. rewrite (IH ys eq_refl). reflexivity.
    + apply IH. reflexivity.
Qed.

Lemma traverse_all_Ok {A B} (f : A -> Exc B) (l : list A) :
  Forall (fun x => exists y, f x = Ok y) l -> exists out, traverse f l = Ok out.
Proof.
  induction 1 as [|x l [y Hy] _ [ys Hys]]; simpl.
  - eexists. reflexivity.
  - rewrite Hy. simpl. rewrite Hys. simpl. eexists. reflexivity.
Qed.

Section CacheFacts.
Variable db : Database.
Variable nowMs : Z.

Lemma calibrated_Some (offset : Z) : calibrated db nowMs (Some offset) = offset.
Proof. reflexivity. Qed.

Lemma calibrate_Some (offset : Z) :
  calibrateStartDateEpoch db nowMs (Some offset) = (Ok offset, Some offset).
Proof. reflexivity. Qed.

Lemma calibrate_run (cache : Cache) :
  calibrateStartDateEpoch db nowMs cache
  = (Ok (calibrated db nowMs cache), Some (calibrated db nowMs cache)).
Proof. destruct cache; reflexivity. Qed.

Lemma settled_calibrate : settled db nowMs (calibrateStartDateEpoch db nowMs).
Proof.
  intros cache. exists (Some (calibrated db nowMs cache)).
  split; [|right; reflexivity].
  rewrite calibrate_run. reflexivity.
Qed.

Lemma settled_ret {A} (a : A) : settled db nowMs (ret a).
Proof. intros cache. exists cache. split; [reflexivity | left; reflexivity]. Qed.

Lemma settled_lift {A} (r : Exc A) : settled db nowMs (lift r).
Proof. intros cache. exists cache. split; [reflexivity | left; reflexivity]. Qed.

Lemma settled_Some {A} (m : M A) (offset : Z) :
  settled db nowMs m -> snd (m (Some offset)) = Some offset.
Proof.
  intros Hm. destruct (Hm (Some offset)) as [cache' [Heq Hc]].
  rewrite Heq. simpl. destruct Hc; assumption.
Qed.

Lemma settled_bind {A B} (m : M A) (f : A -> M B) :
  settled db nowMs m -> (forall a, settled db nowMs (f a)) ->
  settled db nowMs (bind m f).
Proof.
  intros Hm Hf cache.
  set (offset := calibrated db nowMs cache).
  destruct (Hm cache) as [c1 [Hrun Hc1]]. fold offset in Hrun, Hc1.
  pose proof (settled_Some m offset Hm) as Hstay.
  unfold bind. rewrite Hrun.
  destruct (m (Some offset)) as [r c0] eqn:Hm0. simpl in *. subst c0.
  destruct r as [a|e].
  - assert (Hoff : calibrated db nowMs c1 = offset)
      by (destruct Hc1 as [-> | ->]; reflexivity).
    destruct (Hf a c1) as [c2 [Hrun2 Hc2]]. rewrite Hoff in Hrun2, Hc2.
    exists c2. split; [exact Hrun2 |].
    destruct Hc2 as [-> | ->]; [exact Hc1 | right; reflexivity].
  - exists c1. split; [reflexivity | exact Hc1].
Qed.

Lemma settled_mapM {A B} (f : A -> M B) (l : list A) :
  (forall x, settled db nowMs (f x)) -> settled db nowMs (mapM f l).
Proof.
  intros Hf. induction l as [|x l IH]; simpl.
  - apply settled_ret.
  - apply settled_bind; [apply Hf |].
    intros y. apply settled_bind; [exact IH |].
    intros ys. apply settled_ret.
Qed.

Lemma settled_run {A} (m : M A) (cache : Cache) :
  settled db nowMs m ->
  fst (m cache) = fst (m (Some (calibrated db nowMs cache))).
Proof.
  intros Hm. destruct (Hm cache) as [c [Heq _]]. rewrite Heq. reflexivity.
Qed.

Lemma mapM_Some {A B} (f : A -> M B) (l : list A) (offset : Z) :
  (forall x, settled db nowMs (f x)) ->
  fst (mapM f l (Some offset)) = traverse (fun x => fst (f x (Some offset))) l.
Proof.
  intros Hf. induction l as [|x l IH]; simpl.
  - reflexivity.
  - unfold bind at 1.
    pose proof (settled_Some (f x) offset (Hf x)) as Hstay.
    destruct (f x (Some offset)) as [r c] eqn:Hx. simpl in *. subst c.
    destruct r as [y|e]; simpl; [|reflexivity].
    unfold bind.
    pose proof (settled_Some (mapM f l) offset (settled_mapM f l Hf)) as Hstay.
    destruct (mapM f l (Some offset)) as [r c] eqn:Hl. simpl in *. subst c.
    rewrite <- IH. destruct r; reflexivity.
Qed.

Lemma settled_schedule (dateValue : option Z) :
  settled db nowMs (thingsScheduleDateToString db nowMs dateValue).
Proof.
  destruct dateValue as [v|]; simpl.
  - apply settled_bind; [apply settled_calibrate |].
    intros offset. apply settled_bind; [apply settled_lift |].
    intros iso. apply settled_ret.
  - apply settled_ret.
Qed.

Lemma settled_rowToTodo (row : RawTaskRow.t) :
  settled db nowMs (rowToTodo db nowMs row).
Proof.
  unfold rowToTodo.
  apply settled_bind; [apply settled_schedule | intros next].
  apply settled_bind.
  { destruct (negb (isNull (RawTaskRow.startDate row)));
      [apply settled_schedule |].
    destruct (notNull (RawTaskRow.rt1_recurrenceRule row)); apply settled_ret. }
  intros start.
  apply settled_bind; [apply settled_schedule | intros deadline].
  repeat (apply settled_bind; [apply settled_lift | intros ?]).
  apply settled_ret.
Qed.

(** Running [rows.map(rowToTodo)] from any cache decodes every row under
    the offset in force. *)
Lemma mapM_rowToTodo_run (rows : list RawTaskRow.t) (cache : Cache) :
  fst (mapM (rowToTodo db nowMs) rows cache)
  = traverse (decoded db nowMs (calibrated db nowMs cache)) rows.
Proof.
  rewrite (settled_run _ cache (settled_mapM _ rows settled_rowToTodo)).
  apply mapM_Some. apply settled_rowToTodo.
Qed.

End CacheFacts.

(** ** The platform functions on known values *)

Example toISOString_fallback_epoch :
  JsDate.toISOString (JsDate.newDate (1637712000 * 1000))
  = Ok "2021-11-24T00:00:00.000Z".
Proof. reflexivity. Qed.

Example toISOString_before_epoch :
  JsDate.toISOString (JsDate.newDate (-1)) = Ok "1969-12-31T23:59:59.999Z".
Proof. reflexivity. Qed.

Example toISOString_leap_day :
  JsDate.toISOString (JsDate.newDate 1709164800000) = Ok "2024-02-29T00:00:00.000Z".
Proof. reflexivity. Qed.

Example toISOString_last_valid :
  JsDate.toISOString (JsDate.newDate 8640000000000000)
  = Ok "+275760-09-13T00:00:00.000Z"
  /\ JsDate.toISOString (JsDate.newDate 8640000000000001) = Throw RangeError.
Proof. split; reflexivity. Qed.

Example decode_replaces_malformed :
  JsText.decode [239; 187; 191; 60; 226; 128; 128; 195; 40]%N
  = [60; 8192; 65533; 40]%N.
Proof. reflexivity. Qed.

Example parseRecurrenceRule_weekly :
  parseRecurrenceRule Sample.weeklyRule = Some "weekly".
Proof. reflexivity. Qed.

Example parseRecurrenceRule_other_code :
  parseRecurrenceRule
    (RString (JsText.codes "<key>fu</key><integer>007</integer>"))
  = Some "every-7".
Proof. reflexivity. Qed.

Example like_is_case_blind : Sql.like "%TAX%" "file taxes" = true.
Proof. reflexivity. Qed.

Example like_underscore_is_one_character :
  Sql.like "a_c" "abc" = true /\ Sql.like "a_c" "ac" = false.
Proof. split; reflexivity. Qed.

(** ** Scheduling bucket *)

(** C1. For every triple of raw inputs (explicit start flag, bucket code,
    start-date value) [startToString] returns the bucket that the
    precedence table selects, the first matching row deciding: start flag
    2 (explicit someday), Someday; start flag 1 (scheduled) with a start
    date, Anytime; bucket code 1 (someday), Someday; start flag 0 (inbox)
    without a start date, Inbox; otherwise Anytime. Each row is stated
    with the rows before it excluded. *)
Theorem startToString_precedence (start startBucket startDate : option Z) :
  let bucket := startToString start startBucket startDate in
  bucket = Some (schedulingBucket start startBucket startDate)
  /\ (start = Some 2 -> bucket = Some Someday)
  /\ (start = Some 1 -> startDate <> None -> bucket = Some Anytime)
  /\ (start <> Some 2 -> ~ (start = Some 1 /\ startDate <> None) ->
      startBucket = Some 1 -> bucket = Some Someday)
  /\ (startBucket <> Some 1 -> start = Some 0 -> startDate = None ->
      bucket = Some Inbox)
  /\ (start <> Some 2 -> ~ (start = Some 1 /\ startDate <> None) ->
      startBucket <> Some 1 -> ~ (start = Some 0 /\ startDate = None) ->
      bucket = Some Anytime).
Proof.
  intros bucket. unfold bucket, startToString, schedulingBucket, strictEq, isNull,
    START_BUCKET.SOMEDAY.
  destruct start as [[|[q|[q|q|]|]|q]|];
    destruct startBucket as [[|[q'|q'|]|q']|];
    destruct startDate as [d|];
    simpl; repeat split; intros; try reflexivity; exfalso; intuition congruence.
Qed.

(** ** Epoch calibration *)

Lemma sortInsert_map {A K} (le : K -> K -> bool) (key : A -> K) (x : A) (l : list A) :
  map key (sortInsert (fun a b => le (key a) (key b)) x l)
  = sortInsert le (key x) (map key l).
Proof.
  induction l as [|y l IH]; simpl; [reflexivity |].
  destruct (le (key x) (key y)); simpl; [reflexivity |].
  rewrite IH. reflexivity.
Qed.

Lemma stableSort_map {A K} (le : K -> K -> bool) (key : A -> K) (l : list A) :
  map key (stableSort (fun a b => le (key a) (key b)) l)
  = stableSort le (map key l).
Proof.
  induction l as [|x l IH]; simpl; [reflexivity |].
  rewrite sortInsert_map, IH. reflexivity.
Qed.

Lemma intLe_total (x y : option Z) : Sql.intLe x y = true \/ Sql.intLe y x = true.
Proof.
  destruct x as [a|], y as [b|]; simpl; auto.
  destruct (Z.leb_spec a b); [left; reflexivity | right].
  apply Z.leb_le. lia.
Qed.

Lemma intLe_trans (x y z : option Z) :
  Sql.intLe x y = true -> Sql.intLe y z = true -> Sql.intLe x z = true.
Proof.
  destruct x as [a|], y as [b|], z as [c|]; simpl; try congruence.
  rewrite !Z.leb_le. lia.
Qed.

Lemma maximum_spec (d : Z) (l : list Z) :
  In (fold_right Z.max d l) (d :: l)
  /\ Forall (fun x => x <= fold_right Z.max d l) (d :: l).
Proof.
  induction l as [|x l [IHin IHall]]; simpl.
  - split; [left; reflexivity | constructor; [lia | constructor]].
  - split.
    + destruct (Z.max_spec x (fold_right Z.max d l)) as [[_ ->] | [_ ->]].
      * destruct IHin as [<- | Hin]; [left; reflexivity | right; right; exact Hin].
      * right; left; reflexivity.
    + inversion IHall as [|? ? Hd Hl]; subst.
      constructor; [lia |]. constructor; [lia |].
      eapply Forall_impl; [exact Hl |]. simpl. intros. lia.
Qed.

(** The first row of [ORDER BY key DESC] over non-NULL keys holds the
    largest key. *)
Lemma sorted_desc_head (l : list Z) :
  hd_error (stableSort (fun x y => Sql.intLe y x) (map Some l))
  = option_map Some (maximum l).
Proof.
  set (le := fun x y : option Z => Sql.intLe y x).
  assert (Hperm : Permutation (stableSort le (map Some l)) (map Some l))
    by apply stableSort_perm.
  assert (Hsorted : StronglySorted (fun a b => le a b = true) (stableSort le (map Some l))).
  { apply stableSort_strongly_sorted.
    - intros x y. unfold le. destruct (intLe_total x y); auto.
    - intros x y z Hxy Hyz. unfold le in *. eapply intLe_trans; eassumption. }
  destruct l as [|d l].
  - reflexivity.
  - destruct (stableSort le (map Some (d :: l))) as [|h s] eqn:Hs.
    + apply Permutation_nil in Hperm. discriminate.
    + simpl. f_equal.
      destruct (maximum_spec d l) as [Hin Hall]. rewrite List.Forall_forall in Hall.
      assert (Hh : In h (map Some (d :: l)))
        by (eapply Permutation_in; [exact Hperm | left; reflexivity]).
      apply in_map_iff in Hh. destruct Hh as [m [<- Hm]].
      f_equal. apply Z.le_antisymm; [apply Hall; exact Hm |].
      assert (Hmax : In (Some (fold_right Z.max d l)) (Some m :: s)).
      { eapply Permutation_in; [apply Permutation_sym; exact Hperm |].
        apply in_map. exact Hin. }
      destruct Hmax as [Heq | Hmax]; [injection Heq as ->; lia |].
      inversion Hsorted as [|? ? _ Hhd]; subst.
      rewrite List.Forall_forall in Hhd. specialize (Hhd _ Hmax).
      unfold le in Hhd. simpl in Hhd. apply Z.leb_le in Hhd. exact Hhd.
Qed.

Lemma calibrationRow_candidates (db : Database) :
  calibrationRow db = option_map Some (maximum (calibrationCandidates db)).
Proof.
  unfold calibrationRow, Sql.limit, Sql.orderByDesc.
  assert (Hkeys : map TMTaskRow.startDate (List.filter whereCalibration (TMTask db))
                  = map Some (calibrationCandidates db)).
  { unfold calibrationCandidates. induction (TMTask db) as [|t l IH]; [reflexivity |].
    simpl. unfold whereCalibration at 1.
    destruct (TMTaskRow.startDate t) as [d|] eqn:Hd; simpl.
    - rewrite andb_true_r.
      destruct (Sql.eqInt (TMTaskRow.start t) 1 && (TMTaskRow.status t =? 0)
                && (TMTaskRow.trashed t =? 0)); simpl.
      + rewrite Hd, IH. reflexivity.
      + exact IH.
    - rewrite andb_false_r. simpl. exact IH. }
  rewrite <- sorted_desc_head, <- Hkeys.
  rewrite <- (stableSort_map (fun x y => Sql.intLe y x) TMTaskRow.startDate).
  destruct (stableSort _ (List.filter whereCalibration (TMTask db))); reflexivity.
Qed.

(** C5, as the code has it. A call that finds no cached offset returns
    [floor(now/86400)*86400 - floor(rawValue/86400)*86400] for the largest
    start date [rawValue] among the active, non-trashed, incomplete tasks
    with the scheduled flag and a start date, or 1637712000 when there is
    none, and caches it; a call that finds a cached offset returns that
    offset unchanged. Either way the call returns normally. *)
Theorem calibrate_fresh_or_cached (db : Database) (nowMs : Z) :
  calibrateStartDateEpoch db nowMs None
  = (Ok (calibrationOffset db nowMs), Some (calibrationOffset db nowMs))
  /\ forall offset,
       calibrateStartDateEpoch db nowMs (Some offset) = (Ok offset, Some offset).
Proof.
  split; [| reflexivity].
  unfold calibrateStartDateEpoch, calibrationOffset.
  rewrite calibrationRow_candidates.
  destruct (maximum (calibrationCandidates db)) as [m|]; simpl; [| reflexivity].
  unfold todayMidnightUnix, toNumber, orElse.
  rewrite Z.div_div by lia.
  change (1000 * 86400) with 86400000. reflexivity.
Qed.

(** C5 as stated fails on every call after the first. On the sample
    agenda a first call at noon of 2024-03-01 caches 1700611200; a second
    call one day later returns that cached offset, while the formula for
    the clock of the second call gives 1700697600. *)
Lemma calibrate_cached_counterexample :
  let first := calibrateStartDateEpoch Sample.agenda Sample.noon None in
  let later := Sample.noon + 86400000 in
  let second := calibrateStartDateEpoch Sample.agenda later (snd first) in
  fst first = Ok 1700611200
  /\ fst second = Ok 1700611200
  /\ calibrationOffset Sample.agenda later = 1700697600
  /\ fst second <> Ok (calibrationOffset Sample.agenda later).
Proof. repeat split. discriminate. Qed.

(** ** Row decoding *)

Section DecodeFacts.
Variable db : Database.
Variable nowMs : Z.

Lemma schedule_Some (dateValue : option Z) (offset : Z) :
  thingsScheduleDateToString db nowMs dateValue (Some offset)
  = (decodedDateOpt offset dateValue, Some offset).
Proof.
  destruct dateValue as [v|]; simpl; [| reflexivity].
  unfold bind, lift, ret, decodedDate. simpl.
  destruct (JsDate.toISOString _); reflexivity.
Qed.

(** What a successful decoding consists of. *)
Lemma decoded_inv (offset : Z) (row : RawTaskRow.t) (todo : Todo.t) :
  decoded db nowMs offset row = Ok todo ->
  exists next start deadline created modified completed reminder,
    decodedDateOpt offset (RawTaskRow.rt1_nextInstanceStartDate row) = Ok next
    /\ match RawTaskRow.startDate row with
       | Some own => decodedDateOpt offset (Some own)
       | None =>
           if notNull (RawTaskRow.rt1_recurrenceRule row) then Ok next else Ok None
       end = Ok start
    /\ decodedDateOpt offset (RawTaskRow.deadline row) = Ok deadline
    /\ unixToISO (RawTaskRow.creationDate row) = Ok created
    /\ unixToISO (RawTaskRow.userModificationDate row) = Ok modified
    /\ unixToISO (RawTaskRow.stopDate row) = Ok completed
    /\ unixToISO (RawTaskRow.reminderTime row) = Ok reminder
    /\ todo
       = {| Todo.uuid := RawTaskRow.uuid row;
            Todo.title := orElse (RawTaskRow.title row) EmptyString;
            Todo.type := typeToString (RawTaskRow.type row);
            Todo.status := statusToString (RawTaskRow.status row);
            Todo.notes := orElse (RawTaskRow.notes row) EmptyString;
            Todo.start :=
              startToString (RawTaskRow.start row) (RawTaskRow.startBucket row)
                            (RawTaskRow.startDate row);
            Todo.startDate := start;
            Todo.deadline := deadline;
            Todo.createdAt := orElse created EmptyString;
            Todo.modifiedAt := orElse modified EmptyString;
            Todo.completedAt := completed;
            Todo.project := RawTaskRow.project row;
            Todo.projectTitle := RawTaskRow.projectTitle row;
            Todo.area := RawTaskRow.area row;
            Todo.areaTitle := RawTaskRow.areaTitle row;
            Todo.tags := getTagsForTask db (RawTaskRow.uuid row);
            Todo.checklist := getChecklistForTask db (RawTaskRow.uuid row);
            Todo.reminderTime := reminder;
            Todo.repeating := notNull (RawTaskRow.rt1_recurrenceRule row);
            Todo.recurrenceRule :=
              parseRecurrenceRule (RawTaskRow.rt1_recurrenceRule row);
            Todo.nextInstanceDate := next |}.
Proof.
  unfold decoded, rowToTodo, bind. rewrite schedule_Some.
  destruct (decodedDateOpt offset (RawTaskRow.rt1_nextInstanceStartDate row))
    as [next|e]; simpl; [| discriminate].
  remember (match RawTaskRow.startDate row with
            | Some own => decodedDateOpt offset (Some own)
            | None =>
                if notNull (RawTaskRow.rt1_recurrenceRule row)
                then Ok next else Ok None
            end) as start eqn:Hdef.
  assert (Hstart :
            (if negb (isNull (RawTaskRow.startDate row))
             then thingsScheduleDateToString db nowMs (RawTaskRow.startDate row)
             else if notNull (RawTaskRow.rt1_recurrenceRule row)
                  then ret next else ret None) (Some offset)
            = (start, Some offset)).
  { rewrite Hdef. destruct (RawTaskRow.startDate row) as [own|] eqn:Hown;
      cbn [negb isNull].
    - apply schedule_Some.
    - destruct (notNull (RawTaskRow.rt1_recurrenceRule row)); reflexivity. }
  rewrite Hstart. clear Hstart.
  destruct start as [sd|e]; simpl; [| discriminate].
  rewrite schedule_Some.
  destruct (decodedDateOpt offset (RawTaskRow.deadline row)) as [dl|e];
    simpl; [| discriminate].
  unfold lift.
  destruct (unixToISO (RawTaskRow.creationDate row)) as [cr|e]; simpl; [| discriminate].
  destruct (unixToISO (RawTaskRow.userModificationDate row)) as [md|e];
    simpl; [| discriminate].
  destruct (unixToISO (RawTaskRow.stopDate row)) as [cp|e]; simpl; [| discriminate].
  destruct (unixToISO (RawTaskRow.reminderTime row)) as [rm|e]; simpl; [| discriminate].
  intros H. injection H as <-.
  exists next, sd, dl, cr, md, cp, rm. repeat split; try reflexivity.
  symmetry. exact Hdef.
Qed.

Lemma decoded_uuid (offset : Z) (row : RawTaskRow.t) (todo : Todo.t) :
  decoded db nowMs offset row = Ok todo -> Todo.uuid todo = RawTaskRow.uuid row.
Proof.
  intros H. apply decoded_inv in H.
  destruct H as (? & ? & ? & ? & ? & ? & ? & _ & _ & _ & _ & _ & _ & _ & ->).
  reflexivity.
Qed.

(** A run of [rowToTodo] that returns, returns the decoded form under
    the offset in force. *)
Lemma rowToTodo_decoded (row : RawTaskRow.t) (cache cache' : Cache) (todo : Todo.t) :
  rowToTodo db nowMs row cache = (Ok todo, cache') ->
  decoded db nowMs (calibrated db nowMs cache) row = Ok todo.
Proof.
  intros H. unfold decoded.
  rewrite <- (settled_run db nowMs _ cache (settled_rowToTodo db nowMs row)).
  rewrite H. reflexivity.
Qed.

Lemma toISOString_valid (ms : Z) :
  validTime ms -> exists iso, JsDate.toISOString (JsDate.newDate ms) = Ok iso.
Proof.
  unfold validTime, JsDate.newDate. intros H.
  apply Z.leb_le in H. rewrite H. unfold JsDate.toISOString.
  destruct (JsDate.civilFromDays (ms / JsDate.msPerDay)) as [[y m] d].
  eexists. reflexivity.
Qed.

Lemma decodedDateOpt_valid (offset : Z) (raw : option Z) :
  validSchedule offset raw -> exists s, decodedDateOpt offset raw = Ok s.
Proof.
  destruct raw as [v|]; simpl; [| eexists; reflexivity].
  intros H. unfold decodedDate.
  destruct (toISOString_valid _ H) as [iso ->]. simpl. eexists. reflexivity.
Qed.

Lemma unixToISO_valid (raw : option Z) :
  validStamp raw -> exists s, unixToISO raw = Ok s.
Proof.
  destruct raw as [v|]; simpl; [| eexists; reflexivity].
  intros H. destruct (toISOString_valid _ H) as [iso ->]. simpl. eexists. reflexivity.
Qed.

(** A row whose seven time values are within the range of [Date]
    decodes without exception. *)
Lemma decoded_returns (offset : Z) (row : RawTaskRow.t) :
  validSchedule offset (RawTaskRow.rt1_nextInstanceStartDate row) ->
  validSchedule offset (RawTaskRow.startDate row) ->
  validSchedule offset (RawTaskRow.deadline row) ->
  validStamp (RawTaskRow.creationDate row) ->
  validStamp (RawTaskRow.userModificationDate row) ->
  validStamp (RawTaskRow.stopDate row) ->
  validStamp (RawTaskRow.reminderTime row) ->
  exists todo, decoded db nowMs offset row = Ok todo.
Proof.
  intros Hn Hs Hd Hc Hm Hp Hr.
  unfold decoded, rowToTodo, bind. rewrite schedule_Some.
  destruct (decodedDateOpt_valid _ _ Hn) as [next ->]. simpl.
  assert (Hstart :
            exists sd,
              (if negb (isNull (RawTaskRow.startDate row))
               then thingsScheduleDateToString db nowMs (RawTaskRow.startDate row)
               else if notNull (RawTaskRow.rt1_recurrenceRule row)
                    then ret next else ret None) (Some offset)
              = (Ok sd, Some offset)).
  { destruct (RawTaskRow.startDate row) as [own|] eqn:Hown; cbn [negb isNull].
    - rewrite schedule_Some.
      destruct (decodedDateOpt_valid offset (Some own) Hs) as [sd ->].
      eexists. reflexivity.
    - destruct (notNull (RawTaskRow.rt1_recurrenceRule row)); eexists; reflexivity. }
  destruct Hstart as [sd ->]. rewrite schedule_Some.
  destruct (decodedDateOpt_valid _ _ Hd) as [dl ->]. simpl.
  unfold lift.
  destruct (unixToISO_valid _ Hc) as [cr ->].
  destruct (unixToISO_valid _ Hm) as [md ->].
  destruct (unixToISO_valid _ Hp) as [cp ->].
  destruct (unixToISO_valid _ Hr) as [rm ->].
  simpl. eexists. reflexivity.
Qed.

(** Rows with valid time values decode together. *)
Lemma decodedAll_returns (offset : Z) (rows : list RawTaskRow.t) :
  Forall (rowValid offset) rows ->
  exists todos, traverse (decoded db nowMs offset) rows = Ok todos.
Proof.
  intros Hrows. apply traverse_all_Ok.
  eapply List.Forall_impl; [| exact Hrows].
  intros row (Hn & Hs & Hd & Hc & Hm & Hp & Hr).
  apply decoded_returns; assumption.
Qed.

End DecodeFacts.

(** C6. In every decoded row the exposed [startDate] is the row's own
    start date, decoded, when that is present; the decoded next-occurrence
    date (the same conversion under the same offset, and the value of the
    [nextInstanceDate] field) when the own start date is null and the row
    has a recurrence blob; and absent when neither holds. *)
Theorem rowToTodo_effective_startDate (db : Database) (nowMs : Z)
    (row : RawTaskRow.t) (cache cache' : Cache) (todo : Todo.t) :
  rowToTodo db nowMs row cache = (Ok todo, cache') ->
  let offset := calibrated db nowMs cache in
  match RawTaskRow.startDate row with
  | Some own =>
      exists day, decodedDate offset own = Ok day /\ Todo.startDate todo = Some day
  | None =>
      if notNull (RawTaskRow.rt1_recurrenceRule row)
      then Ok (Todo.startDate todo)
           = decodedDateOpt offset (RawTaskRow.rt1_nextInstanceStartDate row)
           /\ Todo.startDate todo = Todo.nextInstanceDate todo
      else Todo.startDate todo = None
  end.
Proof.
  intros H offset. apply rowToTodo_decoded in H. fold offset in H.
  apply decoded_inv in H.
  destruct H as (next & start & dl & cr & md & cp & rm
                 & Hnext & Hstart & _ & _ & _ & _ & _ & ->).
  simpl.
  destruct (RawTaskRow.startDate row) as [own|].
  - simpl in Hstart. destruct (decodedDate offset own) as [day|e]; simpl in Hstart.
    + injection Hstart as <-. exists day. split; reflexivity.
    + discriminate.
  - destruct (notNull (RawTaskRow.rt1_recurrenceRule row)).
    + injection Hstart as <-. split; [symmetry; exact Hnext | reflexivity].
    + injection Hstart as <-. reflexivity.
Qed.

Lemma rowToTodo_effective_startDate_witness :
  exists todo cache',
    rowToTodo Sample.agenda Sample.noon (Sample.row Sample.taskB) None = (Ok todo, cache')
    /\ Ok (Todo.startDate todo) = decodedDateOpt Sample.agendaOffset (Some 8726400)
    /\ Todo.startDate todo = Todo.nextInstanceDate todo.
Proof.
  eexists. eexists. split; [vm_compute; reflexivity |].
  apply (rowToTodo_effective_startDate Sample.agenda Sample.noon
           (Sample.row Sample.taskB) None _ _ eq_refl).
Defined.

(** ** Recurrence rule *)

Section PatternFacts.
Import JsText.
Local Open Scope list_scope.

Lemma stripPrefix_app (lit rest : list N) : stripPrefix lit (lit ++ rest) = Some rest.
Proof.
  induction lit as [|c lit IH]; simpl; [reflexivity |].
  rewrite N.eqb_refl. exact IH.
Qed.

Lemma stripPrefix_Some (lit s rest : list N) :
  stripPrefix lit s = Some rest -> s = lit ++ rest.
Proof.
  revert s. induction lit as [|c lit IH]; intros s; simpl.
  - intros H. injection H as ->. reflexivity.
  - destruct s as [|d s]; [discriminate |].
    destruct (N.eqb_spec c d) as [-> |]; [| discriminate].
    intros H. rewrite (IH _ H). reflexivity.
Qed.

Lemma takeWhile_dropWhile (p : N -> bool) (s : list N) :
  s = takeWhile p s ++ dropWhile p s.
Proof.
  induction s as [|c s IH]; simpl; [reflexivity |].
  destruct (p c); simpl; [f_equal; exact IH | reflexivity].
Qed.

Lemma takeWhile_all (p : N -> bool) (s : list N) :
  Forall (fun c => p c = true) (takeWhile p s).
Proof.
  induction s as [|c s IH]; simpl; [constructor |].
  destruct (p c) eqn:Hc; constructor; assumption.
Qed.

Lemma dropWhile_app (p : N -> bool) (run : list N) (c : N) (rest : list N) :
  Forall (fun c => p c = true) run -> p c = false ->
  dropWhile p (run ++ c :: rest) = c :: rest.
Proof.
  intros Hrun Hc. induction Hrun as [|d run Hd _ IH]; simpl.
  - rewrite Hc. reflexivity.
  - rewrite Hd. exact IH.
Qed.

Lemma takeWhile_app (p : N -> bool) (run : list N) (c : N) (rest : list N) :
  Forall (fun c => p c = true) run -> p c = false ->
  takeWhile p (run ++ c :: rest) = run.
Proof.
  intros Hrun Hc. induction Hrun as [|d run Hd _ IH]; simpl.
  - rewrite Hc. reflexivity.
  - rewrite Hd, IH. reflexivity.
Qed.

Lemma fuMatch_unfold (s : list N) :
  fuMatch s
  = match fuMatchAt s with
    | Some digits => Some digits
    | None => match s with [] => None | _ :: s' => fuMatch s' end
    end.
Proof. destruct s; reflexivity. Qed.

(** A match found by [fuMatch] is an occurrence of the field. *)
Lemma fuMatch_located (xml digits : list N) :
  fuMatch xml = Some digits -> located xml digits.
Proof.
  induction xml as [|c xml IH].
  - simpl. unfold fuMatchAt. simpl. discriminate.
  - assert (Hat : forall s, fuMatchAt s = Some digits ->
                            located s digits).
    { intros s. unfold fuMatchAt.
      destruct (stripPrefix (codes "<key>fu</key>") s) as [s1|] eqn:H1; [| discriminate].
      destruct (stripPrefix (codes "<integer>") (dropWhile isWhiteSpace s1))
        as [s2|] eqn:H2; [| discriminate].
      destruct (takeWhile isDigit s2) as [|d ds] eqn:H3; [discriminate |].
      destruct (stripPrefix (codes "</integer>") (dropWhile isDigit s2))
        as [s3|] eqn:H4; [| discriminate].
      intros H. injection H as <-.
      apply stripPrefix_Some in H1, H2, H4.
      exists [], (takeWhile isWhiteSpace s1), s3.
      split; [| split; [apply takeWhile_all | split; [| discriminate]]].
      - rewrite H1 at 1. simpl. f_equal.
        rewrite (takeWhile_dropWhile isWhiteSpace s1) at 1. f_equal.
        rewrite H2. f_equal.
        rewrite (takeWhile_dropWhile isDigit s2) at 1. rewrite H3, H4. reflexivity.
      - rewrite <- H3. apply takeWhile_all. }
    rewrite fuMatch_unfold.
    destruct (fuMatchAt (c :: xml)) as [ds|] eqn:Hhere.
    + intros H. injection H as ->. apply Hat. exact Hhere.
    + intros H. destruct (IH H) as (before & space & after & -> & Hs & Hd & Hne).
      exists (c :: before), space, after. repeat split; assumption.
Qed.

Lemma fuMatchAt_occurrence (space digits after : list N) :
  Forall (fun c => isWhiteSpace c = true) space ->
  Forall (fun c => isDigit c = true) digits ->
  digits <> [] ->
  fuMatchAt (codes "<key>fu</key>" ++ space ++ codes "<integer>" ++ digits
             ++ codes "</integer>" ++ after) = Some digits.
Proof.
  intros Hs Hd Hne. unfold fuMatchAt.
  rewrite stripPrefix_app.
  change (codes "<integer>") with (60%N :: codes "integer>").
  rewrite <- app_comm_cons.
  rewrite (dropWhile_app isWhiteSpace space 60%N _ Hs eq_refl).
  change (60%N :: codes "integer>" ++ digits ++ codes "</integer>" ++ after)
    with (codes "<integer>" ++ digits ++ codes "</integer>" ++ after).
  rewrite stripPrefix_app.
  change (codes "</integer>") with (60%N :: codes "/integer>").
  rewrite <- app_comm_cons.
  rewrite (takeWhile_app isDigit digits 60%N _ Hd eq_refl).
  rewrite (dropWhile_app isDigit digits 60%N _ Hd eq_refl).
  change (60%N :: codes "/integer>" ++ after) with (codes "</integer>" ++ after).
  rewrite stripPrefix_app.
  destruct digits; [contradiction | reflexivity].
Qed.

(** Where the field occurs, [fuMatch] finds a match. *)
Lemma located_fuMatch (xml digits : list N) :
  located xml digits -> fuMatch xml <> None.
Proof.
  intros (before & space & after & -> & Hs & Hd & Hne).
  induction before as [|c before IH].
  - rewrite app_nil_l, fuMatch_unfold.
    rewrite (fuMatchAt_occurrence _ _ _ Hs Hd Hne). discriminate.
  - rewrite fuMatch_unfold. destruct (fuMatchAt _); [discriminate | exact IH].
Qed.

End PatternFacts.

(** ** UTF-8 *)

Section Utf8Facts.
Import JsText.
Local Open Scope N_scope.
Local Ltac Zify.zify_post_hook ::= Z.to_euclidean_division_equations.

Lemma land_low (b k : N) : N.land b (N.ones k) = b mod 2 ^ k.
Proof. apply N.land_ones. Qed.

Lemma lor_low (a y : N) : y < 64 -> N.lor (N.shiftl a 6) y = a * 64 + y.
Proof.
  intros Hy. rewrite N.shiftl_mul_pow2. change (2 ^ 6) with 64.
  assert (Hdisjoint : N.land (a * 64) y = 0).
  { apply N.bits_inj_0. intros i. rewrite N.land_spec.
    destruct (N.lt_ge_cases i 6) as [Hi | Hi].
    - change 64 with (2 ^ 6). rewrite N.mul_pow2_bits_low by exact Hi. reflexivity.
    - destruct (N.eq_dec y 0) as [-> | Hy0];
        [rewrite N.bits_0; apply andb_false_r |].
      rewrite (N.bits_above_log2 y i); [apply andb_false_r |].
      assert (Hlog : N.log2 y < 6) by (apply N.log2_lt_pow2; [lia | exact Hy]).
      lia. }
  rewrite <- N.lxor_lor by exact Hdisjoint.
  symmetry. apply N.add_nocarry_lxor. exact Hdisjoint.
Qed.

Lemma decode_one (b : N) (rest : list N) :
  b < 128 -> utf8Decode utf8Initial (b :: rest) = b :: utf8Decode utf8Initial rest.
Proof.
  intros Hb. simpl. unfold utf8Lead.
  destruct (N.leb_spec b 127); [reflexivity | lia].
Qed.

Lemma decode_lead2 (b : N) (rest : list N) :
  194 <= b <= 223 ->
  utf8Decode utf8Initial (b :: rest)
  = utf8Decode {| codePoint := b mod 32; bytesNeeded := 1;
                  lowerBoundary := 128; upperBoundary := 191 |} rest.
Proof.
  intros Hb. simpl. unfold utf8Lead.
  destruct (N.leb_spec b 127); [lia |].
  destruct (N.leb_spec 194 b); [| lia].
  destruct (N.leb_spec b 223); [| lia].
  unfold andb. change 31 with (N.ones 5). rewrite land_low. reflexivity.
Qed.

Lemma decode_lead3 (b : N) (rest : list N) :
  224 <= b <= 239 ->
  utf8Decode utf8Initial (b :: rest)
  = utf8Decode {| codePoint := b mod 16; bytesNeeded := 2;
                  lowerBoundary := if b =? 224 then 160 else 128;
                  upperBoundary := if b =? 237 then 159 else 191 |} rest.
Proof.
  intros Hb. simpl. unfold utf8Lead.
  destruct (N.leb_spec b 127); [lia |].
  destruct (N.leb_spec 194 b); [| lia].
  destruct (N.leb_spec b 223); [lia |].
  destruct (N.leb_spec 224 b); [| lia].
  destruct (N.leb_spec b 239); [| lia].
  unfold andb. change 15 with (N.ones 4). rewrite land_low. reflexivity.
Qed.

Lemma decode_lead4 (b : N) (rest : list N) :
  240 <= b <= 244 ->
  utf8Decode utf8Initial (b :: rest)
  = utf8Decode {| codePoint := b mod 8; bytesNeeded := 3;
                  lowerBoundary := if b =? 240 then 144 else 128;
                  upperBoundary := if b =? 244 then 143 else 191 |} rest.
Proof.
  intros Hb. simpl. unfold utf8Lead.
  destruct (N.leb_spec b 127); [lia |].
  destruct (N.leb_spec 194 b); [| lia].
  destruct (N.leb_spec b 223); [lia |].
  destruct (N.leb_spec 224 b); [| lia].
  destruct (N.leb_spec b 239); [lia |].
  destruct (N.leb_spec 240 b); [| lia].
  destruct (N.leb_spec b 244); [| lia].
  unfold andb. change 7 with (N.ones 3). rewrite land_low. reflexivity.
Qed.

Lemma decode_last (cp lo hi b : N) (rest : list N) :
  lo <= b <= hi ->
  utf8Decode {| codePoint := cp; bytesNeeded := 1;
                lowerBoundary := lo; upperBoundary := hi |} (b :: rest)
  = (cp * 64 + b mod 64) :: utf8Decode utf8Initial rest.
Proof.
  intros Hb. simpl.
  destruct (N.leb_spec lo b); [| lia].
  destruct (N.leb_spec b hi); [| lia].
  unfold andb. change 63 with (N.ones 6). rewrite land_low.
  rewrite lor_low by (apply N.mod_lt; discriminate). reflexivity.
Qed.

Lemma decode_more (cp lo hi b : N) (k : nat) (rest : list N) :
  lo <= b <= hi ->
  utf8Decode {| codePoint := cp; bytesNeeded := S (S k);
                lowerBoundary := lo; upperBoundary := hi |} (b :: rest)
  = utf8Decode {| codePoint := cp * 64 + b mod 64; bytesNeeded := S k;
                  lowerBoundary := 128; upperBoundary := 191 |} rest.
Proof.
  intros Hb. simpl.
  destruct (N.leb_spec lo b); [| lia].
  destruct (N.leb_spec b hi); [| lia].
  unfold andb. change 63 with (N.ones 6). rewrite land_low.
  rewrite lor_low by (apply N.mod_lt; discriminate). reflexivity.
Qed.

(** The decoder reads the UTF-8 form of a code point back as that code
    point. *)
Lemma decode_utf8Bytes (c : N) (rest : list N) :
  scalar c = true ->
  utf8Decode utf8Initial (utf8Bytes c ++ rest) = c :: utf8Decode utf8Initial rest.
Proof.
  unfold scalar, utf8Bytes. intros Hc.
  assert (Hrange : c < 55296 \/ 57344 <= c < 1114112).
  { apply orb_true_iff in Hc. destruct Hc as [Hc | Hc].
    - left. apply N.ltb_lt. exact Hc.
    - right. apply andb_true_iff in Hc. destruct Hc as [H1 H2].
      apply N.leb_le in H1. apply N.ltb_lt in H2. lia. }
  clear Hc.
  destruct (N.ltb_spec c 128) as [H1 | H1]; [apply decode_one; exact H1 |].
  destruct (N.ltb_spec c 2048) as [H2 | H2].
  { simpl app. rewrite decode_lead2 by lia. rewrite decode_last by lia.
    f_equal. lia. }
  destruct (N.ltb_spec c 65536) as [H3 | H3].
  { simpl app. rewrite decode_lead3 by lia.
    rewrite decode_more
      by (destruct (N.eqb_spec (224 + c / 4096) 224);
          destruct (N.eqb_spec (224 + c / 4096) 237); lia).
    rewrite decode_last by lia. f_equal. lia. }
  simpl app. rewrite decode_lead4 by lia.
  rewrite decode_more
    by (destruct (N.eqb_spec (240 + c / 262144) 240);
        destruct (N.eqb_spec (240 + c / 262144) 244); lia).
  rewrite decode_more by lia. rewrite decode_last by lia. f_equal. lia.
Qed.

Lemma utf8Decode_utf8 (text : list N) :
  forallb scalar text = true -> utf8Decode utf8Initial (utf8 text) = text.
Proof.
  induction text as [|c text IH]; [reflexivity |].
  intros H. simpl in H. apply andb_true_iff in H. destruct H as [Hc Htext].
  unfold utf8. simpl flat_map. rewrite decode_utf8Bytes by exact Hc.
  f_equal. apply IH. exact Htext.
Qed.

(** Decoding gives back any text from its UTF-8 form; a byte order mark
    at the head of a text is not given back. *)
Lemma decode_utf8 (text : list N) :
  forallb scalar text = true -> hd_error text <> Some 65279 ->
  decode (utf8 text) = text.
Proof.
  intros Hscalar Hhead. unfold decode. rewrite (utf8Decode_utf8 text Hscalar).
  destruct text as [|c text]; [reflexivity |].
  assert (Hc : c <> 65279) by (intros ->; apply Hhead; reflexivity).
  clear Hhead Hscalar.
  destruct c as [|p]; [reflexivity |].
  repeat (destruct p as [p|p|]; try reflexivity;
          try (exfalso; apply Hc; reflexivity)).
Qed.

End Utf8Facts.

(** ** Numbers *)

Section NumberFacts.
Import JsNumber.
Local Open Scope N_scope.

Lemma digits_injective (d d' : Decimal.uint) :
  NilEmpty.string_of_uint d = NilEmpty.string_of_uint d' -> d = d'.
Proof.
  revert d'. induction d; intros d'; destruct d'; simpl; intros H;
    try discriminate; try reflexivity; injection H as H; f_equal; apply IHd; exact H.
Qed.

Lemma numeral_digits (n : N) : numeral n = NilEmpty.string_of_uint (N.to_uint n).
Proof.
  unfold numeral. destruct n as [|p]; [reflexivity |]. simpl.
  pose proof (DecimalPos.Unsigned.to_uint_nonnil p) as Hp.
  destruct (Pos.to_uint p); [contradiction | reflexivity ..].
Qed.

Lemma numeral_inj (a b : N) : numeral a = numeral b -> a = b.
Proof.
  rewrite !numeral_digits. intros H.
  apply DecimalN.Unsigned.to_uint_inj, digits_injective. exact H.
Qed.

Lemma numeral_allDigits (n : N) : allDigits (numeral n) = true.
Proof.
  rewrite numeral_digits. induction (N.to_uint n); simpl; auto.
Qed.

Lemma ofN_small (n : N) : n < 2 ^ 53 -> ofN n = Finite n.
Proof.
  intros Hn. unfold ofN.
  destruct (N.leb_spec (N.size n) 53) as [_ | Hsize]; [reflexivity |].
  exfalso. pose proof (N.size_le n) as Hle.
  assert (Hpow : 2 ^ 54 <= 2 ^ N.size n) by (apply N.pow_le_mono_r; lia).
  change (2 ^ 54) with (2 * 2 ^ 53) in Hpow.
  rewrite N.succ_double_spec in Hle. lia.
Qed.

Lemma ofN_large (n : N) :
  53 < N.size n ->
  ofN n = Infinity \/ exists v, ofN n = Finite v /\ 2 ^ 53 <= v.
Proof.
  intros Hsize. unfold ofN.
  destruct (N.leb_spec (N.size n) 53) as [Hle | _]; [lia |].
  cbv zeta. set (shift := N.size n - 53). set (q := N.shiftr n shift).
  match goal with
  | |- context [if ?tie then q + 1 else q] => set (q' := if tie then q + 1 else q)
  end.
  assert (Hq' : q <= q') by (unfold q'; destruct (_ || _); lia).
  clearbody q'.
  destruct (1024 <? N.size (N.shiftl q' shift)); [left; reflexivity |].
  right. eexists. split; [reflexivity |].
  rewrite N.shiftl_mul_pow2.
  assert (Hq : 2 ^ 52 <= q).
  { unfold q. rewrite N.shiftr_div_pow2.
    apply N.div_le_lower_bound; [apply N.pow_nonzero; discriminate |].
    rewrite N.mul_comm, <- N.pow_add_r.
    replace (52 + shift) with (N.pred (N.size n)) by (unfold shift; lia).
    pose proof (N.size_le n) as Hle. rewrite N.succ_double_spec in Hle.
    replace (N.size n) with (N.succ (N.pred (N.size n))) in Hle at 1 by lia.
    rewrite N.pow_succ_r' in Hle. lia. }
  assert (Hshift : 2 ^ 1 <= 2 ^ shift)
    by (apply N.pow_le_mono_r; [discriminate | unfold shift; lia]).
  change (2 ^ 53) with (2 ^ 52 * 2 ^ 1).
  apply N.mul_le_mono; lia.
Qed.

Lemma ofN_exact (n c : N) : c < 2 ^ 53 -> ofN n = Finite c -> n = c.
Proof.
  intros Hc Hn. destruct (N.le_gt_cases (N.size n) 53) as [Hsize | Hsize].
  - unfold ofN in Hn. apply N.leb_le in Hsize. rewrite Hsize in Hn.
    injection Hn as ->. reflexivity.
  - destruct (ofN_large n Hsize) as [Hinf | (v & Hv & Hbig)]; rewrite Hn in *.
    + discriminate.
    + injection Hv as <-. lia.
Qed.

Lemma nearest_In (v k : N) (cs : list (N * N)) (best : option (N * N)) (c : N * N) :
  fold_left
    (fun best c =>
       match best with
       | None => Some c
       | Some b =>
           if (distance v k c <? distance v k b)
              || ((distance v k c =? distance v k b) && N.even (fst c))
           then Some c else Some b
       end)
    cs best = Some c ->
  best = Some c \/ In c cs.
Proof.
  revert best. induction cs as [|x cs IH]; simpl; intros best H; [left; exact H |].
  apply IH in H. destruct H as [H | H]; [| right; right; exact H].
  destruct best as [b|].
  - destruct (_ || _); injection H as <-; [right; left; reflexivity | left; reflexivity].
  - injection H as <-. right. left. reflexivity.
Qed.

Lemma candidates_sound (v k s n : N) :
  In (s, n) (candidates v k) -> ofN (s * 10 ^ (n - k)) = Finite v.
Proof.
  unfold candidates. intros H. apply in_flat_map in H.
  destruct H as (n' & _ & H). apply filter_In in H. destruct H as [Hin H].
  assert (Hn : n = n') by (destruct Hin as [Heq | [Heq | []]]; congruence).
  subst n'. simpl in H. apply andb_true_iff in H. destruct H as [_ H].
  destruct (ofN (s * 10 ^ (n - k))) as [w|]; [| discriminate].
  apply N.eqb_eq in H. congruence.
Qed.

Lemma shortest_sound (v k : N) (fuel : nat) (s n k' : N) :
  shortest v k fuel = Some (s, n, k') -> ofN (s * 10 ^ (n - k')) = Finite v.
Proof.
  revert k. induction fuel as [|fuel IH]; intros k; simpl; [discriminate |].
  destruct (nearest v k (candidates v k)) as [[s0 n0]|] eqn:Hnear.
  - intros H. injection H as <- <- <-.
    apply nearest_In in Hnear. destruct Hnear as [Hnone | Hin]; [discriminate |].
    apply candidates_sound. exact Hin.
  - apply IH.
Qed.

(** A Number that prints as the numeral of a small number is that
    number. *)
Lemma toString_numeral (x : Number) (c : N) :
  c < 2 ^ 53 -> toString x = numeral c -> x = Finite c.
Proof.
  intros Hc Hx.
  assert (Hdigits : allDigits (toString x) = true)
    by (rewrite Hx; apply numeral_allDigits).
  destruct x as [v|]; [| discriminate Hdigits].
  unfold toString in Hx, Hdigits.
  destruct (N.ltb_spec v (2 ^ 53)) as [Hv | Hv].
  - apply numeral_inj in Hx. congruence.
  - exfalso. destruct (shortest v 1 17) as [[[s n] k]|] eqn:Hshort.
    + destruct (n <=? 21).
      * apply numeral_inj in Hx. apply shortest_sound in Hshort.
        rewrite Hx, (ofN_small c Hc) in Hshort. injection Hshort as <-. lia.
      * clear Hx. cbv zeta in Hdigits.
        change (String.append "e+" ?rest) with (String "e" (String "+" rest)) in Hdigits.
        destruct (numeral s) as [|d [|d' rest]]; simpl in Hdigits.
        -- discriminate.
        -- rewrite andb_false_r in Hdigits. discriminate.
        -- rewrite andb_false_r in Hdigits. discriminate.
    + apply numeral_inj in Hx. lia.
Qed.

Lemma parseInt_value (digits : list N) (acc : N) :
  fold_left (fun acc c => 10 * acc + (c - 48)) digits acc
  = acc * 10 ^ N.of_nat (length digits) + decimalValue digits.
Proof.
  revert acc. induction digits as [|d digits IH]; intros acc; simpl fold_left.
  - simpl. lia.
  - rewrite IH. cbn [length decimalValue].
    rewrite Nat2N.inj_succ, N.pow_succ_r'. lia.
Qed.

Lemma parseInt_decimalValue (digits : list N) :
  JsText.parseInt digits = ofN (decimalValue digits).
Proof. unfold JsText.parseInt. rewrite parseInt_value. reflexivity. Qed.

Lemma frequency_lookup (n : N) :
  orElse (FREQUENCY_UNIT_MAP !! toString (ofN n))
         (String.append "every-" (toString (ofN n)))
  = frequencyLabel n.
Proof.
  unfold frequencyLabel.
  destruct (N.eqb_spec n 4) as [-> | H4]; [vm_compute; reflexivity |].
  destruct (N.eqb_spec n 256) as [-> | H256]; [vm_compute; reflexivity |].
  destruct (N.eqb_spec n 16) as [-> | H16]; [vm_compute; reflexivity |].
  destruct (N.eqb_spec n 2048) as [-> | H2048]; [vm_compute; reflexivity |].
  assert (Hkey : forall c, c < 2 ^ 53 -> n <> c -> toString (ofN n) <> numeral c).
  { intros c Hc Hne Heq. apply Hne.
    apply (ofN_exact n c Hc), (toString_numeral _ c Hc), Heq. }
  unfold FREQUENCY_UNIT_MAP.
  rewrite lookup_insert_ne by (apply not_eq_sym, (Hkey 4); [reflexivity | exact H4]).
  rewrite lookup_insert_ne by (apply not_eq_sym, (Hkey 256); [reflexivity | exact H256]).
  rewrite lookup_insert_ne by (apply not_eq_sym, (Hkey 16); [reflexivity | exact H16]).
  rewrite lookup_singleton_ne
    by (apply not_eq_sym, (Hkey 2048); [reflexivity | exact H2048]).
  simpl orElse. f_equal.
  destruct (N.leb_spec n (2 ^ 53)) as [Hle | _]; [| reflexivity].
  destruct (N.eq_dec n (2 ^ 53)) as [-> | Hne]; [vm_compute; reflexivity |].
  assert (Hlt : n < 2 ^ 53) by lia.
  rewrite (ofN_small n Hlt). unfold toString.
  apply N.ltb_lt in Hlt. rewrite Hlt. reflexivity.
Qed.

End NumberFacts.

(** C7, as the code has it. Decoding the recurrence blob is total. The
    text searched is the text itself for a TEXT value and the UTF-8
    decoding of the bytes for a blob, which gives back any text from its
    UTF-8 form; a NULL or a number has none. When [parseRecurrenceRule]
    returns a label, the frequency-unit field occurs in that text and the
    label is the one of the number [n] its digits denote: daily, weekly,
    monthly and yearly for 4, 256, 16 and 2048, and for any other [n] up
    to 2^53 the text [every-] followed by the decimal numeral of [n];
    beyond 2^53 the numeral is that of the Number nearest to [n], as it
    prints. It returns absent exactly when there is no text or the field
    occurs nowhere in it. The blob plays no part in whether a row
    decodes, and a decoded row is marked repeating exactly when its blob
    is present. *)
Theorem parseRecurrenceRule_labels (db : Database) (nowMs : Z)
    (row : RawTaskRow.t) (cache : Cache) :
  let raw := RawTaskRow.rt1_recurrenceRule row in
  match raw with
  | RNull | RNumber _ => parseRecurrenceRule raw = None
  | RString text => labelled text (parseRecurrenceRule raw)
  | RBytes bytes =>
      labelled (JsText.decode (map Byte.to_N bytes)) (parseRecurrenceRule raw)
  | RObject values =>
      labelled (JsText.decode (map (fun v => Z.to_N (v mod 256)) values))
        (parseRecurrenceRule raw)
  end
  /\ (forall text,
        forallb scalar text = true -> hd_error text <> Some 65279%N ->
        JsText.decode (utf8 text) = text)
  /\ (forall n,
        (n <= 2 ^ 53)%N ->
        frequencyLabel n
        = if (n =? 4)%N then "daily"
          else if (n =? 256)%N then "weekly"
          else if (n =? 16)%N then "monthly"
          else if (n =? 2048)%N then "yearly"
          else String.append "every-" (JsNumber.numeral n))
  /\ (forall offset,
        validSchedule offset (RawTaskRow.rt1_nextInstanceStartDate row) ->
        validSchedule offset (RawTaskRow.startDate row) ->
        validSchedule offset (RawTaskRow.deadline row) ->
        validStamp (RawTaskRow.creationDate row) ->
        validStamp (RawTaskRow.userModificationDate row) ->
        validStamp (RawTaskRow.stopDate row) ->
        validStamp (RawTaskRow.reminderTime row) ->
        exists todo, decoded db nowMs offset row = Ok todo)
  /\ (forall todo cache',
        rowToTodo db nowMs row cache = (Ok todo, cache') ->
        Todo.recurrenceRule todo = parseRecurrenceRule raw
        /\ (Todo.repeating todo = true <-> raw <> RNull)).
Proof.
  intros raw.
  assert (Htext : forall text,
             xmlString raw = Some text -> labelled text (parseRecurrenceRule raw)).
  { intros text Hxml. unfold parseRecurrenceRule. rewrite Hxml.
    destruct (JsText.fuMatch text) as [digits|] eqn:Hfu; simpl.
    - exists digits. split; [apply fuMatch_located; exact Hfu |].
      rewrite parseInt_decimalValue. apply frequency_lookup.
    - intros digits Hloc. apply located_fuMatch in Hloc. contradiction. }
  split; [| split; [| split; [| split]]].
  - destruct raw; try reflexivity; apply Htext; reflexivity.
  - apply decode_utf8.
  - intros n Hn. unfold frequencyLabel. apply N.leb_le in Hn. rewrite Hn.
    reflexivity.
  - intros offset. apply decoded_returns.
  - intros todo cache' H. apply rowToTodo_decoded, decoded_inv in H.
    destruct H as (? & ? & ? & ? & ? & ? & ? & _ & _ & _ & _ & _ & _ & _ & ->).
    simpl. split; [reflexivity |].
    fold raw. destruct raw; simpl; split; congruence.
Qed.

(** C7 as stated fails beyond 2^53. For the digits 9007199254740993 the
    label is [every-9007199254740992]: the number is held as the nearest
    Number, and that is what is printed. *)
Lemma parseRecurrenceRule_counterexample :
  let digits := JsText.codes "9007199254740993" in
  let blob :=
    RString (JsText.codes "<key>fu</key><integer>" ++ digits
             ++ JsText.codes "</integer>")%list in
  decimalValue digits = 9007199254740993%N
  /\ parseRecurrenceRule blob = Some "every-9007199254740992"
  /\ parseRecurrenceRule blob
     <> Some (String.append "every-" (JsNumber.numeral (decimalValue digits))).
Proof. vm_compute. repeat split. discriminate. Qed.

(** ** Queries *)

Section QueryFacts.
Variable db : Database.
Variable nowMs : Z.

Lemma taskQuery_In (where_ : TMTaskRow.t -> bool)
    (tail : list Joined -> list Joined) (row : RawTaskRow.t) :
  (forall l, Permutation (tail l) l) ->
  In row (taskQuery db where_ tail)
  <-> baseRow db (fun t => where_ t = true) row.
Proof.
  intros Htail. unfold taskQuery, baseRow. rewrite in_map_iff. split.
  - intros [j [<- Hj]].
    apply (Permutation_in _ (Htail _)) in Hj.
    apply filter_In in Hj. destruct Hj as [Hj Hw].
    exists j. repeat split; assumption.
  - intros [j [Hj [Hw ->]]]. exists j. split; [reflexivity |].
    apply (Permutation_in _ (Permutation_sym (Htail _))).
    apply filter_In. split; assumption.
Qed.

Lemma taskQuery_sub (where_ : TMTaskRow.t -> bool)
    (tail : list Joined -> list Joined) (row : RawTaskRow.t) :
  (forall l x, In x (tail l) -> In x l) ->
  In row (taskQuery db where_ tail) ->
  baseRow db (fun t => where_ t = true) row.
Proof.
  intros Htail. unfold taskQuery, baseRow. rewrite in_map_iff.
  intros [j [<- Hj]]. apply Htail, filter_In in Hj. destruct Hj as [Hj Hw].
  exists j. repeat split; assumption.
Qed.

Lemma orderByAsc_perm {A K} (le : K -> K -> bool) (key : A -> K) (l : list A) :
  Permutation (Sql.orderByAsc le key l) l.
Proof. apply stableSort_perm. Qed.

Lemma orderByDesc_perm {A K} (le : K -> K -> bool) (key : A -> K) (l : list A) :
  Permutation (Sql.orderByDesc le key l) l.
Proof. apply stableSort_perm. Qed.

Lemma baseRow_impl (P Q : TMTaskRow.t -> Prop) (row : RawTaskRow.t) :
  (forall t, P t -> Q t) -> baseRow db P row -> baseRow db Q row.
Proof.
  intros HPQ [j [Hj [HP ->]]]. exists j. repeat split; auto.
Qed.

Lemma eqInt_true (column : option Z) (value : Z) :
  Sql.eqInt column value = true <-> column = Some value.
Proof.
  destruct column as [z|]; simpl.
  - rewrite Z.eqb_eq. split; congruence.
  - split; discriminate.
Qed.

Lemma isNotNull_true {A} (column : option A) :
  Sql.isNotNull column = true <-> column <> None.
Proof. destruct column; simpl; split; congruence. Qed.

Lemma notNull_true (raw : Raw) : notNull raw = true <-> raw <> RNull.
Proof. destruct raw; simpl; split; congruence. Qed.

Lemma whereToday_spec (t : TMTaskRow.t) :
  whereToday t = true <-> incompleteTodo t /\ scheduled t.
Proof.
  unfold whereToday, scheduled, incompleteTodo.
  rewrite !andb_true_iff, !Z.eqb_eq, eqInt_true, isNotNull_true. tauto.
Qed.

Lemma whereRecurringToday_spec (lo hi : Z) (t : TMTaskRow.t) :
  whereRecurringToday lo hi t = true
  <-> incompleteTodo t /\ activeTemplate t /\ nextWithin lo hi t.
Proof.
  unfold whereRecurringToday, activeTemplate, nextWithin, incompleteTodo.
  rewrite !andb_true_iff, !Z.eqb_eq, eqInt_true, notNull_true.
  destruct (TMTaskRow.rt1_nextInstanceStartDate t) as [next|].
  - rewrite andb_true_iff, Z.leb_le, Z.ltb_lt. split.
    + intros [[[[[H0 H1] H2] H3] H4] H5]. repeat split; try assumption.
      exists next. split; [reflexivity | lia].
    + intros [[H0 [H1 H2]] [[H3 H4] [n [Hn H5]]]]. injection Hn as <-.
      repeat split; try assumption; lia.
  - split; [intros [_ H]; discriminate |].
    intros [_ [_ [n [Hn _]]]]. discriminate.
Qed.

Lemma whereUpcoming_spec (t : TMTaskRow.t) :
  whereUpcoming t = true
  <-> incompleteTodo t /\ scheduled t /\ TMTaskRow.startBucket t = Some 0.
Proof.
  unfold whereUpcoming, scheduled, incompleteTodo.
  rewrite !andb_true_iff, !Z.eqb_eq, !eqInt_true, isNotNull_true. tauto.
Qed.

Lemma whereRecurringUpcoming_spec (today : Z) (t : TMTaskRow.t) :
  whereRecurringUpcoming today t = true
  <-> incompleteTodo t /\ activeTemplate t /\ nextAfter today t.
Proof.
  unfold whereRecurringUpcoming, activeTemplate, nextAfter, incompleteTodo.
  rewrite !andb_true_iff, !Z.eqb_eq, eqInt_true, notNull_true.
  destruct (TMTaskRow.rt1_nextInstanceStartDate t) as [next|]; simpl.
  - rewrite Z.ltb_lt. split.
    + intros [[[[[[H0 H1] H2] H3] H4] _] H5]. repeat split; try assumption.
      exists next. split; [reflexivity | lia].
    + intros [[H0 [H1 H2]] [[H3 H4] [n [Hn H5]]]]. injection Hn as <-.
      repeat split; try assumption.
  - split; [intros [_ H]; discriminate |].
    intros [_ [_ [n [Hn _]]]]. discriminate.
Qed.

Lemma todayRows_spec (row : RawTaskRow.t) :
  In row (todayRows db) <-> baseRow db (fun t => incompleteTodo t /\ scheduled t) row.
Proof.
  unfold todayRows. rewrite taskQuery_In by (intros; apply orderByAsc_perm).
  split; apply baseRow_impl; intros t; apply whereToday_spec.
Qed.

Lemma recurringTodayRows_spec (lo hi : Z) (row : RawTaskRow.t) :
  In row (recurringTodayRows db lo hi)
  <-> baseRow db (fun t => incompleteTodo t /\ activeTemplate t /\ nextWithin lo hi t) row.
Proof.
  unfold recurringTodayRows. rewrite taskQuery_In by (intros; apply orderByAsc_perm).
  split; apply baseRow_impl; intros t; apply whereRecurringToday_spec.
Qed.

Lemma regularRows_spec (row : RawTaskRow.t) :
  In row (regularRows db)
  <-> baseRow db (fun t => incompleteTodo t /\ scheduled t
                           /\ TMTaskRow.startBucket t = Some 0) row.
Proof.
  unfold regularRows. rewrite taskQuery_In by (intros; apply orderByAsc_perm).
  split; apply baseRow_impl; intros t; apply whereUpcoming_spec.
Qed.

Lemma recurringRows_spec (today : Z) (row : RawTaskRow.t) :
  In row (recurringRows db today)
  <-> baseRow db (fun t => incompleteTodo t /\ activeTemplate t /\ nextAfter today t) row.
Proof.
  unfold recurringRows. rewrite taskQuery_In by (intros; apply orderByAsc_perm).
  split; apply baseRow_impl; intros t; apply whereRecurringUpcoming_spec.
Qed.


Lemma upcoming_run (cache : Cache) :
  fst (getTodosByList db nowMs "upcoming" cache)
  = traverse (decoded db nowMs (calibrated db nowMs cache))
      (allRows db nowMs (calibrated db nowMs cache)).
Proof.
  unfold getTodosByList. cbn [String.eqb Ascii.eqb Bool.eqb].
  unfold bind. rewrite calibrate_run.
  rewrite mapM_rowToTodo_run. reflexivity.
Qed.

Lemma logbook_run (cache : Cache) :
  fst (getTodosByList db nowMs "logbook" cache)
  = traverse (decoded db nowMs (calibrated db nowMs cache)) (logbookRows db).
Proof.
  unfold getTodosByList. cbn [String.eqb Ascii.eqb Bool.eqb].
  apply mapM_rowToTodo_run.
Qed.

Lemma search_run (query : string) (cache : Cache) :
  fst (searchTodos db nowMs query cache)
  = traverse (decoded db nowMs (calibrated db nowMs cache))
      (searchRows db (String.append "%" (String.append query "%"))).
Proof. unfold searchTodos. apply mapM_rowToTodo_run. Qed.

End QueryFacts.

(** ** The today view *)

Lemma filter_nil_iff {A} (p : A -> bool) (l : list A) :
  List.filter p l = [] <-> forall x, In x l -> p x = false.
Proof.
  induction l as [|y l IH]; simpl.
  - split; [intros _ x [] | reflexivity].
  - destruct (p y) eqn:Hy.
    + split; [discriminate |]. intros H. specialize (H y (or_introl eq_refl)). congruence.
    + rewrite IH. split.
      * intros H x [<- | Hx]; [exact Hy | apply H; exact Hx].
      * intros H x Hx. apply H. right. exact Hx.
Qed.

Lemma hasUuid_true (uuid : string) (row : RawTaskRow.t) :
  hasUuid uuid row = true <-> RawTaskRow.uuid row = uuid.
Proof. apply String.eqb_eq. Qed.

Lemma seen_In (uuid : string) (rows : list RawTaskRow.t) :
  bool_decide (uuid ∈ (list_to_set (map RawTaskRow.uuid rows) : gset string)) = true
  <-> In uuid (map RawTaskRow.uuid rows).
Proof.
  rewrite bool_decide_eq_true, elem_of_list_to_set. apply list_elem_of_In.
Qed.

Section TodayFacts.
Variable db : Database.
Variable nowMs : Z.

Lemma combined_In (offset : Z) (row : RawTaskRow.t) :
  In row (combined db nowMs offset)
  <-> In row (todayRows db)
      \/ (In row (recurringTodayRows db (todayThingsValue nowMs offset - 86400)
                    (todayThingsValue nowMs offset + 86400))
          /\ ~ In (RawTaskRow.uuid row) (map RawTaskRow.uuid (todayRows db))).
Proof.
  unfold combined. rewrite in_app_iff, filter_In, negb_true_iff.
  rewrite <- seen_In, not_true_iff_false. reflexivity.
Qed.


End TodayFacts.



(** ** The upcoming view *)

Section MergeFacts.

Lemma seen_add (uuid other : string) (seenUuids : gset string) :
  bool_decide (uuid ∈ {[other]} ∪ seenUuids)
  = String.eqb other uuid || bool_decide (uuid ∈ seenUuids).
Proof.
  destruct (String.eqb_spec other uuid) as [-> | Hne]; simpl.
  - apply bool_decide_eq_true_2, elem_of_union_l, elem_of_singleton. reflexivity.
  - apply bool_decide_ext. rewrite elem_of_union, elem_of_singleton.
    split; [intros [Heq | Hin]; [congruence | exact Hin] | auto].
Qed.

(** The merge loop keeps, for each identifier not seen before, the first
    row that carries it. *)
Lemma mergeByUuid_filter (uuid : string) (rows : list RawTaskRow.t)
    (seenUuids : gset string) (acc : list RawTaskRow.t) :
  List.filter (hasUuid uuid) (mergeByUuid rows seenUuids acc)
  = (List.filter (hasUuid uuid) acc
     ++ (if bool_decide (uuid ∈ seenUuids) then []
         else firstn 1 (List.filter (hasUuid uuid) rows)))%list.
Proof.
  revert seenUuids acc. induction rows as [|row rows IH]; intros seenUuids acc; simpl.
  - destruct (bool_decide (uuid ∈ seenUuids)); rewrite app_nil_r; reflexivity.
  - destruct (bool_decide (RawTaskRow.uuid row ∈ seenUuids)) eqn:Hrow.
    + rewrite IH. f_equal.
      destruct (bool_decide (uuid ∈ seenUuids)) eqn:Hu; [reflexivity |].
      destruct (hasUuid uuid row) eqn:Hhas; [| reflexivity].
      apply hasUuid_true in Hhas. subst uuid. congruence.
    + rewrite IH, List.filter_app, <- app_assoc, seen_add. f_equal. simpl.
      fold (hasUuid uuid row).
      destruct (hasUuid uuid row) eqn:Hhas; simpl; [| reflexivity].
      apply hasUuid_true in Hhas. subst uuid. rewrite Hrow. reflexivity.
Qed.

Lemma mergeByUuid_In (rows : list RawTaskRow.t) (seenUuids : gset string)
    (acc : list RawTaskRow.t) (row : RawTaskRow.t) :
  In row (mergeByUuid rows seenUuids acc) -> In row acc \/ In row rows.
Proof.
  revert seenUuids acc. induction rows as [|r rows IH]; intros seenUuids acc; simpl.
  - auto.
  - destruct (bool_decide (RawTaskRow.uuid r ∈ seenUuids)); intros H; apply IH in H.
    + tauto.
    + rewrite in_app_iff in H. simpl in H. tauto.
Qed.



End MergeFacts.





Lemma StronglySorted_weaken {A} (R R' : A -> A -> Prop) (l : list A) :
  (forall a b, R a b -> R' a b) -> StronglySorted R l -> StronglySorted R' l.
Proof.
  intros HR. induction 1 as [|a l Hs IH Hall]; constructor; [exact IH |].
  eapply List.Forall_impl; [| exact Hall]. intros b. apply HR.
Qed.


Section UpcomingFacts.
Variable db : Database.
Variable nowMs : Z.

Lemma allRows_perm (offset : Z) :
  Permutation (allRows db nowMs offset)
    (mergeByUuid (regularRows db ++ recurringRows db (todayThingsValue nowMs offset))%list
       ∅ []).
Proof. apply stableSort_perm. Qed.

Lemma filter_perm_singleton {A} (p : A -> bool) (l l' : list A) (x : A) :
  Permutation l l' -> List.filter p l' = [x] -> List.filter p l = [x].
Proof.
  intros Hperm Hone.
  assert (Hp : Permutation (List.filter p l) [x]).
  { rewrite <- Hone. clear Hone.
    induction Hperm as [| y l l' _ IH | y z l | l l' l'' _ IH1 _ IH2]; simpl.
    - constructor.
    - destruct (p y); [apply perm_skip |]; exact IH.
    - destruct (p y), (p z); try apply Permutation_refl. apply perm_swap.
    - eapply Permutation_trans; eassumption. }
  apply Permutation_sym, Permutation_length_1_inv in Hp. exact Hp.
Qed.

(** An identifier carried by a concrete row is represented in the merged
    rows by the first concrete row that carries it, and by nothing else. *)
Lemma allRows_filter (offset : Z) (uuid : string) (row : RawTaskRow.t)
    (others : list RawTaskRow.t) :
  List.filter (hasUuid uuid) (regularRows db) = row :: others ->
  List.filter (hasUuid uuid) (allRows db nowMs offset) = [row].
Proof.
  intros Hfirst. eapply filter_perm_singleton; [apply allRows_perm |].
  rewrite mergeByUuid_filter. simpl.
  rewrite List.filter_app, Hfirst. reflexivity.
Qed.

End UpcomingFacts.

(** C9. In the upcoming view, an identifier carried both by a concrete
    row and by a template row has exactly one entry in the merged rows
    and in the result: the concrete row (the first one, were there
    several) and its decoded form. Concrete rows are iterated first and
    the first row of each identifier is kept. *)
Theorem upcoming_concrete_wins (db : Database) (nowMs : Z) (cache : Cache)
    (uuid : string) (row template : RawTaskRow.t) (others : list RawTaskRow.t) :
  let offset := calibrated db nowMs cache in
  List.filter (hasUuid uuid) (regularRows db) = row :: others ->
  In template (recurringRows db (todayThingsValue nowMs offset)) ->
  RawTaskRow.uuid template = uuid ->
  List.filter (hasUuid uuid) (allRows db nowMs offset) = [row]
  /\ fst (getTodosByList db nowMs "upcoming" cache)
     = traverse (decoded db nowMs offset) (allRows db nowMs offset)
  /\ forall todos,
       fst (getTodosByList db nowMs "upcoming" cache) = Ok todos ->
       exists todo,
         decoded db nowMs offset row = Ok todo
         /\ List.filter (todoHasUuid uuid) todos = [todo].
Proof.
  intros offset Hfirst _ _.
  pose proof (allRows_filter db nowMs offset uuid row others Hfirst) as Hrows.
  split; [exact Hrows |]. split; [apply upcoming_run |].
  intros todos Hrun. rewrite upcoming_run in Hrun. fold offset in Hrun.
  apply (traverse_Ok_filter _ (hasUuid uuid) (todoHasUuid uuid)) in Hrun.
  - rewrite Hrows in Hrun. simpl in Hrun.
    destruct (decoded db nowMs offset row) as [todo|e]; simpl in Hrun; [| discriminate].
    injection Hrun as Hrun. exists todo. split; [reflexivity | symmetry; exact Hrun].
  - intros r y Hy. unfold todoHasUuid, hasUuid.
    rewrite (decoded_uuid _ _ _ _ _ Hy). reflexivity.
Qed.

Lemma upcoming_concrete_wins_witness :
  List.filter (hasUuid "D")
    (allRows Sample.agenda Sample.noon (calibrated Sample.agenda Sample.noon None))
  = [Sample.row Sample.taskD]
  /\ fst (getTodosByList Sample.agenda Sample.noon "upcoming" None)
     = traverse (decoded Sample.agenda Sample.noon
                   (calibrated Sample.agenda Sample.noon None))
         (allRows Sample.agenda Sample.noon (calibrated Sample.agenda Sample.noon None))
  /\ forall todos,
       fst (getTodosByList Sample.agenda Sample.noon "upcoming" None) = Ok todos ->
       exists todo,
         decoded Sample.agenda Sample.noon (calibrated Sample.agenda Sample.noon None)
           (Sample.row Sample.taskD) = Ok todo
         /\ List.filter (todoHasUuid "D") todos = [todo].
Proof.
  apply (upcoming_concrete_wins Sample.agenda Sample.noon None "D"
           (Sample.row Sample.taskD) (Sample.row Sample.taskD) []).
  - vm_compute. reflexivity.
  - vm_compute. auto.
  - reflexivity.
Defined.



(** ** Capped views *)

Lemma firstn_In {A} (n : nat) (l : list A) (x : A) : In x (firstn n l) -> In x l.
Proof.
  intros Hx. rewrite <- (firstn_skipn n l). apply in_app_iff. left. exact Hx.
Qed.

Lemma StronglySorted_firstn {A} (R : A -> A -> Prop) (n : nat) (l : list A) :
  StronglySorted R l -> StronglySorted R (firstn n l).
Proof.
  intros Hs. revert n. induction Hs as [|a l Hs IH Hall]; intros n.
  - rewrite firstn_nil. constructor.
  - destruct n as [|n]; simpl; constructor; [apply IH |].
    rewrite List.Forall_forall in *. intros x Hx. apply Hall.
    eapply firstn_In. exact Hx.
Qed.

Lemma StronglySorted_map {A B} (R : B -> B -> Prop) (f : A -> B) (l : list A) :
  StronglySorted (fun a b => R (f a) (f b)) l -> StronglySorted R (map f l).
Proof.
  induction 1 as [|a l Hs IH Hall]; simpl; constructor; [exact IH |].
  rewrite List.Forall_forall in *. intros y Hy.
  apply in_map_iff in Hy. destruct Hy as [x [<- Hx]]. apply Hall. exact Hx.
Qed.

Lemma orderByDesc_sorted {A} (key : A -> option Z) (l : list A) :
  StronglySorted (fun a b => Sql.intLe (key b) (key a) = true)
    (Sql.orderByDesc Sql.intLe key l).
Proof.
  unfold Sql.orderByDesc. apply stableSort_strongly_sorted.
  - intros a b. destruct (intLe_total (key a) (key b)); auto.
  - intros a b c Hab Hbc. eapply intLe_trans; eassumption.
Qed.

Section CappedFacts.
Variable db : Database.

(** A capped query: the first fifty base rows by a column, descending. *)
Lemma capped_rows (where_ : TMTaskRow.t -> bool) (column : TMTaskRow.t -> option Z)
    (key : RawTaskRow.t -> option Z) :
  (forall j, key (BASE_TASK_SELECT j) = column (t j)) ->
  let rows :=
    taskQuery db where_
      (fun l => Sql.limit 50 (Sql.orderByDesc Sql.intLe (fun j => column (t j)) l)) in
  length rows
  = Nat.min 50 (length (List.filter (fun j => where_ (t j)) (BASE_TASK_FROM db)))
  /\ StronglySorted (fun a b => Sql.intLe (key b) (key a) = true) rows
  /\ forall row, In row rows -> baseRow db (fun t => where_ t = true) row.
Proof.
  intros Hkey rows. split; [| split].
  - unfold rows, taskQuery, Sql.limit.
    rewrite length_map, length_firstn. unfold Sql.orderByDesc.
    rewrite stableSort_length. reflexivity.
  - unfold rows, taskQuery, Sql.limit. apply StronglySorted_map.
    eapply StronglySorted_weaken;
      [| apply StronglySorted_firstn, (orderByDesc_sorted (fun j => column (t j)))].
    intros a b H. simpl in H. rewrite !Hkey. exact H.
  - intros row. unfold rows. apply taskQuery_sub. intros l x Hx.
    apply firstn_In in Hx.
    apply (Permutation_in _ (orderByDesc_perm _ _ _) Hx).
Qed.

End CappedFacts.

(** C8. For every database state the logbook view decodes at most fifty
    rows, the first fifty completed or canceled to-dos by [stopDate]
    descending, and search decodes at most fifty rows, the first fifty
    matching to-dos by [userModificationDate] descending; so neither
    returns more than fifty entries, however many rows match, and both
    return whenever the time values of those rows are within the range of
    [Date]. *)
Theorem capped_views (db : Database) (nowMs : Z) (cache : Cache) (query : string) :
  let offset := calibrated db nowMs cache in
  let pattern := String.append "%" (String.append query "%") in
  (fst (getTodosByList db nowMs "logbook" cache)
   = traverse (decoded db nowMs offset) (logbookRows db)
   /\ length (logbookRows db)
      = Nat.min 50
          (length (List.filter (fun j => whereLogbook (t j)) (BASE_TASK_FROM db)))
   /\ StronglySorted
        (fun a b => Sql.intLe (RawTaskRow.stopDate b) (RawTaskRow.stopDate a) = true)
        (logbookRows db)
   /\ (Forall (rowValid offset) (logbookRows db) ->
       exists todos, fst (getTodosByList db nowMs "logbook" cache) = Ok todos)
   /\ forall todos,
        fst (getTodosByList db nowMs "logbook" cache) = Ok todos ->
        (length todos <= 50)%nat
        /\ Forall2 (fun row todo => decoded db nowMs offset row = Ok todo)
             (logbookRows db) todos)
  /\ (fst (searchTodos db nowMs query cache)
      = traverse (decoded db nowMs offset) (searchRows db pattern)
      /\ length (searchRows db pattern)
         = Nat.min 50
             (length (List.filter (fun j => whereSearch pattern (t j))
                        (BASE_TASK_FROM db)))
      /\ StronglySorted
           (fun a b =>
              Sql.intLe (RawTaskRow.userModificationDate b)
                        (RawTaskRow.userModificationDate a) = true)
           (searchRows db pattern)
      /\ (Forall (rowValid offset) (searchRows db pattern) ->
          exists todos, fst (searchTodos db nowMs query cache) = Ok todos)
      /\ forall todos,
           fst (searchTodos db nowMs query cache) = Ok todos ->
           (length todos <= 50)%nat
           /\ Forall2 (fun row todo => decoded db nowMs offset row = Ok todo)
                (searchRows db pattern) todos).
Proof.
  intros offset pattern. split.
  - destruct (capped_rows db whereLogbook TMTaskRow.stopDate RawTaskRow.stopDate)
      as (Hlen & Hsorted & _); [reflexivity |].
    fold (logbookRows db) in Hlen, Hsorted.
    split; [apply logbook_run |]. split; [exact Hlen |]. split; [exact Hsorted |].
    split; [rewrite logbook_run; apply decodedAll_returns |].
    intros todos Hrun. rewrite logbook_run in Hrun. fold offset in Hrun.
    split; [| apply traverse_Ok_Forall2; exact Hrun].
    rewrite (traverse_Ok_length _ _ _ Hrun), Hlen. apply Nat.le_min_l.
  - destruct (capped_rows db (whereSearch pattern) TMTaskRow.userModificationDate
                RawTaskRow.userModificationDate)
      as (Hlen & Hsorted & _); [reflexivity |].
    fold (searchRows db pattern) in Hlen, Hsorted.
    split; [apply search_run |]. split; [exact Hlen |]. split; [exact Hsorted |].
    split; [rewrite search_run; apply decodedAll_returns |].
    intros todos Hrun. rewrite search_run in Hrun. fold offset pattern in Hrun.
    split; [| apply traverse_Ok_Forall2; exact Hrun].
    rewrite (traverse_Ok_length _ _ _ Hrun), Hlen. apply Nat.le_min_l.
Qed.

(** On the sample archive eighty to-dos match; the logbook returns the
    fifty stopped last, latest first. *)
Example logbook_archive :
  exists todos,
    fst (getTodosByList Sample.archive Sample.noon "logbook" None) = Ok todos
    /\ length todos = 50%nat
    /\ map Todo.uuid (firstn 3 todos) = ["79"; "78"; "77"]
    /\ length (List.filter (fun j => whereLogbook (t j)) (BASE_TASK_FROM Sample.archive))
       = 80%nat.
Proof. eexists. vm_compute. repeat split; reflexivity. Qed.

(** ** Search *)

Lemma contains_char (s : string) (c : ascii) :
  contains s (String c EmptyString) -> In c (list_ascii_of_string s).
Proof.
  intros [before [after ->]]. induction before as [|d before IH]; simpl.
  - left. reflexivity.
  - right. exact IH.
Qed.

Lemma like_percent_unfold (p s : string) :
  Sql.like (String "%" p) s
  = Sql.like p s
    || match s with
       | EmptyString => false
       | String _ s' => Sql.like (String "%" p) s'
       end.
Proof. destruct s; reflexivity. Qed.

Lemma like_literal_unfold (c : ascii) (p s : string) :
  c <> "%"%char -> c <> "_"%char ->
  Sql.like (String c p) s
  = match s with
    | EmptyString => false
    | String d s' => Ascii.eqb (Sql.toLower c) (Sql.toLower d) && Sql.like p s'
    end.
Proof.
  intros H1 H2. simpl.
  destruct (Ascii.eqb_spec c "%"); [contradiction |].
  destruct (Ascii.eqb_spec c "_"); [contradiction |]. reflexivity.
Qed.

Lemma like_percent_all (s : string) : Sql.like "%" s = true.
Proof.
  induction s as [|c s IH]; [reflexivity |].
  rewrite like_percent_unfold. rewrite IH. apply orb_true_r.
Qed.

Lemma foldCase_app (a b : string) :
  foldCase (String.append a b) = String.append (foldCase a) (foldCase b).
Proof. induction a as [|c a IH]; simpl; [reflexivity | rewrite IH; reflexivity]. Qed.

Lemma foldCase_split (s x y : string) :
  foldCase s = String.append x y ->
  exists a b, s = String.append a b /\ foldCase a = x /\ foldCase b = y.
Proof.
  revert s. induction x as [|c x IH]; intros s H; simpl in H.
  - exists EmptyString, s. repeat split. exact H.
  - destruct s as [|d s]; simpl in H; [discriminate |].
    injection H as Hc H. destruct (IH s H) as (a & b & -> & Ha & Hb).
    exists (String d a), b. simpl. rewrite Ha, Hc. repeat split. exact Hb.
Qed.

(** A wildcard-free pattern followed by ["%"] matches the strings that
    begin with it, up to case. *)
Lemma like_prefix (q s : string) :
  plain q ->
  Sql.like (String.append q "%") s = true
  <-> exists pre rest, s = String.append pre rest /\ foldCase pre = foldCase q.
Proof.
  revert s. induction q as [|c q IH]; intros s Hplain.
  - change (String.append EmptyString "%") with "%".
    rewrite like_percent_all. split; [| reflexivity].
    intros _. exists EmptyString, s. split; reflexivity.
  - assert (Hc : c <> "%"%char /\ c <> "_"%char) by (apply Hplain; left; reflexivity).
    assert (Hq : plain q) by (intros d Hd; apply Hplain; right; exact Hd).
    change (String.append (String c q) "%") with (String c (String.append q "%")).
    rewrite like_literal_unfold by tauto.
    destruct s as [|d s].
    + split; [discriminate |]. intros (pre & rest & Hs & Hf).
      destruct pre; simpl in *; discriminate.
    + rewrite andb_true_iff, (IH s Hq). split.
      * intros [Hcd (pre & rest & -> & Hf)].
        exists (String d pre), rest. split; [reflexivity |]. simpl.
        apply Ascii.eqb_eq in Hcd. rewrite Hf, Hcd. reflexivity.
      * intros (pre & rest & Hs & Hf).
        destruct pre as [|e pre]; simpl in Hf; [discriminate |].
        simpl in Hs. injection Hs as -> ->. injection Hf as Hc' Hf.
        split; [apply Ascii.eqb_eq; congruence |].
        exists pre, rest. split; [reflexivity | exact Hf].
Qed.

Lemma prefix_contains (q s : string) :
  (exists pre rest, s = String.append pre rest /\ foldCase pre = foldCase q) ->
  contains (foldCase s) (foldCase q).
Proof.
  intros (pre & rest & -> & Hf). exists EmptyString, (foldCase rest).
  rewrite foldCase_app, Hf. reflexivity.
Qed.

Lemma like_contains (q s : string) :
  plain q ->
  Sql.like (String.append "%" (String.append q "%")) s = true
  <-> contains (foldCase s) (foldCase q).
Proof.
  intros Hplain.
  change (String.append "%" (String.append q "%"))
    with (String "%" (String.append q "%")).
  split.
  - induction s as [|d s IH]; rewrite like_percent_unfold, orb_true_iff.
    + intros [H | H]; [| discriminate].
      apply prefix_contains, like_prefix; assumption.
    + intros [H | H].
      * apply prefix_contains, like_prefix; assumption.
      * destruct (IH H) as (before & after & Heq).
        exists (String (Sql.toLower d) before), after. simpl. rewrite Heq. reflexivity.
  - intros (before & after & Heq).
    apply foldCase_split in Heq. destruct Heq as (a & b & -> & Ha & Hb).
    apply foldCase_split in Hb. destruct Hb as (pre & rest & -> & Hpre & Hrest).
    clear Ha Hrest before after.
    induction a as [|d a IH]; rewrite like_percent_unfold, orb_true_iff.
    + left. apply like_prefix; [exact Hplain |]. exists pre, rest. auto.
    + right. exact IH.
Qed.
(** C10. [searchTodos] puts the raw query between two ["%"] and hands it
    to LIKE, which has no escape character here. A query without
    wildcards finds exactly the texts that contain it up to letter case;
    a query with a wildcard finds to-dos that do not contain it: on the
    sample agenda the query ["_"] returns the to-do "stretch", whose title
    and notes hold no underscore. *)
Theorem search_wildcards_unescaped :
  (forall db nowMs query cache,
     fst (searchTodos db nowMs query cache)
     = traverse (decoded db nowMs (calibrated db nowMs cache))
         (searchRows db (String.append "%" (String.append query "%"))))
  /\ (forall query text,
        plain query ->
        Sql.like (String.append "%" (String.append query "%")) text = true
        <-> contains (foldCase text) (foldCase query))
  /\ exists query todos todo,
       In "_"%char (list_ascii_of_string query)
       /\ fst (searchTodos Sample.agenda Sample.noon query None) = Ok todos
       /\ In todo todos
       /\ Todo.title todo = "stretch"
       /\ ~ contains (foldCase (Todo.title todo)) (foldCase query)
       /\ ~ contains (foldCase (Todo.notes todo)) (foldCase query).
Proof.
  split; [intros; apply search_run |].
  split; [intros query text; apply like_contains |].
  exists "_". eexists. eexists.
  split; [left; reflexivity |].
  split; [vm_compute; reflexivity |].
  split; [left; reflexivity |].
  split; [reflexivity |].
  split; intros H; apply contains_char in H; simpl in H;
    repeat (destruct H as [H | H]; [discriminate |]); exact H.
Qed.

(** ** Trashed rows *)

(** C2 fails on the two single-entity lookups. In the sample store
    [trash] the to-do [T1] and the project [P1] have their trashed flag
    set, and [getTodoByUuid] and [getProjectByUuid] return them. *)
Theorem lookups_return_trashed :
  Forall (fun task => TMTaskRow.trashed task = 1) (TMTask Sample.trash)
  /\ (exists todo,
        fst (getTodoByUuid Sample.trash Sample.noon "T1" None) = Ok (Some todo)
        /\ Todo.uuid todo = "T1" /\ Todo.title todo = "old note")
  /\ (exists project todos,
        fst (getProjectByUuid Sample.trash Sample.noon "P1" None)
        = Ok (Some (project, todos))
        /\ Project.uuid project = "P1" /\ Project.title project = "old project").
Proof.
  split; [repeat constructor |].
  split.
  - eexists. split; [vm_compute; reflexivity | split; reflexivity].
  - eexists. eexists. split; [vm_compute; reflexivity | split; reflexivity].
Qed.

(** The list queries, unlike the two lookups, all carry [t.trashed = 0]:
    every row they decode is the base row of a task that is not
    trashed. *)
Section ListedFacts.
Variable db : Database.
Variable nowMs : Z.

Lemma taskQuery_not_trashed (where_ : TMTaskRow.t -> bool)
    (tail : list Joined -> list Joined) :
  (forall t, where_ t = true -> TMTaskRow.trashed t = 0) ->
  (forall l x, In x (tail l) -> In x l) ->
  Forall (baseRow db (fun t => TMTaskRow.trashed t = 0)) (taskQuery db where_ tail).
Proof.
  intros Hw Htail. apply List.Forall_forall. intros row Hrow.
  apply taskQuery_sub in Hrow; [| exact Htail].
  eapply baseRow_impl; [| exact Hrow]. exact Hw.
Qed.

Lemma sorted_sub {A} (le : A -> A -> bool) (l : list A) (x : A) :
  In x (stableSort le l) -> In x l.
Proof. apply stableSort_In. Qed.

Lemma incompleteTodo_not_trashed (t : TMTaskRow.t) :
  incompleteTodo t -> TMTaskRow.trashed t = 0.
Proof. intros (_ & _ & H). exact H. Qed.

Lemma getTodosByList_not_trashed (list : string) (cache : Cache) :
  exists rows,
    fst (getTodosByList db nowMs list cache)
    = traverse (decoded db nowMs (calibrated db nowMs cache)) rows
    /\ Forall (baseRow db (fun t => TMTaskRow.trashed t = 0)) rows.
Proof.
  set (offset := calibrated db nowMs cache).
  unfold getTodosByList.
  destruct (String.eqb list "inbox").
  { eexists. split; [apply mapM_rowToTodo_run |].
    apply taskQuery_not_trashed; [| auto].
    intros t. unfold whereInbox. rewrite !andb_true_iff, !Z.eqb_eq. tauto. }
  destruct (String.eqb list "today").
  { exists (combined db nowMs offset). split.
    - unfold bind. rewrite calibrate_run. apply mapM_rowToTodo_run.
    - apply List.Forall_forall. intros row Hrow. apply combined_In in Hrow.
      destruct Hrow as [Hrow | [Hrow _]].
      + apply todayRows_spec in Hrow. eapply baseRow_impl; [| exact Hrow].
        intros t [H _]. apply incompleteTodo_not_trashed, H.
      + apply recurringTodayRows_spec in Hrow. eapply baseRow_impl; [| exact Hrow].
        intros t [H _]. apply incompleteTodo_not_trashed, H. }
  destruct (String.eqb list "upcoming").
  { exists (allRows db nowMs offset). split.
    - unfold bind. rewrite calibrate_run. apply mapM_rowToTodo_run.
    - apply List.Forall_forall. intros row Hrow.
      apply (Permutation_in _ (allRows_perm db nowMs offset)) in Hrow.
      apply mergeByUuid_In in Hrow. destruct Hrow as [[] | Hrow].
      apply in_app_iff in Hrow. destruct Hrow as [Hrow | Hrow].
      + apply regularRows_spec in Hrow. eapply baseRow_impl; [| exact Hrow].
        intros t [H _]. apply incompleteTodo_not_trashed, H.
      + apply recurringRows_spec in Hrow. eapply baseRow_impl; [| exact Hrow].
        intros t [H _]. apply incompleteTodo_not_trashed, H. }
  destruct (String.eqb list "anytime").
  { eexists. split; [apply mapM_rowToTodo_run |].
    apply taskQuery_not_trashed; [| intros l x; apply sorted_sub].
    intros t. unfold whereAnytime. rewrite !andb_true_iff, !Z.eqb_eq. tauto. }
  destruct (String.eqb list "someday").
  { eexists. split; [apply mapM_rowToTodo_run |].
    apply taskQuery_not_trashed; [| intros l x; apply sorted_sub].
    intros t. unfold whereSomeday. rewrite !andb_true_iff, !Z.eqb_eq. tauto. }
  destruct (String.eqb list "logbook").
  { eexists. split; [apply mapM_rowToTodo_run |].
    apply taskQuery_not_trashed.
    - intros t. unfold whereLogbook. rewrite !andb_true_iff, !Z.eqb_eq. tauto.
    - intros l x Hx. apply firstn_In, sorted_sub in Hx. exact Hx. }
  eexists. split; [apply mapM_rowToTodo_run |].
  apply taskQuery_not_trashed; [discriminate | auto].
Qed.

Lemma searchTodos_not_trashed (query : string) (cache : Cache) :
  exists rows,
    fst (searchTodos db nowMs query cache)
    = traverse (decoded db nowMs (calibrated db nowMs cache)) rows
    /\ Forall (baseRow db (fun t => TMTaskRow.trashed t = 0)) rows.
Proof.
  eexists. split; [apply search_run |].
  apply taskQuery_not_trashed.
  - intros t. unfold whereSearch. rewrite !andb_true_iff, !Z.eqb_eq. tauto.
  - intros l x Hx. apply firstn_In, sorted_sub in Hx. exact Hx.
Qed.

Lemma getTodosByTag_not_trashed (tagName : string) (cache : Cache) :
  exists rows,
    fst (getTodosByTag db nowMs tagName cache)
    = traverse (decoded db nowMs (calibrated db nowMs cache)) rows
    /\ Forall (baseRow db (fun t => TMTaskRow.trashed t = 0)) rows.
Proof.
  exists (tagRows db tagName). split; [apply mapM_rowToTodo_run |].
  apply List.Forall_forall. intros row Hrow. unfold tagRows in Hrow.
  apply in_map_iff in Hrow. destruct Hrow as [[j tag] [<- Hin]].
  apply sorted_sub, filter_In in Hin. destruct Hin as [Hin Hw].
  simpl in Hw. rewrite !andb_true_iff, !Z.eqb_eq in Hw.
  apply in_flat_map in Hin. destruct Hin as [j' [Hj' Hin]].
  apply in_flat_map in Hin. destruct Hin as [tt [_ Hin]].
  apply in_map_iff in Hin. destruct Hin as [tag' [Heq _]].
  injection Heq as Hj Htag. subst j' tag'.
  exists j. simpl. repeat split; [exact Hj' | tauto].
Qed.

Lemma projectTodoRows_not_trashed (uuid : string) :
  Forall (baseRow db (fun t => TMTaskRow.trashed t = 0)) (projectTodoRows db uuid).
Proof.
  apply taskQuery_not_trashed; [| intros l x; apply sorted_sub].
  intros t. rewrite !andb_true_iff, !Z.eqb_eq. tauto.
Qed.

End ListedFacts.

(** * Further properties of the query module *)

(** ** Decoded fields *)

Section FieldFacts.
Variable db : Database.
Variable nowMs : Z.

(** The fields of a decoded row that do not involve dates. *)
Lemma decoded_plain_fields (offset : Z) (row : RawTaskRow.t) (todo : Todo.t) :
  decoded db nowMs offset row = Ok todo ->
  Todo.uuid todo = RawTaskRow.uuid row
  /\ Todo.type todo = typeToString (RawTaskRow.type row)
  /\ Todo.status todo = statusToString (RawTaskRow.status row)
  /\ Todo.start todo
     = startToString (RawTaskRow.start row) (RawTaskRow.startBucket row)
         (RawTaskRow.startDate row)
  /\ Todo.project todo = RawTaskRow.project row
  /\ Todo.area todo = RawTaskRow.area row.
Proof.
  intros H. apply decoded_inv in H.
  destruct H as (? & ? & ? & ? & ? & ? & ? & _ & _ & _ & _ & _ & _ & _ & ->).
  repeat split; reflexivity.
Qed.

Lemma decodedAll_Forall (offset : Z) (rows : list RawTaskRow.t)
    (todos : list Todo.t) (P : Todo.t -> Prop) :
  traverse (decoded db nowMs offset) rows = Ok todos ->
  (forall row todo, In row rows -> decoded db nowMs offset row = Ok todo -> P todo) ->
  Forall P todos.
Proof.
  intros H HP. apply traverse_Ok_Forall2 in H.
  induction H as [|row todo rows todos Hrow _ IH]; constructor.
  - apply (HP row); [left; reflexivity | exact Hrow].
  - apply IH. intros r t Hr. apply HP. right. exact Hr.
Qed.

Lemma decodedAll_uuids (offset : Z) (rows : list RawTaskRow.t) (todos : list Todo.t) :
  traverse (decoded db nowMs offset) rows = Ok todos ->
  map Todo.uuid todos = map RawTaskRow.uuid rows.
Proof.
  intros H. apply traverse_Ok_Forall2 in H.
  induction H as [|row todo rows todos Hrow _ IH]; simpl; [reflexivity |].
  rewrite IH, (decoded_uuid _ _ _ _ _ Hrow). reflexivity.
Qed.

Lemma joined_task (j : Joined) : In j (BASE_TASK_FROM db) -> In (t j) (TMTask db).
Proof.
  unfold BASE_TASK_FROM. intros Hj.
  apply in_flat_map in Hj. destruct Hj as (task & Htask & Hj).
  apply in_flat_map in Hj. destruct Hj as (p0 & _ & Hj).
  apply in_map_iff in Hj. destruct Hj as (a0 & <- & _). exact Htask.
Qed.

(** A list view given by one query and no merge. *)
Lemma simple_view_Forall (where_ : TMTaskRow.t -> bool)
    (tail : list Joined -> list Joined) (cache : Cache) (todos : list Todo.t)
    (P : Todo.t -> Prop) :
  (forall l x, In x (tail l) -> In x l) ->
  fst (mapM (rowToTodo db nowMs) (taskQuery db where_ tail) cache) = Ok todos ->
  (forall j todo,
     where_ (t j) = true ->
     decoded db nowMs (calibrated db nowMs cache) (BASE_TASK_SELECT j) = Ok todo ->
     P todo) ->
  Forall P todos.
Proof.
  intros Htail Hrun HP. rewrite mapM_rowToTodo_run in Hrun.
  eapply decodedAll_Forall; [exact Hrun |].
  intros row todo Hrow Hdec.
  apply taskQuery_sub in Hrow; [| exact Htail].
  destruct Hrow as (j & _ & Hw & ->). eapply HP; eassumption.
Qed.

End FieldFacts.

(** X1. In the inbox, anytime and someday views every returned to-do is
    an incomplete to-do whose scheduling bucket is the one the view is
    named after: the label the row decoder derives agrees with the
    filter of the view. *)
Theorem simple_views_bucket (db : Database) (nowMs : Z) (cache : Cache)
    (list : string) (bucket : Start) (todos : Datatypes.list Todo.t) :
  In (list, bucket) [("inbox", Inbox); ("anytime", Anytime); ("someday", Someday)] ->
  fst (getTodosByList db nowMs list cache) = Ok todos ->
  Forall (fun todo =>
            Todo.start todo = Some bucket
            /\ Todo.status todo = incomplete
            /\ Todo.type todo = kind_to_do) todos.
Proof.
  intros Hview Hrun.
  destruct Hview as [Heq | [Heq | [Heq | []]]]; injection Heq as <- <-;
    unfold getTodosByList in Hrun; cbn [String.eqb Ascii.eqb Bool.eqb] in Hrun;
    (eapply simple_view_Forall;
     [| exact Hrun
      | intros j todo Hw Hdec; apply decoded_plain_fields in Hdec;
        destruct Hdec as (_ & -> & -> & -> & _); simpl ]).
  - auto.
  - unfold whereInbox in Hw. rewrite !andb_true_iff, !Z.eqb_eq, !eqInt_true in Hw.
    destruct Hw as [[[[[[[-> ->] _] ->] Hd] ->] _] _].
    destruct (TMTaskRow.startDate (t j)); [discriminate |]. repeat split.
  - intros l x. apply sorted_sub.
  - unfold whereAnytime in Hw. rewrite !andb_true_iff, !Z.eqb_eq, !eqInt_true in Hw.
    destruct Hw as [[[[-> ->] _] ->] ->].
    destruct (TMTaskRow.startDate (t j)); repeat split.
  - intros l x. apply sorted_sub.
  - unfold whereSomeday in Hw. rewrite !andb_true_iff, !Z.eqb_eq, !eqInt_true in Hw.
    destruct Hw as [[[-> ->] _] ->]. repeat split.
Qed.

Lemma simple_views_bucket_witness :
  exists todos,
    fst (getTodosByList Sample.agenda Sample.noon "someday" None) = Ok todos
    /\ map Todo.uuid todos = ["E"; "B"]
    /\ Forall (fun todo =>
                 Todo.start todo = Some Someday
                 /\ Todo.status todo = incomplete
                 /\ Todo.type todo = kind_to_do) todos.
Proof.
  eexists. split; [vm_compute; reflexivity |]. split; [reflexivity |].
  apply (simple_views_bucket Sample.agenda Sample.noon None "someday" Someday).
  - right; right; left; reflexivity.
  - vm_compute. reflexivity.
Defined.

(** X2. The logbook holds at most 50 to-dos. Each is the to-do of a task
    of the store that is not trashed and whose raw status is 3 or 2: it is
    marked completed in the first case and canceled in the second, never
    incomplete. *)
Theorem logbook_statuses (db : Database) (nowMs : Z) (cache : Cache)
    (todos : list Todo.t) :
  fst (getTodosByList db nowMs "logbook" cache) = Ok todos ->
  (length todos <= 50)%nat
  /\ Forall
       (fun todo =>
          Todo.type todo = kind_to_do
          /\ exists task,
               In task (TMTask db)
               /\ TMTaskRow.uuid task = Todo.uuid todo
               /\ TMTaskRow.trashed task = 0
               /\ ((TMTaskRow.status task = 3 /\ Todo.status todo = completed)
                   \/ (TMTaskRow.status task = 2 /\ Todo.status todo = canceled)))
       todos.
Proof.
  intros Hrun. rewrite logbook_run in Hrun. split.
  - pose proof Hrun as Hlen. apply traverse_Ok_Forall2, Forall2_length in Hlen.
    rewrite <- Hlen. unfold logbookRows, taskQuery, Sql.limit.
    rewrite length_map. apply firstn_le_length.
  - eapply decodedAll_Forall; [exact Hrun |].
    intros row todo Hrow Hdec.
    apply taskQuery_sub in Hrow;
      [| intros l x Hx; apply firstn_In, sorted_sub in Hx; exact Hx].
    destruct Hrow as (j & Hj & Hw & ->).
    apply decoded_plain_fields in Hdec. destruct Hdec as (Hu & -> & -> & _).
    unfold whereLogbook in Hw.
    rewrite !andb_true_iff, orb_true_iff, !Z.eqb_eq in Hw.
    destruct Hw as [[Htype Hstatus] Htrashed]. simpl. split.
    + rewrite Htype. reflexivity.
    + exists (t j). split; [apply (joined_task db); exact Hj |].
      split; [rewrite Hu; reflexivity |]. split; [exact Htrashed |].
      destruct Hstatus as [-> | ->]; [left | right]; split; reflexivity.
Qed.

Lemma logbook_statuses_witness :
  exists todos,
    fst (getTodosByList Sample.archive Sample.noon "logbook" None) = Ok todos
    /\ (length todos <= 50)%nat
    /\ Forall
         (fun todo =>
            Todo.type todo = kind_to_do
            /\ exists task,
                 In task (TMTask Sample.archive)
                 /\ TMTaskRow.uuid task = Todo.uuid todo
                 /\ TMTaskRow.trashed task = 0
                 /\ ((TMTaskRow.status task = 3 /\ Todo.status todo = completed)
                     \/ (TMTaskRow.status task = 2 /\ Todo.status todo = canceled)))
         todos.
Proof.
  eexists. split; [vm_compute; reflexivity |].
  apply (logbook_statuses Sample.archive Sample.noon None).
  vm_compute. reflexivity.
Defined.

(** X3. A view name other than the six known ones yields the empty list,
    without touching the store's rows or the calibration cache. *)
Theorem unknown_list_is_empty (db : Database) (nowMs : Z) (cache : Cache)
    (list : string) :
  ~ In list listNames ->
  getTodosByList db nowMs list cache = (Ok [], cache).
Proof.
  intros Hnot. unfold listNames in Hnot. simpl in Hnot.
  unfold getTodosByList.
  repeat match goal with
         | |- context [String.eqb list ?name] =>
             destruct (String.eqb_spec list name) as [-> | _]; [exfalso; tauto |]
         end.
  unfold taskQuery.
  assert (Hnone : List.filter (fun j : Joined => false) (BASE_TASK_FROM db) = []).
  { apply filter_nil_iff. reflexivity. }
  rewrite Hnone. reflexivity.
Qed.

Lemma unknown_list_is_empty_witness :
  getTodosByList Sample.agenda Sample.noon "trash" (Some 7) = (Ok [], Some 7).
Proof.
  apply (unknown_list_is_empty Sample.agenda Sample.noon (Some 7) "trash").
  simpl. intros H. repeat (destruct H as [H | H]; [discriminate |]). exact H.
Defined.

(** ** The base join *)

Section JoinFacts.
Variable db : Database.


Lemma leftJoin_nonempty {A} (on : A -> bool) (other : list A) :
  exists x, In x (Sql.leftJoin on other).
Proof.
  unfold Sql.leftJoin. destruct (List.filter on other) as [|z l].
  - exists None. left. reflexivity.
  - exists (Some z). left. reflexivity.
Qed.

(** The LEFT JOINs drop no task and invent none. *)
Lemma BASE_TASK_FROM_tasks (task : TMTaskRow.t) :
  In task (TMTask db) <-> exists j, In j (BASE_TASK_FROM db) /\ t j = task.
Proof.
  unfold BASE_TASK_FROM. split.
  - intros Htask.
    destruct (leftJoin_nonempty
                (fun p => Sql.eqText (TMTaskRow.project task) (TMTaskRow.uuid p))
                (TMTask db)) as [p Hp].
    destruct (leftJoin_nonempty
                (fun a => Sql.eqText (joinedArea task p) (TMAreaRow.uuid a))
                (TMArea db)) as [a Ha].
    exists {| t := task; p := p; a := a |}. split; [| reflexivity].
    apply in_flat_map. exists task. split; [exact Htask |].
    apply in_flat_map. exists p. split; [exact Hp |].
    apply in_map. exact Ha.
  - intros [j [Hj <-]].
    apply in_flat_map in Hj. destruct Hj as [task [Htask Hj]].
    apply in_flat_map in Hj. destruct Hj as [p [_ Hj]].
    apply in_map_iff in Hj. destruct Hj as [a [<- _]]. exact Htask.
Qed.

End JoinFacts.

(** X4. [getTodoByUuid] answers "not found" exactly when the store has no
    row of type to-do with the identifier (the identifier of a project or
    heading is not found); a to-do it returns carries the identifier
    asked for. *)
Theorem getTodoByUuid_found (db : Database) (nowMs : Z) (cache : Cache)
    (uuid : string) :
  (fst (getTodoByUuid db nowMs uuid cache) = Ok None
   <-> ~ exists task,
         In task (TMTask db) /\ TMTaskRow.uuid task = uuid
         /\ TMTaskRow.type task = TYPE.TODO)
  /\ forall todo,
       fst (getTodoByUuid db nowMs uuid cache) = Ok (Some todo) ->
       Todo.uuid todo = uuid /\ Todo.type todo = kind_to_do.
Proof.
  unfold getTodoByUuid.
  set (where_ := fun t : TMTaskRow.t =>
                   String.eqb (TMTaskRow.uuid t) uuid && (TMTaskRow.type t =? TYPE.TODO)).
  assert (Hw : forall task, where_ task = true
                            <-> TMTaskRow.uuid task = uuid /\ TMTaskRow.type task = TYPE.TODO).
  { intros task. unfold where_. rewrite andb_true_iff, String.eqb_eq, Z.eqb_eq. tauto. }
  destruct (taskQuery db where_ (fun rows => rows)) as [|row rows] eqn:Hrows.
  - split.
    + split; [| reflexivity]. intros _ (task & Htask & Hu & Ht).
      apply BASE_TASK_FROM_tasks in Htask. destruct Htask as (j & Hj & <-).
      assert (Hin : In (BASE_TASK_SELECT j) (taskQuery db where_ (fun rows => rows))).
      { apply taskQuery_In; [intros; apply Permutation_refl |].
        exists j. split; [exact Hj |]. split; [apply Hw; tauto | reflexivity]. }
      rewrite Hrows in Hin. destruct Hin.
    + discriminate.
  - assert (Hrow : baseRow db (fun task => where_ task = true) row).
    { apply (taskQuery_In db where_ (fun rows => rows));
        [intros; apply Permutation_refl | rewrite Hrows; left; reflexivity]. }
    destruct Hrow as (j & Hj & Hwj & ->). apply Hw in Hwj. destruct Hwj as [Hu Ht].
    unfold bind.
    destruct (rowToTodo db nowMs (BASE_TASK_SELECT j) cache) as [[todo | e] cache'] eqn:Hrun.
    + split.
      * split; [discriminate |]. intros Hnone. exfalso. apply Hnone.
        exists (t j). split; [| tauto].
        apply BASE_TASK_FROM_tasks. exists j. split; [exact Hj | reflexivity].
      * intros todo' Heq. injection Heq as <-.
        apply rowToTodo_decoded, decoded_plain_fields in Hrun.
        destruct Hrun as (-> & -> & _). simpl. rewrite Hu, Ht. split; reflexivity.
    + split.
      * split; [discriminate |]. intros Hnone. exfalso. apply Hnone.
        exists (t j). split; [| tauto].
        apply BASE_TASK_FROM_tasks. exists j. split; [exact Hj | reflexivity].
      * discriminate.
Qed.

(** ** Unique identifiers *)

Lemma filter_key_unique {A} (key : A -> string) (k : option string) (l : list A) :
  List.NoDup (map key l) ->
  (length (List.filter (fun x => Sql.eqText k (key x)) l) <= 1)%nat.
Proof.
  destruct k as [k|]; simpl.
  - induction l as [|x l IH]; simpl; intros Hnd; [lia |].
    inversion Hnd as [|? ? Hnotin Hnd']; subst.
    destruct (String.eqb_spec k (key x)) as [-> | Hne]; simpl.
    + assert (Hnone : List.filter (fun y => String.eqb (key x) (key y)) l = []).
      { apply filter_nil_iff. intros y Hy.
        destruct (String.eqb_spec (key x) (key y)) as [Heq | _]; [| reflexivity].
        exfalso. apply Hnotin. rewrite Heq. apply in_map. exact Hy. }
      rewrite Hnone. simpl. lia.
    + apply IH. exact Hnd'.
  - intros _. induction l as [|x l IH]; simpl; lia.
Qed.

Lemma leftJoin_unique {A} (key : A -> string) (k : option string) (l : list A) :
  List.NoDup (map key l) ->
  exists x, Sql.leftJoin (fun y => Sql.eqText k (key y)) l = [x].
Proof.
  intros Hnd. pose proof (filter_key_unique key k l Hnd) as Hlen.
  unfold Sql.leftJoin.
  destruct (List.filter (fun y => Sql.eqText k (key y)) l) as [|y [|z rest]].
  - exists None. reflexivity.
  - exists (Some y). reflexivity.
  - simpl in Hlen. lia.
Qed.

Section UniqueFacts.
Variable db : Database.
Hypothesis Hunique : uniqueIds db.

(** With unique identifiers the base join has one row per task, in the
    order of the table. *)
Lemma BASE_TASK_FROM_once : map t (BASE_TASK_FROM db) = TMTask db.
Proof.
  destruct Hunique as [Htasks Hareas]. unfold BASE_TASK_FROM.
  assert (Hall : forall tasks,
             map t
               (flat_map
                  (fun t =>
                     flat_map
                       (fun p =>
                          map (fun a => {| t := t; p := p; a := a |})
                            (Sql.leftJoin
                               (fun a => Sql.eqText (joinedArea t p) (TMAreaRow.uuid a))
                               (TMArea db)))
                       (Sql.leftJoin
                          (fun p => Sql.eqText (TMTaskRow.project t) (TMTaskRow.uuid p))
                          (TMTask db)))
                  tasks)
             = tasks).
  { induction tasks as [|task tasks IH]; simpl; [reflexivity |].
    rewrite map_app, IH. clear IH.
    destruct (leftJoin_unique TMTaskRow.uuid (TMTaskRow.project task) (TMTask db) Htasks)
      as [p ->].
    simpl. rewrite app_nil_r.
    destruct (leftJoin_unique TMAreaRow.uuid (joinedArea task p) (TMArea db) Hareas)
      as [a ->].
    reflexivity. }
  apply Hall.
Qed.

Lemma filter_map_comm {A B} (f : A -> B) (p : B -> bool) (l : list A) :
  map f (List.filter (fun x => p (f x)) l) = List.filter p (map f l).
Proof.
  induction l as [|x l IH]; simpl; [reflexivity |].
  destruct (p (f x)); simpl; rewrite IH; reflexivity.
Qed.

Lemma taskQuery_scan (where_ : TMTaskRow.t -> bool) :
  map RawTaskRow.uuid (taskQuery db where_ (fun rows => rows))
  = map TMTaskRow.uuid (List.filter where_ (TMTask db)).
Proof.
  transitivity (map TMTaskRow.uuid (List.filter where_ (map t (BASE_TASK_FROM db))));
    [| rewrite BASE_TASK_FROM_once; reflexivity].
  unfold taskQuery.
  rewrite <- (filter_map_comm t where_), !map_map. reflexivity.
Qed.

Lemma taskQuery_count (where_ : TMTaskRow.t -> bool)
    (tail : list Joined -> list Joined) :
  (forall l, Permutation (tail l) l) ->
  length (taskQuery db where_ tail) = length (List.filter where_ (TMTask db)).
Proof.
  intros Htail. unfold taskQuery.
  rewrite length_map, (Permutation_length (Htail _)).
  transitivity (length (List.filter where_ (map t (BASE_TASK_FROM db))));
    [| rewrite BASE_TASK_FROM_once; reflexivity].
  rewrite <- (filter_map_comm t where_), length_map. reflexivity.
Qed.

Lemma taskQuery_once (where_ : TMTaskRow.t -> bool)
    (tail : list Joined -> list Joined) :
  (forall l, Permutation (tail l) l) ->
  Permutation (map RawTaskRow.uuid (taskQuery db where_ tail))
    (map TMTaskRow.uuid (List.filter where_ (TMTask db))).
Proof.
  intros Htail. rewrite <- taskQuery_scan. unfold taskQuery.
  apply Permutation_map, Permutation_map, Htail.
Qed.

End UniqueFacts.

Lemma whereInbox_inInbox (task : TMTaskRow.t) : whereInbox task = inInbox task.
Proof.
  unfold whereInbox, inInbox, openTodo, Sql.eqInt, isNull, TYPE.TODO, STATUS.INCOMPLETE.
  destruct (TMTaskRow.type task =? 0), (TMTaskRow.status task =? 0),
    (TMTaskRow.trashed task =? 0); try reflexivity.
  destruct (TMTaskRow.start task) as [[|q|q]|]; try reflexivity;
    destruct (TMTaskRow.startDate task); try reflexivity;
    destruct (TMTaskRow.startBucket task) as [[|q'|q']|]; try reflexivity;
    destruct (TMTaskRow.project task); try reflexivity;
    destruct (TMTaskRow.heading task); reflexivity.
Qed.

Lemma whereAnytime_inAnytime (task : TMTaskRow.t) : whereAnytime task = inAnytime task.
Proof.
  unfold whereAnytime, inAnytime, openTodo, Sql.eqInt, TYPE.TODO, STATUS.INCOMPLETE,
    START_BUCKET.ANYTIME.
  destruct (TMTaskRow.type task =? 0), (TMTaskRow.status task =? 0),
    (TMTaskRow.trashed task =? 0); try reflexivity.
  destruct (TMTaskRow.start task) as [[|[q|q|]|q]|]; try reflexivity;
    destruct (TMTaskRow.startBucket task) as [[|q'|q']|]; reflexivity.
Qed.

Lemma whereSomeday_inSomeday (task : TMTaskRow.t) : whereSomeday task = inSomeday task.
Proof.
  unfold whereSomeday, inSomeday, openTodo, Sql.eqInt, TYPE.TODO, STATUS.INCOMPLETE.
  destruct (TMTaskRow.type task =? 0), (TMTaskRow.status task =? 0),
    (TMTaskRow.trashed task =? 0); reflexivity.
Qed.

(** X5. With unique task and area identifiers the inbox, anytime and
    someday views list every task that passes the filter of the view
    exactly once, and nothing else: the joins of the base query neither
    drop nor repeat a task. *)
Theorem simple_views_each_once (db : Database) (nowMs : Z) (cache : Cache)
    (list : string) (view : TMTaskRow.t -> bool) (todos : Datatypes.list Todo.t) :
  In (list, view) [("inbox", inInbox); ("anytime", inAnytime); ("someday", inSomeday)] ->
  uniqueIds db ->
  fst (getTodosByList db nowMs list cache) = Ok todos ->
  Permutation (map Todo.uuid todos)
    (map TMTaskRow.uuid (List.filter view (TMTask db))).
Proof.
  intros Hview Hunique Hrun.
  destruct Hview as [Heq | [Heq | [Heq | []]]]; injection Heq as <- <-;
    unfold getTodosByList in Hrun; cbn [String.eqb Ascii.eqb Bool.eqb] in Hrun;
    rewrite mapM_rowToTodo_run in Hrun;
    rewrite (decodedAll_uuids _ _ _ _ _ Hrun);
    [ rewrite <- (List.filter_ext _ _ whereInbox_inInbox)
    | rewrite <- (List.filter_ext _ _ whereAnytime_inAnytime)
    | rewrite <- (List.filter_ext _ _ whereSomeday_inSomeday) ];
    apply taskQuery_once; try exact Hunique; intros l.
  - apply Permutation_refl.
  - apply orderByAsc_perm.
  - apply orderByDesc_perm.
Qed.

Lemma simple_views_each_once_witness :
  exists todos,
    fst (getTodosByList Office.store Sample.noon "inbox" None) = Ok todos
    /\ Permutation (map Todo.uuid todos) ["T4"].
Proof.
  eexists. split; [vm_compute; reflexivity |].
  apply (simple_views_each_once Office.store Sample.noon None "inbox" inInbox).
  - left. reflexivity.
  - split; vm_compute; repeat constructor; simpl; intuition discriminate.
  - vm_compute. reflexivity.
Defined.

(** ** Projects *)

Lemma bind_Ok {A B} (m : M A) (f : A -> M B) (cache : Cache) (b : B) :
  fst (bind m f cache) = Ok b ->
  exists a cache', m cache = (Ok a, cache') /\ fst (f a cache') = Ok b.
Proof.
  unfold bind. destruct (m cache) as [[a | e] cache']; [| discriminate].
  intros H. exists a, cache'. split; [reflexivity | exact H].
Qed.

Lemma mapM_Ok {A B} (f : A -> M B) (l : list A) (cache : Cache) (out : list B) :
  fst (mapM f l cache) = Ok out ->
  Forall2 (fun x y => exists c c', f x c = (Ok y, c')) l out.
Proof.
  revert cache out. induction l as [|x l IH]; simpl; intros cache out H.
  - injection H as <-. constructor.
  - apply bind_Ok in H. destruct H as (y & c1 & Hx & H).
    apply bind_Ok in H. destruct H as (ys & c2 & Hl & H).
    injection H as <-. constructor.
    + exists cache, c1. exact Hx.
    + apply (IH c1). rewrite Hl. reflexivity.
Qed.

Section ProjectFacts.
Variable db : Database.
Variable nowMs : Z.

(** The fields of a project object that do not involve dates. *)
Lemma rowToProject_fields (row : TMTaskRow.t * option TMAreaRow.t)
    (cache : Cache) (project : Project.t) :
  fst (rowToProject db nowMs row cache) = Ok project ->
  Project.uuid project = TMTaskRow.uuid (fst row)
  /\ Project.status project = statusToString (TMTaskRow.status (fst row))
  /\ Project.area project = TMTaskRow.area (fst row)
  /\ Project.areaTitle project
     = match snd row with Some a' => Some (TMAreaRow.title a') | None => None end
  /\ Project.tags project = getTagsForTask db (TMTaskRow.uuid (fst row))
  /\ Project.todoCount project = todoCount db (fst row).
Proof.
  unfold rowToProject. intros H.
  repeat (apply bind_Ok in H; destruct H as (? & ? & _ & H)).
  injection H as <-. repeat split; reflexivity.
Qed.

End ProjectFacts.

(** X6. With unique task and area identifiers a project returned by
    [getProjectByUuid] carries the identifier asked for, and its
    [todoCount] is the number of to-dos listed with it; each of them is a
    to-do that names this project as its own. *)
Theorem getProjectByUuid_count (db : Database) (nowMs : Z) (cache : Cache)
    (uuid : string) (project : Project.t) (todos : list Todo.t) :
  uniqueIds db ->
  fst (getProjectByUuid db nowMs uuid cache) = Ok (Some (project, todos)) ->
  Project.uuid project = uuid
  /\ Project.todoCount project = Z.of_nat (length todos)
  /\ Forall (fun todo => Todo.project todo = Some uuid /\ Todo.type todo = kind_to_do)
       todos.
Proof.
  intros Hunique Hrun. unfold getProjectByUuid in Hrun.
  destruct (List.filter _ (projectFrom db)) as [|row rows] eqn:Hrows;
    [discriminate |].
  assert (Hrow : In row (row :: rows)) by (left; reflexivity).
  rewrite <- Hrows in Hrow. apply filter_In in Hrow. destruct Hrow as [_ Hrow].
  apply andb_true_iff in Hrow. destruct Hrow as [Huuid _].
  apply String.eqb_eq in Huuid.
  apply bind_Ok in Hrun. destruct Hrun as (project' & c1 & Hproject & Hrun).
  apply bind_Ok in Hrun. destruct Hrun as (todos' & c2 & Htodos & Hrun).
  injection Hrun as <- <-.
  assert (Hfields := rowToProject_fields db nowMs row cache project').
  rewrite Hproject in Hfields. destruct (Hfields eq_refl) as (Hu & _ & _ & _ & _ & Hcount).
  assert (Hall : fst (mapM (rowToTodo db nowMs) (projectTodoRows db uuid) c1) = Ok todos')
    by (rewrite Htodos; reflexivity).
  split; [congruence |]. split.
  - rewrite Hcount. unfold todoCount. f_equal.
    rewrite mapM_rowToTodo_run in Hall. rewrite (traverse_Ok_length _ _ _ Hall).
    unfold projectTodoRows.
    rewrite (taskQuery_count db Hunique); [| intros l; apply orderByAsc_perm].
    rewrite Huuid. reflexivity.
  - rewrite mapM_rowToTodo_run in Hall.
    eapply decodedAll_Forall; [exact Hall |].
    intros r todo Hr Hdec. apply decoded_plain_fields in Hdec.
    destruct Hdec as (_ & -> & _ & _ & -> & _).
    apply taskQuery_sub in Hr; [| intros l x; apply sorted_sub].
    destruct Hr as (j & _ & Hw & ->). simpl.
    rewrite !andb_true_iff, Z.eqb_eq in Hw. destruct Hw as [[Hp ->] _].
    split; [| reflexivity]. unfold Sql.eqText in Hp.
    destruct (TMTaskRow.project (t j)) as [q|]; [| discriminate].
    apply String.eqb_eq in Hp. congruence.
Qed.

Lemma getProjectByUuid_count_witness :
  exists project todos,
    fst (getProjectByUuid Office.store Sample.noon "P" None) = Ok (Some (project, todos))
    /\ map Todo.uuid todos = ["T1"; "T2"]
    /\ Project.todoCount project = Z.of_nat (length todos).
Proof.
  eexists. eexists. split; [vm_compute; reflexivity |]. split; [reflexivity |].
  apply (getProjectByUuid_count Office.store Sample.noon None "P").
  - split; vm_compute; repeat constructor; simpl; intuition discriminate.
  - vm_compute. reflexivity.
Defined.

(** ** Titles, tags and checklists *)

Section RelatedFacts.
Variable db : Database.
Variable nowMs : Z.

Lemma decoded_join_fields (offset : Z) (row : RawTaskRow.t) (todo : Todo.t) :
  decoded db nowMs offset row = Ok todo ->
  Todo.project todo = RawTaskRow.project row
  /\ Todo.projectTitle todo = RawTaskRow.projectTitle row
  /\ Todo.area todo = RawTaskRow.area row
  /\ Todo.areaTitle todo = RawTaskRow.areaTitle row
  /\ Todo.tags todo = getTagsForTask db (RawTaskRow.uuid row)
  /\ Todo.checklist todo = getChecklistForTask db (RawTaskRow.uuid row).
Proof.
  intros H. apply decoded_inv in H.
  destruct H as (? & ? & ? & ? & ? & ? & ? & _ & _ & _ & _ & _ & _ & _ & ->).
  repeat split; reflexivity.
Qed.


Lemma getTagsForTask_In (taskUuid title : string) :
  In title (getTagsForTask db taskUuid)
  <-> exists tag link,
        In tag (TMTag db) /\ In link (TMTaskTag db)
        /\ TMTaskTagRow.tags link = TMTagRow.uuid tag
        /\ TMTaskTagRow.tasks link = taskUuid
        /\ TMTagRow.title tag = title.
Proof.
  unfold getTagsForTask. rewrite in_map_iff. split.
  - intros ([tag link] & <- & H). apply filter_In in H. destruct H as [H Htask].
    apply in_flat_map in H. destruct H as (tag' & Htag & H).
    apply in_map_iff in H. destruct H as (link' & Heq & H).
    injection Heq as -> ->. apply filter_In in H. destruct H as [Hlink Hon].
    simpl in *. apply String.eqb_eq in Htask, Hon.
    exists tag, link. tauto.
  - intros (tag & link & Htag & Hlink & Hon & Htask & <-).
    exists (tag, link). split; [reflexivity |].
    apply filter_In. split; [| simpl; apply String.eqb_eq; exact Htask].
    apply in_flat_map. exists tag. split; [exact Htag |].
    apply in_map. apply filter_In. split; [exact Hlink |].
    apply String.eqb_eq. exact Hon.
Qed.

End RelatedFacts.



(** X8. Every to-do that [getTodosByTag] returns for a tag name is an
    incomplete to-do, and the tag list the row decoder attaches to it
    contains that name. *)
Theorem getTodosByTag_tagged (db : Database) (nowMs : Z) (cache : Cache)
    (tagName : string) (todos : list Todo.t) :
  fst (getTodosByTag db nowMs tagName cache) = Ok todos ->
  Forall (fun todo =>
            In tagName (Todo.tags todo)
            /\ Todo.status todo = incomplete
            /\ Todo.type todo = kind_to_do) todos.
Proof.
  unfold getTodosByTag. intros Hrun. rewrite mapM_rowToTodo_run in Hrun.
  eapply decodedAll_Forall; [exact Hrun |].
  intros row todo Hrow Hdec.
  pose proof (decoded_plain_fields _ _ _ _ _ Hdec) as (_ & -> & -> & _).
  apply decoded_join_fields in Hdec. destruct Hdec as (_ & _ & _ & _ & -> & _).
  unfold tagRows in Hrow. apply in_map_iff in Hrow.
  destruct Hrow as ([j tag] & <- & Hr). simpl.
  apply (Permutation_in _ (orderByDesc_perm _ _ _)) in Hr.
  apply filter_In in Hr. destruct Hr as [Hr Hw]. simpl in Hw.
  rewrite !andb_true_iff, !Z.eqb_eq, String.eqb_eq in Hw.
  destruct Hw as [[[Htitle ->] _] ->].
  apply in_flat_map in Hr. destruct Hr as (j' & _ & Hr).
  apply in_flat_map in Hr. destruct Hr as (link & Hlink & Hr).
  apply in_map_iff in Hr. destruct Hr as (tag' & Heq & Htag).
  injection Heq as Hj Ht. subst j' tag'.
  apply filter_In in Hlink. destruct Hlink as [Hlink Htasks].
  apply filter_In in Htag. destruct Htag as [Htag Htags].
  apply String.eqb_eq in Htasks, Htags.
  split; [| split; reflexivity].
  apply getTagsForTask_In. exists tag, link. tauto.
Qed.

Lemma getTodosByTag_tagged_witness :
  exists todos,
    fst (getTodosByTag Office.store Sample.noon "urgent" None) = Ok todos
    /\ map Todo.uuid todos = ["T1"]
    /\ Forall (fun todo =>
                 In "urgent" (Todo.tags todo)
                 /\ Todo.status todo = incomplete
                 /\ Todo.type todo = kind_to_do) todos.
Proof.
  eexists. split; [vm_compute; reflexivity |]. split; [reflexivity |].
  apply (getTodosByTag_tagged Office.store Sample.noon None "urgent").
  vm_compute. reflexivity.
Defined.

Lemma statusToString_cases (status : Z) :
  statusToString status
  = match status with
    | 3 => completed
    | 2 => canceled
    | _ => incomplete
    end.
Proof.
  unfold statusToString, STATUS.COMPLETED, STATUS.CANCELED.
  destruct status as [|[q|[q|q|]|]|q]; try reflexivity; destruct q; reflexivity.
Qed.

(** X9. The checklist of a task consists of the items the store keeps
    for that task and of no others, one entry per item, in ascending
    order of their index, items without an index first; each entry keeps
    the identifier and the title of its item and shows its status by
    name. *)
Theorem getChecklistForTask_items (db : Database) (taskUuid : string) :
  exists rows,
    Permutation rows
      (List.filter (fun r => bool_decide (TMChecklistItemRow.task r = Some taskUuid))
         (TMChecklistItem db))
    /\ StronglySorted
         (fun r1 r2 =>
            nullsFirst (TMChecklistItemRow.index r1) (TMChecklistItemRow.index r2))
         rows
    /\ Forall2
         (fun r item =>
            TMChecklistItemRow.task r = Some taskUuid
            /\ ChecklistItem.uuid item = TMChecklistItemRow.uuid r
            /\ ChecklistItem.title item = TMChecklistItemRow.title r
            /\ ChecklistItem.status item
               = match TMChecklistItemRow.status r with
                 | 3 => completed
                 | 2 => canceled
                 | _ => incomplete
                 end)
         rows (getChecklistForTask db taskUuid).
Proof.
  unfold getChecklistForTask.
  assert (Hsame : forall r,
             bool_decide (TMChecklistItemRow.task r = Some taskUuid)
             = Sql.eqText (TMChecklistItemRow.task r) taskUuid).
  { intros r. unfold Sql.eqText.
    destruct (TMChecklistItemRow.task r) as [u|].
    - destruct (String.eqb_spec u taskUuid) as [-> | Hne].
      + apply bool_decide_eq_true_2. reflexivity.
      + apply bool_decide_eq_false_2. congruence.
    - apply bool_decide_eq_false_2. discriminate. }
  rewrite (List.filter_ext _ _ Hsame).
  set (kept := List.filter _ (TMChecklistItem db)).
  exists (Sql.orderByAsc Sql.intLe TMChecklistItemRow.index kept).
  split; [apply orderByAsc_perm |]. split.
  - eapply StronglySorted_weaken;
      [| unfold Sql.orderByAsc; apply stableSort_strongly_sorted;
         [intros x y; apply intLe_total | intros x y z; apply intLe_trans]].
    intros r1 r2. unfold Sql.intLe, nullsFirst.
    destruct (TMChecklistItemRow.index r1), (TMChecklistItemRow.index r2);
      try tauto; try discriminate. apply Z.leb_le.
  - assert (Hkept : forall r,
               In r (Sql.orderByAsc Sql.intLe TMChecklistItemRow.index kept) ->
               TMChecklistItemRow.task r = Some taskUuid).
    { intros r Hr. apply sorted_sub in Hr. apply filter_In in Hr.
      destruct Hr as [_ Hr]. unfold Sql.eqText in Hr.
      destruct (TMChecklistItemRow.task r) as [u|]; [| discriminate].
      apply String.eqb_eq in Hr. congruence. }
    induction (Sql.orderByAsc Sql.intLe TMChecklistItemRow.index kept) as [|r rows IH];
      simpl; constructor.
    + split; [apply Hkept; left; reflexivity |].
      split; [reflexivity |]. split; [reflexivity |]. apply statusToString_cases.
    + apply IH. intros r' Hr'. apply Hkept. right. exact Hr'.
Qed.

(** ** The calibration cache *)

Section SettledFacts.
Variable db : Database.
Variable nowMs : Z.

Lemma settled_rowToProject (row : TMTaskRow.t * option TMAreaRow.t) :
  settled db nowMs (rowToProject db nowMs row).
Proof.
  unfold rowToProject.
  apply settled_bind; [apply settled_schedule | intros startDate].
  apply settled_bind; [apply settled_schedule | intros deadline].
  repeat (apply settled_bind; [apply settled_lift | intros ?]).
  apply settled_ret.
Qed.

Lemma settled_rows (rows : list RawTaskRow.t) :
  settled db nowMs (mapM (rowToTodo db nowMs) rows).
Proof. apply settled_mapM. apply settled_rowToTodo. Qed.

Lemma settled_after_calibrate {A} (f : Z -> M A) (cache : Cache) :
  (forall offset, settled db nowMs (f offset)) ->
  snd (bind (calibrateStartDateEpoch db nowMs) f cache)
  = Some (calibrated db nowMs cache).
Proof.
  intros Hf. unfold bind. rewrite calibrate_run.
  apply (settled_Some db nowMs). apply Hf.
Qed.

End SettledFacts.

(** X10. Every query function reads the calibration cache only through
    the offset in force: it returns, or throws, what it would with that
    offset already cached, and it leaves the cache as it found it or
    filled with that offset, so that a cached offset is never replaced.
    The today and upcoming views always leave the cache filled. *)
Theorem queries_keep_cache (db : Database) (nowMs : Z) :
  (forall list, settled db nowMs (getTodosByList db nowMs list))
  /\ (forall uuid, settled db nowMs (getTodoByUuid db nowMs uuid))
  /\ (forall query, settled db nowMs (searchTodos db nowMs query))
  /\ settled db nowMs (getProjects db nowMs)
  /\ (forall uuid, settled db nowMs (getProjectByUuid db nowMs uuid))
  /\ (forall tagName, settled db nowMs (getTodosByTag db nowMs tagName))
  /\ (forall cache,
        snd (getTodosByList db nowMs "today" cache) = Some (calibrated db nowMs cache)
        /\ snd (getTodosByList db nowMs "upcoming" cache)
           = Some (calibrated db nowMs cache)).
Proof.
  repeat split.
  - intros list. unfold getTodosByList.
    repeat match goal with
           | |- context [String.eqb list ?name] => destruct (String.eqb list name)
           end;
      try apply settled_rows;
      (apply settled_bind; [apply settled_calibrate | intros offset; apply settled_rows]).
  - intros uuid. unfold getTodoByUuid.
    destruct (taskQuery db _ _) as [|row rows]; [apply settled_ret |].
    apply settled_bind; [apply settled_rowToTodo | intros todo; apply settled_ret].
  - intros query. apply settled_rows.
  - unfold getProjects. apply settled_mapM. apply settled_rowToProject.
  - intros uuid. unfold getProjectByUuid.
    destruct (List.filter _ (projectFrom db)) as [|row rows]; [apply settled_ret |].
    apply settled_bind; [apply settled_rowToProject | intros project].
    apply settled_bind; [apply settled_rows | intros todos; apply settled_ret].
  - intros tagName. apply settled_rows.
  - unfold getTodosByList. cbn [String.eqb Ascii.eqb Bool.eqb].
    apply settled_after_calibrate. intros offset. apply settled_rows.
  - unfold getTodosByList. cbn [String.eqb Ascii.eqb Bool.eqb].
    apply settled_after_calibrate. intros offset. apply settled_rows.
Qed.

(** ** Areas and tags *)

(** X11. [getAreas] and [getTags] return every row of their table once,
    in ascending order of title. *)
Theorem getAreas_getTags_sorted (db : Database) :
  Permutation (getAreas db) (TMArea db)
  /\ Sorted (fun x y => String.leb (TMAreaRow.title x) (TMAreaRow.title y) = true)
       (getAreas db)
  /\ Permutation (getTags db) (TMTag db)
  /\ Sorted (fun x y => String.leb (TMTagRow.title x) (TMTagRow.title y) = true)
       (getTags db).
Proof.
  unfold getAreas, getTags. repeat split.
  - apply stableSort_perm.
  - apply (stableSort_sorted
             (fun x y => String.leb (TMAreaRow.title x) (TMAreaRow.title y))).
    intros x y. apply String.leb_total.
  - apply stableSort_perm.
  - apply (stableSort_sorted
             (fun x y => String.leb (TMTagRow.title x) (TMTagRow.title y))).
    intros x y. apply String.leb_total.
Qed.

(** ** Calendar dates *)

Lemma noT_append (s1 s2 : string) :
  noT (String.append s1 s2) = noT s1 && noT s2.
Proof.
  induction s1 as [|c s1 IH]; simpl; [reflexivity |].
  rewrite IH, andb_assoc. reflexivity.
Qed.

Lemma beforeT_append (s rest : string) :
  noT s = true ->
  JsDate.beforeT (String.append s rest) = String.append s (JsDate.beforeT rest).
Proof.
  induction s as [|c s IH]; simpl; [reflexivity |].
  intros H. apply andb_true_iff in H. destruct H as [Hc Hs].
  apply negb_true_iff in Hc. rewrite Hc, (IH Hs). reflexivity.
Qed.

Lemma append_empty_r (s : string) : String.append s EmptyString = s.
Proof.
  induction s as [|c s IH]; [reflexivity |].
  change (String c (String.append s EmptyString) = String c s).
  rewrite IH. reflexivity.
Qed.

Lemma noT_decimal (n : Z) : noT (JsDate.decimal n) = true.
Proof.
  unfold JsDate.decimal.
  assert (H : forall u, noT (NilEmpty.string_of_uint u) = true).
  { induction u; simpl; try reflexivity; exact IHu. }
  destruct (N.to_uint (Z.to_N n)) eqn:Hu; try reflexivity;
    unfold NilZero.string_of_uint; apply H.
Qed.

Lemma noT_pad (width : nat) (n : Z) : noT (JsDate.pad width n) = true.
Proof.
  unfold JsDate.pad. rewrite noT_append, noT_decimal, andb_true_r.
  induction (width - String.length (JsDate.decimal n))%nat as [|k IH];
    simpl; [reflexivity | exact IH].
Qed.

Lemma noT_yearString (y : Z) : noT (JsDate.yearString y) = true.
Proof.
  unfold JsDate.yearString.
  destruct ((0 <=? y) && (y <=? 9999)); [apply noT_pad |].
  rewrite noT_append, noT_pad. destruct (y <? 0); reflexivity.
Qed.

Lemma toISOString_date (ms : Z) :
  validTime ms ->
  exc_bind (JsDate.toISOString (JsDate.newDate ms))
           (fun iso => Ok (JsDate.beforeT iso))
  = Ok (calendarDate (ms / 86400000)).
Proof.
  unfold validTime, JsDate.newDate. intros H.
  apply Z.leb_le in H. rewrite H. unfold JsDate.toISOString.
  change JsDate.msPerDay with 86400000.
  unfold calendarDate.
  destruct (JsDate.civilFromDays (ms / 86400000)) as [[y m] d].
  cbn [exc_bind]. f_equal. cbn [String.concat].
  repeat (rewrite beforeT_append
            by first [apply noT_yearString | apply noT_pad | reflexivity]).
  change (JsDate.beforeT (String.append "T" ?rest)) with EmptyString.
  change (String.append EmptyString ?x) with x.
  rewrite append_empty_r. reflexivity.
Qed.

(** X12. A schedule value decodes to the calendar date of the day it
    falls in once the offset in force is added: the time of day is
    dropped, and nothing but the year, month and day is returned. A value
    outside the range of [Date] raises a [RangeError]; a null value
    decodes to null. *)
Theorem thingsScheduleDateToString_day (db : Database) (nowMs : Z)
    (cache : Cache) (raw : Z) :
  let offset := calibrated db nowMs cache in
  (validTime ((raw + offset) * 1000) ->
   fst (thingsScheduleDateToString db nowMs (Some raw) cache)
   = Ok (Some (calendarDate ((raw + offset) / 86400))))
  /\ (~ validTime ((raw + offset) * 1000) ->
      fst (thingsScheduleDateToString db nowMs (Some raw) cache) = Throw RangeError)
  /\ fst (thingsScheduleDateToString db nowMs None cache) = Ok None.
Proof.
  intros offset.
  assert (Hrun : fst (thingsScheduleDateToString db nowMs (Some raw) cache)
                 = decodedDateOpt offset (Some raw)).
  { rewrite (settled_run db nowMs _ cache (settled_schedule db nowMs (Some raw))).
    fold offset. rewrite schedule_Some. reflexivity. }
  rewrite Hrun. unfold decodedDateOpt, decodedDate. repeat split.
  - intros Hvalid. rewrite (toISOString_date _ Hvalid).
    change 86400000 with (86400 * 1000).
    rewrite Z.div_mul_cancel_r by lia. reflexivity.
  - intros Hinvalid. unfold validTime in Hinvalid. unfold JsDate.newDate.
    destruct (Z.leb_spec (Z.abs ((raw + offset) * 1000)) JsDate.maxTime);
      [contradiction | reflexivity].
Qed.

(** X13. An offset that calibration has just inferred is a whole number
    of days, and under it the start date the calibration read, the latest
    one among the scheduled tasks, falls on the day of the clock: it
    decodes to today's date. *)
Theorem fresh_calibration_is_today (db : Database) (nowMs : Z) :
  calibrated db nowMs None mod 86400 = 0
  /\ forall latest,
       calibrationRow db = Some (Some latest) ->
       (latest + calibrated db nowMs None) / 86400 = nowMs / 86400000
       /\ (validTime ((latest + calibrated db nowMs None) * 1000) ->
           fst (thingsScheduleDateToString db nowMs (Some latest) None)
           = Ok (Some (calendarDate (nowMs / 86400000)))).
Proof.
  assert (Hoff : calibrated db nowMs None
                 = match calibrationRow db with
                   | Some startDate =>
                       todayMidnightUnix nowMs - toNumber startDate / 86400 * 86400
                   | None => 1637712000
                   end) by reflexivity.
  split.
  - rewrite Hoff. destruct (calibrationRow db) as [startDate|]; [| reflexivity].
    unfold todayMidnightUnix. rewrite <- Z.mul_sub_distr_r. apply Z.mod_mul. lia.
  - intros latest Hrow.
    assert (Hday : (latest + calibrated db nowMs None) / 86400 = nowMs / 86400000).
    { rewrite Hoff, Hrow. unfold todayMidnightUnix, toNumber, orElse.
      symmetry. apply (Z.div_unique _ _ _ (latest mod 86400)).
      - left. apply Z.mod_pos_bound. lia.
      - pose proof (Z.div_mod latest 86400). lia. }
    split; [exact Hday |]. intros Hvalid.
    assert (Hrun : fst (thingsScheduleDateToString db nowMs (Some latest) None)
                   = decodedDateOpt (calibrated db nowMs None) (Some latest)).
    { rewrite (settled_run db nowMs _ None (settled_schedule db nowMs (Some latest))).
      rewrite schedule_Some. reflexivity. }
    rewrite Hrun. unfold decodedDateOpt, decodedDate.
    rewrite (toISOString_date _ Hvalid).
    change 86400000 with (86400 * 1000) at 1.
    rewrite Z.div_mul_cancel_r by lia. rewrite Hday. reflexivity.
Qed.

(** ** Templates across the today and upcoming views *)



(** ** The project list *)

Section ProjectListFacts.
Variable db : Database.
Variable nowMs : Z.

Lemma projectFrom_once :
  List.NoDup (map TMAreaRow.uuid (TMArea db)) ->
  map fst (projectFrom db) = TMTask db.
Proof.
  intros Hareas. unfold projectFrom.
  induction (TMTask db) as [|task tasks IH]; simpl; [reflexivity |].
  rewrite map_app, IH.
  destruct (leftJoin_unique TMAreaRow.uuid (TMTaskRow.area task) (TMArea db) Hareas)
    as [a ->].
  reflexivity.
Qed.

Lemma projects_Forall2 (rows : list (TMTaskRow.t * option TMAreaRow.t))
    (cache : Cache) (projects : list Project.t) :
  fst (mapM (rowToProject db nowMs) rows cache) = Ok projects ->
  Forall2
    (fun row project =>
       Project.uuid project = TMTaskRow.uuid (fst row)
       /\ Project.status project = statusToString (TMTaskRow.status (fst row))
       /\ Project.todoCount project = todoCount db (fst row))
    rows projects.
Proof.
  intros H. apply mapM_Ok in H.
  induction H as [|row project rows projects (c & c' & Hrow) _ IH]; constructor;
    [| exact IH].
  assert (Hfields := rowToProject_fields db nowMs row c project).
  rewrite Hrow in Hfields. destruct (Hfields eq_refl) as (Hu & Hs & _ & _ & _ & Hc).
  auto.
Qed.

End ProjectListFacts.

(** X15. With unique area identifiers [getProjects] lists every project
    that is incomplete and not trashed exactly once, and nothing else;
    each entry is marked incomplete, and its [todoCount] is the number of
    to-dos, not trashed, that name it as their project. *)
Theorem getProjects_listed (db : Database) (nowMs : Z) (cache : Cache)
    (projects : list Project.t) :
  List.NoDup (map TMAreaRow.uuid (TMArea db)) ->
  fst (getProjects db nowMs cache) = Ok projects ->
  Permutation (map Project.uuid projects)
    (map TMTaskRow.uuid
       (List.filter
          (fun t =>
             (TMTaskRow.type t =? TYPE.PROJECT)
             && (TMTaskRow.trashed t =? 0)
             && (TMTaskRow.status t =? STATUS.INCOMPLETE))
          (TMTask db)))
  /\ Forall
       (fun project =>
          Project.status project = incomplete
          /\ Project.todoCount project
             = Z.of_nat
                 (length
                    (List.filter
                       (fun sub =>
                          Sql.eqText (TMTaskRow.project sub) (Project.uuid project)
                          && (TMTaskRow.type sub =? TYPE.TODO)
                          && (TMTaskRow.trashed sub =? 0))
                       (TMTask db))))
       projects.
Proof.
  intros Hareas Hrun. unfold getProjects in Hrun.
  apply projects_Forall2 in Hrun.
  set (keep := fun t : TMTaskRow.t =>
                 (TMTaskRow.type t =? TYPE.PROJECT)
                 && (TMTaskRow.trashed t =? 0)
                 && (TMTaskRow.status t =? STATUS.INCOMPLETE)).
  set (rows := Sql.orderByAsc Sql.textLe _ _) in Hrun.
  assert (Hperm : Permutation rows
                    (List.filter (fun r => keep (fst r)) (projectFrom db)))
    by apply orderByAsc_perm.
  split.
  - assert (Huuids : map Project.uuid projects
                     = map TMTaskRow.uuid (map fst rows)).
    { clear Hperm. induction Hrun as [|row project rs ps (Hu & _) _ IH]; simpl;
        [reflexivity |].
      rewrite Hu, IH. reflexivity. }
    rewrite Huuids. apply Permutation_map.
    rewrite <- (projectFrom_once db Hareas).
    rewrite <- (filter_map_comm fst keep).
    apply Permutation_map. exact Hperm.
  - assert (Hkept : forall row, In row rows -> keep (fst row) = true).
    { intros row Hrow. apply (Permutation_in _ Hperm) in Hrow.
      apply filter_In in Hrow. tauto. }
    clear Hperm.
    induction Hrun as [|row project rs ps (Hu & Hs & Hc) _ IH]; constructor.
    + rewrite Hs, Hc, Hu. split; [| reflexivity].
      specialize (Hkept row (or_introl eq_refl)). unfold keep in Hkept.
      rewrite !andb_true_iff, !Z.eqb_eq in Hkept. destruct Hkept as [_ ->].
      reflexivity.
    + apply IH. intros row' Hrow'. apply Hkept. right. exact Hrow'.
Qed.

Lemma getProjects_listed_witness :
  exists projects,
    fst (getProjects Office.store Sample.noon None) = Ok projects
    /\ map Project.uuid projects = ["P"]
    /\ map Project.todoCount projects = [2]
    /\ Forall (fun project => Project.status project = incomplete) projects.
Proof.
  eexists. split; [vm_compute; reflexivity |]. split; [reflexivity |].
  split; [reflexivity |].
  destruct (getProjects_listed Office.store Sample.noon None _
              ltac:(vm_compute; repeat constructor; simpl; intuition discriminate)
              eq_refl) as [_ Hall].
  eapply List.Forall_impl; [| exact Hall]. intros project [Hs _]. exact Hs.
Defined.

(** * The HTTP layer *)

(** ** Authentication *)

Lemma dropWhile_suffix (p : N -> bool) (s : list N) :
  exists before, s = (before ++ JsText.dropWhile p s)%list.
Proof.
  induction s as [|c s [before IH]]; simpl.
  - exists []. reflexivity.
  - destruct (p c).
    + exists (c :: before). simpl. rewrite <- IH. reflexivity.
    + exists []. reflexivity.
Qed.

Lemma stripLetters_suffix (lit s rest : list N) :
  stripLetters lit s = Some rest -> exists before, s = (before ++ rest)%list.
Proof.
  revert s. induction lit as [|l lit IH]; intros s; simpl.
  - intros H. injection H as ->. exists []. reflexivity.
  - destruct s as [|c s]; [discriminate |].
    destruct (sameLetter l c); [| discriminate].
    intros H. destruct (IH s H) as [before ->]. exists (c :: before). reflexivity.
Qed.

Lemma stripBearer_suffix (authHeader : list N) :
  exists before, authHeader = (before ++ stripBearer authHeader)%list.
Proof.
  unfold stripBearer.
  destruct (stripLetters (JsText.codes "bearer") authHeader) as [[|c rest]|] eqn:Hs;
    try (exists []; reflexivity).
  destruct (JsText.isWhiteSpace c); [| exists []; reflexivity].
  apply stripLetters_suffix in Hs. destruct Hs as [scheme ->].
  destruct (dropWhile_suffix JsText.isWhiteSpace rest) as [space Hrest].
  exists (scheme ++ c :: space)%list.
  rewrite <- app_assoc. simpl. rewrite <- Hrest. reflexivity.
Qed.

Lemma stripLetters_app (lit scheme rest : list N) :
  stripLetters lit scheme = Some [] ->
  stripLetters lit (scheme ++ rest) = Some rest.
Proof.
  revert scheme. induction lit as [|l lit IH]; intros scheme; simpl.
  - intros H. injection H as ->. reflexivity.
  - destruct scheme as [|c scheme]; [discriminate |]. simpl.
    destruct (sameLetter l c); [apply IH | discriminate].
Qed.

Lemma stripLetters_anyCase (lit scheme : list N) :
  anyCase lit scheme -> stripLetters lit scheme = Some [].
Proof.
  induction 1 as [|l c lit scheme Hc _ IH]; simpl; [reflexivity |].
  unfold sameLetter.
  destruct Hc as [-> | ->]; rewrite N.eqb_refl, ?orb_true_r; exact IH.
Qed.

(** X16. A request is let through when its header is the word Bearer,
    in any mix of cases, then white space, then the configured token,
    provided the token is not empty and does not start with white space
    (which the pattern would swallow). *)
Theorem requireAuth_accepts_bearer (configToken scheme space : list N)
    (pathname : string) :
  configToken <> [] ->
  match configToken with c :: _ => JsText.isWhiteSpace c = false | [] => True end ->
  anyCase (JsText.codes "bearer") scheme ->
  space <> [] ->
  Forall (fun c => JsText.isWhiteSpace c = true) space ->
  requireAuth configToken pathname (Some (scheme ++ space ++ configToken)%list) = None.
Proof.
  intros Hset Hhead Hscheme Hsome Hspace. apply stripLetters_anyCase in Hscheme.
  unfold requireAuth.
  destruct (String.eqb pathname "/health" || String.eqb pathname "/v1/capabilities");
    [reflexivity |].
  destruct configToken as [|t0 token]; [contradiction |].
  assert (Hstrip : stripBearer (scheme ++ space ++ t0 :: token)%list = t0 :: token).
  { unfold stripBearer. rewrite (stripLetters_app _ _ _ Hscheme).
    destruct space as [|c space]; [contradiction |].
    inversion Hspace as [|? ? Hc Hrest]; subst. simpl. rewrite Hc.
    apply dropWhile_app; assumption. }
  destruct (scheme ++ space ++ t0 :: token)%list as [|h0 header] eqn:Hheader.
  - destruct scheme; destruct space; discriminate || contradiction.
  - rewrite Hstrip. rewrite bool_decide_eq_true_2 by reflexivity. reflexivity.
Qed.

Lemma requireAuth_accepts_bearer_witness :
  requireAuth (JsText.codes "s3cret") "/v1/todos"
    (Some (JsText.codes "BEARER" ++ [32; 9] ++ JsText.codes "s3cret")%list)%N
  = None.
Proof.
  apply (requireAuth_accepts_bearer (JsText.codes "s3cret") (JsText.codes "BEARER")
           [32; 9]%N "/v1/todos").
  - discriminate.
  - reflexivity.
  - repeat (constructor; [right; reflexivity |]). constructor.
  - discriminate.
  - repeat constructor.
Defined.

(** X17. Outside the two discovery paths a request passes only if a
    token is configured and the header ends with it: without the token
    nothing is let through. *)
Theorem requireAuth_pass_presents_token (configToken : list N) (pathname : string)
    (authorization : option (list N)) :
  requireAuth configToken pathname authorization = None ->
  pathname = "/health" \/ pathname = "/v1/capabilities"
  \/ (configToken <> []
      /\ exists before, authorization = Some (before ++ configToken)%list).
Proof.
  unfold requireAuth.
  destruct (String.eqb_spec pathname "/health") as [-> | _]; [left; reflexivity |].
  destruct (String.eqb_spec pathname "/v1/capabilities") as [-> | _];
    [right; left; reflexivity |].
  simpl. destruct configToken as [|t0 token]; [discriminate |].
  destruct authorization as [[|h0 header]|]; try discriminate.
  destruct (bool_decide_reflect (stripBearer (h0 :: header) = t0 :: token))
    as [Heq | _]; [| discriminate].
  intros _. right. right. split; [discriminate |].
  destruct (stripBearer_suffix (h0 :: header)) as [before Hbefore].
  exists before. rewrite <- Heq, <- Hbefore. reflexivity.
Qed.

Lemma requireAuth_pass_presents_token_witness :
  (exists before,
      Some (JsText.codes "Bearer s3cret") = Some (before ++ JsText.codes "s3cret")%list).
Proof.
  destruct (requireAuth_pass_presents_token (JsText.codes "s3cret") "/v1/todos"
              (Some (JsText.codes "Bearer s3cret")) eq_refl)
    as [H | [H | [_ H]]]; [discriminate | discriminate | exact H].
Defined.

(** ** Routes *)

Lemma append_cons (c : ascii) (s1 s2 : string) :
  String.append (String c s1) s2 = String c (String.append s1 s2).
Proof. reflexivity. Qed.

Lemma append_assoc (s1 s2 s3 : string) :
  String.append (String.append s1 s2) s3 = String.append s1 (String.append s2 s3).
Proof.
  induction s1 as [|c s1 IH]; [reflexivity |].
  rewrite !append_cons, IH. reflexivity.
Qed.

Lemma split_nonempty (s : string) : split s <> [].
Proof.
  destruct s as [|c s]; simpl; [discriminate |].
  destruct (Ascii.eqb c "/"); [discriminate |].
  destruct (split s); discriminate.
Qed.

Lemma split_single (s : string) : noSlash s = true -> split s = [s].
Proof.
  induction s as [|c s IH]; simpl; [reflexivity |].
  intros H. apply andb_true_iff in H. destruct H as [Hc Hs].
  apply negb_true_iff in Hc. rewrite Hc, (IH Hs). reflexivity.
Qed.

Lemma split_noSlash (s : string) : Forall (fun part => noSlash part = true) (split s).
Proof.
  induction s as [|c s IH]; simpl; [repeat constructor |].
  destruct (Ascii.eqb c "/") eqn:Hc; [constructor; [reflexivity | exact IH] |].
  destruct (split s) as [|part parts]; simpl.
  - repeat constructor. simpl. rewrite Hc. reflexivity.
  - inversion IH as [|? ? Hpart Hparts]; subst. constructor; [| exact Hparts].
    simpl. rewrite Hc, Hpart. reflexivity.
Qed.

Lemma concat_cons (x y : string) (l : list string) :
  String.concat "/" (x :: y :: l)
  = String.append x (String "/" (String.concat "/" (y :: l))).
Proof. reflexivity. Qed.

Lemma split_join (s : string) : String.concat "/" (split s) = s.
Proof.
  induction s as [|c s IH]; simpl; [reflexivity |].
  pose proof (split_nonempty s) as Hne.
  destruct (split s) as [|part parts]; [contradiction |].
  destruct (Ascii.eqb_spec c "/") as [-> | _].
  - rewrite concat_cons, IH. reflexivity.
  - simpl consHead. destruct parts as [|part' parts].
    + simpl in *. rewrite IH. reflexivity.
    + rewrite concat_cons, append_cons. rewrite concat_cons in IH. rewrite IH.
      reflexivity.
Qed.

Lemma split_append (x rest : string) :
  noSlash x = true -> split (String.append x (String "/" rest)) = x :: split rest.
Proof.
  induction x as [|c x IH]; [reflexivity |].
  intros H. simpl in H. apply andb_true_iff in H. destruct H as [Hc Hx].
  apply negb_true_iff in Hc. rewrite append_cons. simpl split.
  rewrite Hc, (IH Hx). reflexivity.
Qed.

Lemma split_concat (parts : list string) :
  parts <> [] ->
  Forall (fun part => noSlash part = true) parts ->
  split (String.concat "/" parts) = parts.
Proof.
  intros Hne Hparts. induction Hparts as [|x parts Hx Hparts IH]; [contradiction |].
  destruct parts as [|y parts].
  - apply split_single. exact Hx.
  - rewrite concat_cons, (split_append _ _ Hx), IH; [reflexivity | discriminate].
Qed.

Lemma matchParts_literals (lits rest pathRest : list string)
    (params : gmap string string) :
  Forall fixedPart lits ->
  matchParts (lits ++ rest) (lits ++ pathRest) params = matchParts rest pathRest params.
Proof.
  induction 1 as [|part lits [_ Hpart] _ IH]; simpl; [reflexivity |].
  rewrite Hpart, String.eqb_refl. exact IH.
Qed.

Lemma matchParts_literals_inv (lits rest pathParts : list string)
    (params out : gmap string string) :
  Forall fixedPart lits ->
  matchParts (lits ++ rest) pathParts params = Some out ->
  exists pathRest,
    pathParts = (lits ++ pathRest)%list /\ matchParts rest pathRest params = Some out.
Proof.
  intros Hlits. revert pathParts.
  induction Hlits as [|part lits [_ Hpart] _ IH]; intros pathParts; simpl.
  - intros H. exists pathParts. split; [reflexivity | exact H].
  - destruct pathParts as [|value pathParts]; [discriminate |].
    rewrite Hpart. destruct (String.eqb_spec part value) as [<- | _]; [| discriminate].
    intros H. destruct (IH _ H) as (pathRest & -> & Hrest).
    exists pathRest. split; [reflexivity | exact Hrest].
Qed.

Lemma matchRoute_param (before after : list string) (key pathname : string)
    (params : gmap string string) :
  Forall fixedPart before ->
  Forall fixedPart after ->
  noSlash key = true ->
  key <> "__proto__" ->
  matchRoute pathname (String.concat "/" (before ++ [String ":" key] ++ after)%list)
  = Some params
  <-> exists value,
        noSlash value = true
        /\ pathname = String.concat "/" (before ++ [value] ++ after)%list
        /\ params = {[ key := value ]}.
Proof.
  intros Hbefore Hafter Hkey Hown.
  apply String.eqb_neq in Hown.
  assert (HnoSlash : forall segment,
             noSlash segment = true ->
             Forall (fun part => noSlash part = true)
               (before ++ [segment] ++ after)%list).
  { intros segment Hsegment. apply Forall_app. split.
    - eapply List.Forall_impl; [| exact Hbefore]. intros part [Hpart _]. exact Hpart.
    - constructor; [exact Hsegment |].
      eapply List.Forall_impl; [| exact Hafter]. intros part [Hpart _]. exact Hpart. }
  assert (Hne : forall segment, (before ++ [segment] ++ after)%list <> []).
  { intros segment. destruct before; discriminate. }
  assert (Hpattern : split (String.concat "/" (before ++ [String ":" key] ++ after)%list)
                     = (before ++ [String ":" key] ++ after)%list).
  { apply split_concat; [apply Hne | apply HnoSlash; exact Hkey]. }
  unfold matchRoute. rewrite Hpattern. split.
  - destruct (Nat.eqb_spec (length (before ++ [String ":" key] ++ after)%list)
                (length (split pathname))) as [Hlen | _]; [| discriminate].
    simpl negb. cbv iota. intros Hmatch.
    apply matchParts_literals_inv in Hmatch; [| exact Hbefore].
    destruct Hmatch as (pathRest & Hpath & Hmatch).
    destruct pathRest as [|value pathRest]; [discriminate |].
    simpl in Hmatch. rewrite Hown in Hmatch.
    rewrite <- (app_nil_r after) in Hmatch.
    apply matchParts_literals_inv in Hmatch; [| exact Hafter].
    destruct Hmatch as (tail & -> & Hmatch).
    rewrite Hpath, !length_app in Hlen. simpl in Hlen. rewrite length_app in Hlen.
    destruct tail as [|extra tail]; [| simpl in Hlen; lia].
    simpl in Hmatch. injection Hmatch as <-.
    rewrite app_nil_r in Hpath.
    exists value. split; [| split].
    + pose proof (split_noSlash pathname) as Hall. rewrite Hpath in Hall.
      apply Forall_app in Hall. destruct Hall as [_ Hall].
      inversion Hall. assumption.
    + rewrite <- (split_join pathname), Hpath. reflexivity.
    + apply insert_empty.
  - intros (value & Hvalue & -> & ->).
    rewrite (split_concat _ (Hne value) (HnoSlash value Hvalue)).
    rewrite !length_app. simpl. rewrite Nat.eqb_refl. simpl.
    rewrite (matchParts_literals _ _ _ _ Hbefore). simpl. rewrite Hown.
    rewrite <- (app_nil_r after) at 1 2.
    rewrite (matchParts_literals _ _ _ _ Hafter). simpl.
    rewrite insert_empty. reflexivity.
Qed.

Lemma literal_fixedPart (part : string) : literal part -> fixedPart part.
Proof.
  intros [Hpart Hname]. split; [exact Hpart |].
  destruct part as [|c name]; [reflexivity |]. simpl.
  destruct (Ascii.eqb_spec c ":") as [-> | _]; [| reflexivity].
  exfalso. apply (Hname name). reflexivity.
Qed.

(** X18. A pattern with literal segments around one named segment
    matches exactly the paths with the same literal segments around one
    segment free of slashes, which may be empty, and binds the name to
    that segment and nothing else. The name is any but [__proto__], under
    which an object keeps no string. *)
Theorem matchRoute_one_param (before after : list string) (key pathname : string)
    (params : gmap string string) :
  Forall literal before ->
  Forall literal after ->
  noSlash key = true ->
  key <> "__proto__" ->
  matchRoute pathname (String.concat "/" (before ++ [String ":" key] ++ after)%list)
  = Some params
  <-> exists value,
        noSlash value = true
        /\ pathname = String.concat "/" (before ++ [value] ++ after)%list
        /\ params = {[ key := value ]}.
Proof.
  intros Hbefore Hafter.
  apply matchRoute_param;
    (eapply List.Forall_impl; [apply literal_fixedPart | assumption]).
Qed.

Lemma matchRoute_one_param_witness :
  matchRoute "/v1/todos/abc123/complete" "/v1/todos/:uuid/complete"
  = Some {[ "uuid" := "abc123" ]}.
Proof.
  apply (matchRoute_one_param [EmptyString; "v1"; "todos"] ["complete"] "uuid"
           "/v1/todos/abc123/complete" {[ "uuid" := "abc123" ]}).
  - repeat constructor; discriminate.
  - repeat constructor; discriminate.
  - reflexivity.
  - discriminate.
  - exists "abc123". repeat split.
Defined.

Lemma firstOf_cons (step : option Call) (steps : list (option Call)) (call : Call) :
  firstOf (step :: steps) = Some call
  <-> step = Some call \/ (step = None /\ firstOf steps = Some call).
Proof.
  destruct step as [c|]; simpl.
  - split; [intros H; left; exact H | intros [H | [H _]]; [exact H | discriminate]].
  - split; [intros H; right; split; [reflexivity | exact H] |].
    intros [H | [_ H]]; [discriminate | exact H].
Qed.

Lemma firstOf_skip (step : option Call) (steps : list (option Call)) :
  step = None -> firstOf (step :: steps) = firstOf steps.
Proof. intros ->. reflexivity. Qed.

Lemma firstOf_hit (step : option Call) (steps : list (option Call)) (call : Call) :
  step = Some call -> firstOf (step :: steps) = Some call.
Proof. intros ->. reflexivity. Qed.

Lemma when_Some (cond : bool) (c call : Call) :
  when cond c = Some call <-> cond = true /\ c = call.
Proof.
  unfold when. destruct cond.
  - split; [intros H; injection H as <-; split; reflexivity |].
    intros [_ <-]. reflexivity.
  - split; [discriminate | intros [H _]; discriminate].
Qed.

Lemma when_None (cond : bool) (c : Call) : when cond c = None <-> cond = false.
Proof. unfold when. destruct cond; split; intros H; try discriminate; reflexivity. Qed.

Lemma whenRoute_Some (pathname pattern : string)
    (calls : gmap string string -> option Call) (call : Call) :
  whenRoute pathname pattern calls = Some call ->
  exists params, matchRoute pathname pattern = Some params /\ calls params = Some call.
Proof.
  unfold whenRoute. destruct (matchRoute pathname pattern) as [params|];
    [| discriminate].
  intros H. exists params. split; [reflexivity | exact H].
Qed.

Lemma whenRoute_miss (pathname pattern : string)
    (calls : gmap string string -> option Call) :
  matchRoute pathname pattern = None -> whenRoute pathname pattern calls = None.
Proof. unfold whenRoute. intros ->. reflexivity. Qed.

Lemma whenRoute_hit (pathname pattern : string)
    (calls : gmap string string -> option Call) (params : gmap string string) :
  matchRoute pathname pattern = Some params ->
  whenRoute pathname pattern calls = calls params.
Proof. unfold whenRoute. intros ->. reflexivity. Qed.

(** The two shapes of pattern in use. *)
Lemma matchRoute_item (collection pathname : string) (params : gmap string string) :
  fixedPart collection ->
  matchRoute pathname
    (String.concat "/" [EmptyString; "v1"; collection; String ":" "uuid"])
  = Some params
  <-> exists id,
        noSlash id = true
        /\ pathname = String.concat "/" [EmptyString; "v1"; collection; id]
        /\ params = {[ "uuid" := id ]}.
Proof.
  intros Hc.
  apply (matchRoute_param [EmptyString; "v1"; collection] [] "uuid").
  - repeat constructor; apply Hc.
  - constructor.
  - reflexivity.
  - discriminate.
Qed.

Lemma matchRoute_action (collection key action pathname : string)
    (params : gmap string string) :
  fixedPart collection -> fixedPart action -> noSlash key = true ->
  key <> "__proto__" ->
  matchRoute pathname
    (String.concat "/" [EmptyString; "v1"; collection; String ":" key; action])
  = Some params
  <-> exists id,
        noSlash id = true
        /\ pathname = String.concat "/" [EmptyString; "v1"; collection; id; action]
        /\ params = {[ key := id ]}.
Proof.
  intros Hc Ha Hk Hown.
  apply (matchRoute_param [EmptyString; "v1"; collection] [action] key).
  - repeat constructor; apply Hc.
  - repeat constructor; apply Ha.
  - exact Hk.
  - exact Hown.
Qed.

Lemma item_path (collection pathname id : string) :
  fixedPart collection -> noSlash id = true ->
  pathname = String.concat "/" [EmptyString; "v1"; collection; id] ->
  split pathname = [EmptyString; "v1"; collection; id].
Proof.
  intros [Hc _] Hid ->. apply split_concat; [discriminate |].
  repeat constructor; assumption.
Qed.

Lemma action_path (collection action pathname id : string) :
  fixedPart collection -> fixedPart action -> noSlash id = true ->
  pathname = String.concat "/" [EmptyString; "v1"; collection; id; action] ->
  split pathname = [EmptyString; "v1"; collection; id; action].
Proof.
  intros [Hc _] [Ha _] Hid ->. apply split_concat; [discriminate |].
  repeat constructor; assumption.
Qed.

Lemma other_path (pathname fixed : string) (parts : list string) :
  split pathname = parts -> split fixed <> parts ->
  String.eqb pathname fixed = false.
Proof.
  intros Hsplit Hother. apply String.eqb_neq. intros ->. contradiction.
Qed.

Lemma other_pattern (pathname pattern : string) (parts : list string) :
  split pathname = parts ->
  (if negb (length (split pattern) =? length parts)%nat then None
   else matchParts (split pattern) parts ∅) = None ->
  matchRoute pathname pattern = None.
Proof. unfold matchRoute. intros ->. intros H. exact H. Qed.

(** A step of the cascade that cannot return the call in question. *)
Ltac absurd_when H :=
  apply when_Some in H; destruct H as [_ H]; discriminate.

Ltac absurd_step H :=
  first
    [ absurd_when H
    | apply whenRoute_Some in H; destruct H as (? & _ & H); cbv beta in H;
      first
        [ absurd_when H
        | repeat (apply firstOf_cons in H; destruct H as [H | [_ H]];
                  [absurd_when H |]);
          discriminate ] ].

Ltac cascade H :=
  repeat (apply firstOf_cons in H;
          let Hn := fresh "Hnone" in
          destruct H as [H | [Hn H]]; [try solve [absurd_step H] |]);
  try discriminate.

(** A step of the cascade that a path with known segments does not
    take. *)
Ltac miss Hsplit :=
  first
    [ apply when_None; apply andb_false_intro2; reflexivity
    | apply when_None; apply andb_false_intro1;
      apply (other_path _ _ _ Hsplit); simpl split;
      first [discriminate | intros Heq; injection Heq as Heq; congruence]
    | apply whenRoute_miss; apply (other_pattern _ _ _ Hsplit); reflexivity ].

Ltac skip_steps Hsplit :=
  unfold route; repeat (rewrite firstOf_skip by miss Hsplit).

Lemma route_GetTodo (method pathname : string) (uuid : option string) :
  route method pathname = Some (GetTodo uuid)
  <-> method = "GET"
      /\ exists id,
           uuid = Some id /\ noSlash id = true
           /\ pathname = String.append "/v1/todos/" id
           /\ id <> "search".
Proof.
  split.
  - intros H. unfold route in H. cascade H.
    apply whenRoute_Some in H. destruct H as (params & Hm & H). cbv beta in H.
    cascade H. apply when_Some in H. destruct H as [Hmethod Hcall].
    apply String.eqb_eq in Hmethod. subst method.
    apply (matchRoute_item "todos") in Hm; [| split; reflexivity].
    destruct Hm as (id & Hid & -> & ->).
    injection Hcall as <-. split; [reflexivity |].
    exists id. rewrite lookup_singleton_eq.
    repeat split; [exact Hid |]. intros ->.
    apply when_None in Hnone1. discriminate.
  - intros (-> & id & -> & Hid & Hpath & Hne).
    assert (Hsplit := item_path "todos" pathname id (conj eq_refl eq_refl) Hid Hpath).
    assert (Hm : matchRoute pathname "/v1/todos/:uuid" = Some {[ "uuid" := id ]}).
    { apply (matchRoute_item "todos"); [split; reflexivity |].
      exists id. repeat split; assumption. }
    skip_steps Hsplit. apply firstOf_hit.
    rewrite (whenRoute_hit _ _ _ _ Hm), lookup_singleton_eq. reflexivity.
Qed.

Lemma route_UpdateTodo (method pathname : string) (uuid : option string) :
  route method pathname = Some (UpdateTodo uuid)
  <-> method = "PATCH"
      /\ exists id,
           uuid = Some id /\ noSlash id = true
           /\ pathname = String.append "/v1/todos/" id.
Proof.
  split.
  - intros H. unfold route in H. cascade H.
    apply whenRoute_Some in H. destruct H as (params & Hm & H). cbv beta in H.
    cascade H. apply when_Some in H. destruct H as [Hmethod Hcall].
    apply String.eqb_eq in Hmethod. subst method.
    apply (matchRoute_item "todos") in Hm; [| split; reflexivity].
    destruct Hm as (id & Hid & -> & ->).
    injection Hcall as <-. split; [reflexivity |].
    exists id. rewrite lookup_singleton_eq. repeat split. exact Hid.
  - intros (-> & id & -> & Hid & Hpath).
    assert (Hsplit := item_path "todos" pathname id (conj eq_refl eq_refl) Hid Hpath).
    assert (Hm : matchRoute pathname "/v1/todos/:uuid" = Some {[ "uuid" := id ]}).
    { apply (matchRoute_item "todos"); [split; reflexivity |].
      exists id. repeat split; assumption. }
    skip_steps Hsplit. apply firstOf_hit.
    rewrite (whenRoute_hit _ _ _ _ Hm), lookup_singleton_eq. reflexivity.
Qed.

Lemma route_DeleteTodo (method pathname : string) (uuid : option string) :
  route method pathname = Some (DeleteTodo uuid)
  <-> method = "DELETE"
      /\ exists id,
           uuid = Some id /\ noSlash id = true
           /\ pathname = String.append "/v1/todos/" id.
Proof.
  split.
  - intros H. unfold route in H. cascade H.
    apply whenRoute_Some in H. destruct H as (params & Hm & H). cbv beta in H.
    cascade H. apply when_Some in H. destruct H as [Hmethod Hcall].
    apply String.eqb_eq in Hmethod. subst method.
    apply (matchRoute_item "todos") in Hm; [| split; reflexivity].
    destruct Hm as (id & Hid & -> & ->).
    injection Hcall as <-. split; [reflexivity |].
    exists id. rewrite lookup_singleton_eq. repeat split. exact Hid.
  - intros (-> & id & -> & Hid & Hpath).
    assert (Hsplit := item_path "todos" pathname id (conj eq_refl eq_refl) Hid Hpath).
    assert (Hm : matchRoute pathname "/v1/todos/:uuid" = Some {[ "uuid" := id ]}).
    { apply (matchRoute_item "todos"); [split; reflexivity |].
      exists id. repeat split; assumption. }
    skip_steps Hsplit. apply firstOf_hit.
    rewrite (whenRoute_hit _ _ _ _ Hm), lookup_singleton_eq. reflexivity.
Qed.


Lemma route_CompleteTodo (method pathname : string) (uuid : option string) :
  route method pathname = Some (CompleteTodo uuid)
  <-> method = "POST"
      /\ exists id,
           uuid = Some id /\ noSlash id = true
           /\ pathname
              = String.append "/v1/todos/" (String.append id "/complete").
Proof.
  split.
  - intros H. unfold route in H. cascade H.
    apply whenRoute_Some in H. destruct H as (params & Hm & H). cbv beta in H.
    apply when_Some in H. destruct H as [Hmethod Hcall].
    apply String.eqb_eq in Hmethod. subst method.
    apply (matchRoute_action "todos" "uuid" "complete") in Hm;
      [| split; reflexivity | split; reflexivity | reflexivity | discriminate].
    destruct Hm as (id & Hid & -> & ->).
    injection Hcall as <-. split; [reflexivity |].
    exists id. rewrite lookup_singleton_eq. repeat split. exact Hid.
  - intros (-> & id & -> & Hid & Hpath).
    assert (Hsplit := action_path "todos" "complete" pathname id
                        (conj eq_refl eq_refl) (conj eq_refl eq_refl) Hid Hpath).
    assert (Hm : matchRoute pathname "/v1/todos/:uuid/complete"
                 = Some {[ "uuid" := id ]}).
    { apply (matchRoute_action "todos" "uuid" "complete");
        [split; reflexivity | split; reflexivity | reflexivity | discriminate |].
      exists id. repeat split; assumption. }
    skip_steps Hsplit. apply firstOf_hit.
    rewrite (whenRoute_hit _ _ _ _ Hm), lookup_singleton_eq. reflexivity.
Qed.

Lemma route_CancelTodo (method pathname : string) (uuid : option string) :
  route method pathname = Some (CancelTodo uuid)
  <-> method = "POST"
      /\ exists id,
           uuid = Some id /\ noSlash id = true
           /\ pathname
              = String.append "/v1/todos/" (String.append id "/cancel").
Proof.
  split.
  - intros H. unfold route in H. cascade H.
    apply whenRoute_Some in H. destruct H as (params & Hm & H). cbv beta in H.
    apply when_Some in H. destruct H as [Hmethod Hcall].
    apply String.eqb_eq in Hmethod. subst method.
    apply (matchRoute_action "todos" "uuid" "cancel") in Hm;
      [| split; reflexivity | split; reflexivity | reflexivity | discriminate].
    destruct Hm as (id & Hid & -> & ->).
    injection Hcall as <-. split; [reflexivity |].
    exists id. rewrite lookup_singleton_eq. repeat split. exact Hid.
  - intros (-> & id & -> & Hid & Hpath).
    assert (Hsplit := action_path "todos" "cancel" pathname id
                        (conj eq_refl eq_refl) (conj eq_refl eq_refl) Hid Hpath).
    assert (Hm : matchRoute pathname "/v1/todos/:uuid/cancel"
                 = Some {[ "uuid" := id ]}).
    { apply (matchRoute_action "todos" "uuid" "cancel");
        [split; reflexivity | split; reflexivity | reflexivity | discriminate |].
      exists id. repeat split; assumption. }
    skip_steps Hsplit. apply firstOf_hit.
    rewrite (whenRoute_hit _ _ _ _ Hm), lookup_singleton_eq. reflexivity.
Qed.



(** X19. The requests that reach the handlers of a single to-do: a GET,
    PATCH or DELETE of [/v1/todos/] followed by one segment is a lookup,
    an update or a deletion of the to-do named by that segment, except
    that GET [/v1/todos/search] is the search and not a lookup; a POST
    with [/complete] or [/cancel] after the segment completes or cancels
    it. Nothing else reaches these handlers. *)
Theorem route_todo_items (method pathname : string) (uuid : option string) :
  (route method pathname = Some (GetTodo uuid)
   <-> method = "GET"
       /\ exists id,
            uuid = Some id /\ noSlash id = true
            /\ pathname = String.append "/v1/todos/" id
            /\ id <> "search")
  /\ (route method pathname = Some (UpdateTodo uuid)
      <-> method = "PATCH"
          /\ exists id,
               uuid = Some id /\ noSlash id = true
               /\ pathname = String.append "/v1/todos/" id)
  /\ (route method pathname = Some (DeleteTodo uuid)
      <-> method = "DELETE"
          /\ exists id,
               uuid = Some id /\ noSlash id = true
               /\ pathname = String.append "/v1/todos/" id)
  /\ (route method pathname = Some (CompleteTodo uuid)
      <-> method = "POST"
          /\ exists id,
               uuid = Some id /\ noSlash id = true
               /\ pathname
                  = String.append "/v1/todos/" (String.append id "/complete"))
  /\ (route method pathname = Some (CancelTodo uuid)
      <-> method = "POST"
          /\ exists id,
               uuid = Some id /\ noSlash id = true
               /\ pathname
                  = String.append "/v1/todos/" (String.append id "/cancel")).
Proof.
  split; [apply route_GetTodo |].
  split; [apply route_UpdateTodo |].
  split; [apply route_DeleteTodo |].
  split; [apply route_CompleteTodo | apply route_CancelTodo].
Qed.




(** ** The request handler *)

(** X21. A request outside the two discovery paths whose header does not
    end with the configured token reaches no handler: the answer is one
    of the refusals 500, 401 and 403, and the state of the process is as
    before. *)
Theorem handleRequest_refuses (State Thrown : Type)
    (handle : Call -> State -> (Response + Thrown) * State)
    (errorMessage : Thrown -> string) (configToken : list N)
    (method pathname : string) (authorization : option (list N)) (state : State) :
  pathname <> "/health" ->
  pathname <> "/v1/capabilities" ->
  (forall before, authorization <> Some (before ++ configToken)%list) ->
  exists response,
    handleRequest State Thrown handle errorMessage configToken
      method pathname authorization state
    = (response, state)
    /\ In (status response) [500; 401; 403].
Proof.
  intros Hhealth Hcapabilities Htoken. unfold handleRequest.
  destruct (requireAuth configToken pathname authorization) as [authError|] eqn:Hauth.
  - exists authError. split; [reflexivity |].
    unfold requireAuth in Hauth.
    destruct (String.eqb pathname "/health" || String.eqb pathname "/v1/capabilities");
      [discriminate |].
    destruct configToken; [injection Hauth as <-; simpl; tauto |].
    destruct authorization as [[|h0 header]|];
      try (injection Hauth as <-; simpl; tauto).
    destruct (bool_decide _); [discriminate |].
    injection Hauth as <-. simpl. tauto.
  - exfalso.
    destruct (stripBearer_suffix (default [] authorization)) as [before Hbefore].
    unfold requireAuth in Hauth.
    destruct (String.eqb_spec pathname "/health"); [contradiction |].
    destruct (String.eqb_spec pathname "/v1/capabilities"); [contradiction |].
    simpl in Hauth. destruct configToken as [|t0 token]; [discriminate |].
    destruct authorization as [[|h0 header]|]; try discriminate.
    destruct (bool_decide_reflect (stripBearer (h0 :: header) = t0 :: token))
      as [Heq | _]; [| discriminate].
    apply (Htoken before). simpl in Hbefore. rewrite Heq in Hbefore.
    rewrite <- Hbefore. reflexivity.
Qed.

Lemma handleRequest_refuses_witness :
  exists response,
    handleRequest unit unit (fun _ state => (inr tt, state)) (fun _ => "failure")
      (JsText.codes "s3cret") "GET" "/v1/todos" None tt
    = (response, tt)
    /\ In (status response) [500; 401; 403].
Proof.
  apply (handleRequest_refuses unit unit (fun _ state => (inr tt, state))
           (fun _ => "failure") (JsText.codes "s3cret") "GET" "/v1/todos" None tt).
  - discriminate.
  - discriminate.
  - discriminate.
Defined.

(** * Writing through AppleScript *)

Lemma escapeAS_cons (c : ascii) (str : string) :
  escapeAS (String c str)
  = if Ascii.eqb c backslash then String backslash (String backslash (escapeAS str))
    else if Ascii.eqb c quote then String backslash (String quote (escapeAS str))
    else String c (escapeAS str).
Proof.
  unfold escapeAS. simpl replaceAll at 2.
  destruct (Ascii.eqb_spec c backslash) as [-> | Hb].
  - reflexivity.
  - simpl replaceAll. destruct (Ascii.eqb c quote); reflexivity.
Qed.

Lemma readLiteral_escapeAS (str rest : string) :
  readLiteral (String.append (escapeAS str) (String quote rest)) = Some (str, rest).
Proof.
  induction str as [|c str IH]; [reflexivity |].
  rewrite escapeAS_cons.
  destruct (Ascii.eqb_spec c backslash) as [-> | Hb].
  - rewrite !append_cons. simpl. rewrite IH. reflexivity.
  - destruct (Ascii.eqb_spec c quote) as [-> | Hq].
    + rewrite !append_cons. simpl. rewrite IH. reflexivity.
    + rewrite append_cons. simpl.
      destruct (Ascii.eqb_spec c quote); [contradiction |].
      destruct (Ascii.eqb_spec c backslash); [contradiction |].
      rewrite IH. reflexivity.
Qed.

(** X22. What [escapeAS] returns, put between double quotes, is read
    back as the string it was given, whatever follows the closing quote:
    no character of the string ends the literal early, and none is lost
    or changed. *)
Theorem escapeAS_read_back (str rest : string) :
  readLiteral (String.append (escapeAS str) (String quote rest)) = Some (str, rest).
Proof. apply readLiteral_escapeAS. Qed.

Lemma append_inv_head (s s1 s2 : string) :
  String.append s s1 = String.append s s2 -> s1 = s2.
Proof.
  induction s as [|c s IH]; [intros H; exact H |].
  rewrite !append_cons. intros H. injection H as H. apply IH. exact H.
Qed.

Lemma embedded_injective (script : string -> string) (before after : string) :
  (forall identifier,
     script identifier
     = String.append before
         (String quote (String.append (escapeAS identifier) (String quote after)))) ->
  forall id1 id2, script id1 = script id2 -> id1 = id2.
Proof.
  intros Hshape id1 id2 Heq. rewrite !Hshape in Heq.
  apply append_inv_head in Heq. injection Heq as Heq.
  apply (f_equal readLiteral) in Heq. rewrite !readLiteral_escapeAS in Heq.
  congruence.
Qed.

Ltac flatten_script :=
  cbv [tellThings template quoted line]; cbn [String.concat];
  repeat (rewrite append_cons || rewrite append_assoc);
  reflexivity.

(** X23. Each script that acts on an identifier is a fixed text around
    one string literal holding the escaped identifier, so that two
    identifiers never give the same script. *)
Theorem scripts_embed_identifier :
  Forall
    (fun script : string -> string =>
       (exists before after,
          forall identifier,
            script identifier
            = String.append before
                (String quote
                   (String.append (escapeAS identifier) (String quote after))))
       /\ forall id1 id2, script id1 = script id2 -> id1 = id2)
    [completeTodoScript; cancelTodoScript; deleteTodoScript; completeProjectScript].
Proof.
  assert (Hboth : forall (script : string -> string) before after,
             (forall identifier,
                script identifier
                = String.append before
                    (String quote
                       (String.append (escapeAS identifier) (String quote after)))) ->
             (exists before after,
                forall identifier,
                  script identifier
                  = String.append before
                      (String quote
                         (String.append (escapeAS identifier) (String quote after))))
             /\ forall id1 id2, script id1 = script id2 -> id1 = id2).
  { intros script before after Hshape. split.
    - exists before, after. exact Hshape.
    - apply (embedded_injective script before after Hshape). }
  constructor; [| constructor; [| constructor; [| constructor; [| constructor]]]].
  - apply (Hboth completeTodoScript
             (template ["tell application "; quoted "Things3"; line;
                        "  set status of to do id "])
             (template [" to completed"; line; "end tell"])).
    intros identifier. unfold completeTodoScript. flatten_script.
  - apply (Hboth cancelTodoScript
             (template ["tell application "; quoted "Things3"; line;
                        "  set status of to do id "])
             (template [" to canceled"; line; "end tell"])).
    intros identifier. unfold cancelTodoScript. flatten_script.
  - apply (Hboth deleteTodoScript
             (template ["tell application "; quoted "Things3"; line;
                        "  move to do id "])
             (template [" to list "; quoted "Trash"; line; "end tell"])).
    intros identifier. unfold deleteTodoScript. flatten_script.
  - apply (Hboth completeProjectScript
             (template ["tell application "; quoted "Things3"; line;
                        "  set status of project id "])
             (template [" to completed"; line; "end tell"])).
    intros identifier. unfold completeProjectScript. flatten_script.
Qed.

Ltac checked_write lookup :=
  cbv [checkedWrite foundBy handleCompleteTodo handleCancelTodo handleDeleteTodo
       handleCompleteProject io_bind query];
  destruct lookup as [[[found|]|e] cache']; cbn [fst offsetCache scripts];
  [ try destruct found as [project todos];
    cbv [tryCatch io_bind completeTodo cancelTodo deleteTodo completeProject
         runAppleScript io_ret];
    cbn [offsetCache scripts];
    match goal with
    | |- context [N.eqb ?code 0%N] => destruct (N.eqb code 0%N)
    end;
    cbn [negb]; (split; [reflexivity |]); eexists; split; reflexivity
  | cbv [io_ret]; cbn [scripts]; split; reflexivity
  | split; reflexivity ].

(** X24. The handlers that complete, cancel or delete a to-do, or
    complete a project, look the item up first. When the lookup finds
    nothing they answer 404 and run no script; when it finds the item
    they run exactly one script, the one built for the identifier, and
    answer 200 if the process exits with 0 and 500 if it does not; the
    failure of the script is never thrown. *)
Theorem write_handlers_look_up_first
    (osascript : list string -> string -> ProcessResult) (rangeErrorMessage : string)
    (db : Database) (nowMs : Z) (uuid : string) (world : World) :
  let todo := foundBy (fst (getTodoByUuid db nowMs uuid (offsetCache world))) in
  let project := foundBy (fst (getProjectByUuid db nowMs uuid (offsetCache world))) in
  checkedWrite osascript todo "To-do not found" (completeTodoScript uuid) world
    (handleCompleteTodo osascript rangeErrorMessage db nowMs uuid world)
  /\ checkedWrite osascript todo "To-do not found" (cancelTodoScript uuid) world
       (handleCancelTodo osascript rangeErrorMessage db nowMs uuid world)
  /\ checkedWrite osascript todo "To-do not found" (deleteTodoScript uuid) world
       (handleDeleteTodo osascript rangeErrorMessage db nowMs uuid world)
  /\ checkedWrite osascript project "Project not found" (completeProjectScript uuid)
       world
       (handleCompleteProject osascript rangeErrorMessage db nowMs uuid world).
Proof.
  intros todo project. subst todo project.
  split; [| split; [| split]].
  - checked_write (getTodoByUuid db nowMs uuid (offsetCache world)).
  - checked_write (getTodoByUuid db nowMs uuid (offsetCache world)).
  - checked_write (getTodoByUuid db nowMs uuid (offsetCache world)).
  - checked_write (getProjectByUuid db nowMs uuid (offsetCache world)).
Qed.

(** * The read handlers *)

Lemma length_append (s1 s2 : string) :
  String.length (String.append s1 s2) = (String.length s1 + String.length s2)%nat.
Proof.
  induction s1 as [|c s1 IH]; [reflexivity |].
  rewrite append_cons. simpl. rewrite IH. reflexivity.
Qed.

Lemma substring_all (s : string) : String.substring 0 (String.length s) s = s.
Proof. induction s as [|c s IH]; simpl; [| rewrite IH]; reflexivity. Qed.

Lemma substring_skip (before s : string) (m : nat) :
  String.substring (String.length before) m (String.append before s)
  = String.substring 0 m s.
Proof.
  induction before as [|c before IH]; [reflexivity |].
  rewrite append_cons. simpl. exact IH.
Qed.

Lemma substring_split (s : string) (k m : nat) :
  (k + m)%nat = String.length s ->
  s = String.append (String.substring 0 k s) (String.substring k m s).
Proof.
  revert k. induction s as [|c s IH]; intros k Hlen; simpl in Hlen.
  - destruct k; [| discriminate]. destruct m; [| discriminate]. reflexivity.
  - destruct k as [|k].
    + simpl in Hlen. subst m.
      change (String c s = String.substring 0 (S (String.length s)) (String c s)).
      simpl. rewrite substring_all. reflexivity.
    + simpl. rewrite append_cons. f_equal. apply IH. lia.
Qed.

Lemma endsWith_spec (s suffix : string) :
  endsWith s suffix = true <-> exists before, s = String.append before suffix.
Proof.
  unfold endsWith. rewrite andb_true_iff, Nat.leb_le, String.eqb_eq. split.
  - intros [Hle Hsub]. exists (String.substring 0 (String.length s - String.length suffix) s).
    pose proof (substring_split s (String.length s - String.length suffix)
                  (String.length suffix)) as Hsplit.
    rewrite Hsub in Hsplit. apply Hsplit. lia.
  - intros [before ->]. rewrite length_append. split; [lia |].
    replace (String.length before + String.length suffix - String.length suffix)%nat
      with (String.length before) by lia.
    rewrite substring_skip. apply substring_all.
Qed.

(** X25. [handleGetTodos] answers 400 without touching the cache when the
    search has no query or an empty one, or when the view named is none
    of the six that [getTodosByList] knows; a missing view name stands
    for today. Otherwise it answers 200 with the to-dos of the search or
    of that view, so that the empty fall-through of the view switch is
    never reached from a request. The search is what a path ending in
    [/search] asks for. *)
Theorem handleGetTodos_answers (db : Database) (nowMs : Z) (pathname : string)
    (q list : option string) (cache cache' : Cache) (response : Response) :
  handleGetTodos db nowMs pathname q list cache = (Ok response, cache') ->
  let name := match list with Some given => given | None => "today" end in
  (status response = 400 /\ cache' = cache
   /\ ((searchPath pathname /\ (q = None \/ q = Some EmptyString))
       \/ (~ searchPath pathname /\ ~ In name listNames)))
  \/ (status response = 200
      /\ exists todos,
           body response = Data (Todos todos)
           /\ ((searchPath pathname
                /\ exists query,
                     q = Some query /\ query <> EmptyString
                     /\ searchTodos db nowMs query cache = (Ok todos, cache'))
               \/ (~ searchPath pathname
                   /\ In name listNames
                   /\ getTodosByList db nowMs name cache = (Ok todos, cache')))).
Proof.
  intros H name. unfold handleGetTodos in H. cbv zeta in H.
  change (orElse list "today") with name in H.
  pose proof (endsWith_spec pathname "/search") as Hpath. fold (searchPath pathname) in Hpath.
  destruct (endsWith pathname "/search").
  - assert (Hsearching : searchPath pathname) by (apply Hpath; reflexivity).
    destruct q as [[|c query]|].
    + injection H as <- <-. left. simpl. tauto.
    + right. unfold bind in H.
      destruct (searchTodos db nowMs (String c query) cache) as [[todos|e] c1]
        eqn:Hsearch; [| discriminate].
      injection H as <- <-. split; [reflexivity |].
      exists todos. split; [reflexivity |]. left. split; [exact Hsearching |].
      exists (String c query).
      split; [reflexivity |]. split; [discriminate | exact Hsearch].
    + injection H as <- <-. left. simpl. tauto.
  - assert (Hlisting : ~ searchPath pathname).
    { intros Hs. apply Hpath in Hs. discriminate. }
    destruct (existsb (String.eqb name) VALID_LISTS) eqn:Hvalid;
      cbn [negb] in H; cbv beta iota in H.
    + right. apply existsb_exists in Hvalid. destruct Hvalid as (known & Hin & Heq).
      apply String.eqb_eq in Heq. subst known.
      unfold bind in H.
      destruct (getTodosByList db nowMs name cache) as [[todos|e] c1] eqn:Hview;
        [| discriminate].
      injection H as <- <-. split; [reflexivity |].
      exists todos. split; [reflexivity |]. right.
      split; [exact Hlisting |]. split; [exact Hin | reflexivity].
    + left. injection H as <- <-. split; [reflexivity |]. split; [reflexivity |].
      right. split; [exact Hlisting |].
      intros Hin.
      assert (Hex : existsb (String.eqb name) VALID_LISTS = true).
      { apply existsb_exists. exists name. split; [exact Hin | apply String.eqb_refl]. }
      congruence.
Qed.

Lemma handleGetTodos_answers_witness :
  exists response cache',
    handleGetTodos Sample.agenda Sample.noon "/v1/todos" None None None
    = (Ok response, cache')
    /\ status response = 200
    /\ cache' = Some Sample.agendaOffset.
Proof.
  eexists. eexists. split; [vm_compute; reflexivity |].
  split; [| reflexivity].
  destruct (handleGetTodos_answers Sample.agenda Sample.noon "/v1/todos" None None None
              _ _ eq_refl) as [(H400 & _) | (H200 & _)].
  - discriminate H400.
  - exact H200.
Defined.
